(** * Sonos command layer: a shallow embedding of [Soap.js] and
    [Sonos-Commands.js]

    The development follows the two source modules.  JavaScript data is kept
    the way the code handles it: dynamic documents (SOAP responses, parsed
    XML) are [JS.value]s with objects as finite maps, topology and snapshot
    data are records, asynchronous calls on players run in a small monad that
    threads the history of calls and propagates thrown errors.  The
    [node.debug] lines of the source only write to the log and are left
    out. *)

From Stdlib Require Import ZArith String Ascii List Lia Bool.
From stdpp Require Import base option list strings pretty gmap.

Set Warnings "-register-all".
Open Scope string_scope.
Open Scope Z_scope.

(** ** JavaScript values and the string primitives the code calls *)

Module JS.

Inductive value :=
| Undefined
| Null
| Boolean (b : bool)
| Num (n : Z)
| Str (s : string)
| Arr (l : list value)
| Obj (m : gmap string value).

(** ToBoolean. Numbers are the finite integers the code meets (status codes,
    volumes, counters). *)
Definition truthy (v : value) : bool :=
  match v with
  | Undefined | Null => false
  | Boolean b => b
  | Num n => negb (n =? 0)
  | Str s => negb (String.eqb s "")
  | Arr _ | Obj _ => true
  end.

Definition isArray (v : value) : bool :=
  match v with Arr _ => true | _ => false end.

(** [v === s] for a string literal [s]. *)
Definition strict_eq_str (v : value) (s : string) : bool :=
  match v with Str s' => String.eqb s' s | _ => false end.

(** [v === n] for a number literal [n]. *)
Definition strict_eq_num (v : value) (n : Z) : bool :=
  match v with Num n' => n' =? n | _ => false end.

Definition digit_of (c : ascii) : option nat :=
  let n := nat_of_ascii c in
  if ((48 <=? n)%nat && (n <=? 57)%nat)%bool then Some (n - 48)%nat else None.

Fixpoint digits_value (acc : nat) (s : string) : option nat :=
  match s with
  | EmptyString => Some acc
  | String c r =>
      match digit_of c with
      | Some d => digits_value (10 * acc + d)%nat r
      | None => None
      end
  end.

(** A property key is an array index when it is the canonical decimal
    numeral of a natural number. *)
Definition array_index (k : string) : option nat :=
  match k with
  | EmptyString => None
  | String "0" EmptyString => Some 0%nat
  | String "0" _ => None
  | _ => digits_value 0 k
  end.

(** [v[k]] for a value that is neither undefined nor null: own properties
    of objects, [length] and indices of arrays and strings.  Members
    inherited from the built-in prototypes are not part of the model; the
    keys the code reads are XML element and attribute names. *)
Definition get (v : value) (k : string) : value :=
  match v with
  | Obj m => default Undefined (m !! k)
  | Arr l =>
      if String.eqb k "length" then Num (Z.of_nat (length l))
      else match array_index k with
           | Some i => default Undefined (l !! i)
           | None => Undefined
           end
  | Str s =>
      if String.eqb k "length" then Num (Z.of_nat (String.length s))
      else match array_index k with
           | Some i =>
               match String.get i s with
               | Some c => Str (String c EmptyString)
               | None => Undefined
               end
           | None => Undefined
           end
  | _ => Undefined
  end.

(** [s.indexOf(pat)]: position of the first occurrence, -1 when there is
    none. *)
Definition indexOf (s pat : string) : Z :=
  match String.index 0 pat s with
  | Some n => Z.of_nat n
  | None => -1
  end.

Definition includes (s pat : string) : bool := 0 <=? indexOf s pat.

Definition startsWith (s pat : string) : bool := String.prefix pat s.

(** [s.substring(a, b)]: both ends are clamped to [0, length] and swapped
    when out of order. *)
Definition substring (s : string) (a b : Z) : string :=
  let len := Z.of_nat (String.length s) in
  let a' := Z.max 0 (Z.min a len) in
  let b' := Z.max 0 (Z.min b len) in
  let from := Z.min a' b' in
  let to := Z.max a' b' in
  String.substring (Z.to_nat from) (Z.to_nat (to - from)) s.

(** [s.split(sep)] for a one-character separator. *)
Fixpoint split_on (sep : ascii) (cur : string) (s : string) : list string :=
  match s with
  | EmptyString => [cur]
  | String c r =>
      if Ascii.eqb c sep then cur :: split_on sep EmptyString r
      else split_on sep (cur +:+ String c EmptyString) r
  end.

Definition split (s : string) (sep : ascii) : list string :=
  split_on sep EmptyString s.

End JS.

Import JS.

(** ** Thrown values *)

Inductive error :=
| Error (message : string)       (* throw new Error(message) *)
| TypeError (message : string)   (* raised by the runtime itself *)
| Rejected (reason : string).    (* failure reported by a collaborator *)

Definition result (A : Type) : Type := error + A.

(** ** [Helper.js] *)

Module Helper.

(** Modelled from the spec: [Helper.js] is not among the sources.
    [isTruthy] accepts every value but undefined and null; an empty string,
    an empty object and an empty array all count as present (section 4.1:
    presence, not truthiness). *)
Definition isTruthy (input : value) : bool :=
  match input with
  | Undefined | Null => false
  | _ => true
  end.

(** Modelled from the spec: [Helper.js] is not among the sources.  As the
    name says, [isTruthy] and in addition not the empty string. *)
Definition isTruthyAndNotEmptyString (input : value) : bool :=
  isTruthy input && negb (strict_eq_str input "").

(** Modelled from the spec: [Helper.js] is not among the sources.  Follows
    the property chain [path] from [nestedObj]; a step from a falsy value
    gives undefined instead of raising. *)
Definition getNestedProperty (nestedObj : value) (path : list string) : value :=
  fold_left (fun obj key => if truthy obj then get obj key else Undefined)
            path nestedObj.

(** Modelled from the spec: [Helper.js] is not among the sources.  The
    property at the end of [path] is present (section 4.1: an empty string
    is present). *)
Definition isValidProperty (nestedObj : value) (path : list string) : bool :=
  isTruthy (getNestedProperty nestedObj path).

(** Modelled from the spec: [Helper.js] is not among the sources.  Present
    and not the empty string. *)
Definition isValidPropertyNotEmptyString (nestedObj : value) (path : list string) : bool :=
  isTruthyAndNotEmptyString (getNestedProperty nestedObj path).

End Helper.

Import Helper.

(** ** [Soap.js] *)

(** The callback of [encodeXml]: the entity of one matched character.  The
    global regular expression of the source is the character class of the
    five characters of the switch (less-than, greater-than, ampersand,
    apostrophe, double quote); every other character is copied. *)
Definition encodeChar (singleChar : ascii) : string :=
  match singleChar with
  | "<"%char => "&lt;"
  | ">"%char => "&gt;"
  | "&"%char => "&amp;"
  | "'"%char => "&apos;"
  | "034"%char => "&quot;"
  | c => String c EmptyString
  end.

Fixpoint encodeXml (xmlData : string) : string :=
  match xmlData with
  | EmptyString => EmptyString
  | String c rest => encodeChar c +:+ encodeXml rest
  end.

(** ** [Sonos-Commands.js]: helpers on transport URIs and metadata *)

Definition getMusicServiceId (xuri : string) : string :=
  if isTruthyAndNotEmptyString (Str xuri) then
    let positionStart := indexOf xuri "?sid=" + Z.of_nat (String.length "$sid=") in
    let positionEnd := indexOf xuri "&flags=" in
    if (1 <? positionStart) && (positionStart <? positionEnd)
    then substring xuri positionStart positionEnd
    else ""
  else "".

Definition getRadioId (xuri : string) : string :=
  if startsWith xuri "x-sonosapi-stream:" && includes xuri "sid=254" then
    let end_ := indexOf xuri "?sid=254" in
    let start := Z.of_nat (String.length "x-sonosapi-stream:") in
    substring xuri start end_
  else "".

Definition getUpnpClass (metadata : string) : string :=
  if isTruthyAndNotEmptyString (Str metadata) then
    let positionStart :=
      indexOf metadata "<upnp:class>" + Z.of_nat (String.length "<upnp:class>") in
    let positionEnd := indexOf metadata "</upnp:class>" in
    if (0 <=? positionStart) && (positionStart <? positionEnd)
    then substring metadata positionStart positionEnd
    else ""
  else "".

(** ** Collaborators

    Everything the module requires from outside: constants and helpers of
    [Helper.js], the two JSON tables, the runtime's [URL] class and
    [JSON.stringify], the [xml2js] parser and the metadata generator of the
    [sonos] package. *)

Module URL.
Record t := { hostname : string; port : string }.
End URL.

Record ActionTemplate := { inArgs : list string; outArgs : list string }.

Module MusicService.
Record t := { sid : string; name : string }.
End MusicService.

Class Collaborators := {
  NRCSP_ERRORPREFIX : string;
  hhmmss2msec : string -> Z;
  ACTIONS_TEMPLATESV6 : gmap string (gmap string ActionTemplate);
  MUSIC_SERVICES : list MusicService.t;
  (* new URL(text) raises a TypeError on text that is not a URL *)
  new_URL : string -> result URL.t;
  JSON_stringify : value -> string;
  (* the text a value takes inside a template literal *)
  ToString : value -> string;
  (* xml2js.parseStringPromise(xml, { mergeAttrs, explicitArray: false, charkey }) *)
  xml2js_parseStringPromise : value -> string -> result value;
  (* GenerateMetadata(uri).metadata *)
  GenerateMetadata : string -> string
}.

(** ** Players and the calls made on them *)

Module Player.
Record t := { host : string; port : string; baseUrl : string }.
End Player.

Record ZoneGroupMember := {
  UUID : string;
  ZoneName : string;
  Location : string;
  Invisible : option string   (* the attribute is optional *)
}.

Record ZoneGroup := {
  Coordinator : string;
  host : string;
  port : string;
  ID : string;
  Name : string;
  ZoneGroupMember_ : list ZoneGroupMember
}.

(** What [getAllGroups] resolves to. *)
Inductive allGroups :=
| GroupsMissing                        (* undefined, null or the empty string *)
| GroupsNotArray                       (* any other value that is not an array *)
| GroupsArray (groups : list ZoneGroup).

Record MediaInfo := {
  mi_CurrentURI : string;
  mi_CurrentURIMetaData : string;
  mi_NrTracks : Z
}.

Record PositionInfo := {
  pi_Track : Z;
  pi_RelTime : option string;
  pi_TrackDuration : option string
}.

Inductive call :=
| getAllGroups (p : Player.t)
| getCurrentState (p : Player.t)
| GetMediaInfo (p : Player.t)
| GetPositionInfo (p : Player.t)
| getVolume (p : Player.t)
| setVolume (p : Player.t) (volume : value)
| setMuted (p : Player.t) (muted : bool)
| setAVTransportURI (p : Player.t) (uri metadata : string) (onlySetUri : bool)
| selectTrack (p : Player.t) (trackNr : Z)
| Seek (p : Player.t) (InstanceID : Z) (Unit Target : string)
| play (p : Player.t)
| sendToPlayerV1 (playerUrlOrigin endpoint : string) (serviceName : option string)
                 (actionName : string) (args : gmap string value)
| setTimeout (milliseconds : Z).

(** An event of the history: the call and, when it failed, what it raised. *)
Definition event : Type := call * option error.

(** The players and the network: every call is answered from the history of
    the calls made so far, by a value or by a thrown error. *)
Record Device := {
  on_getAllGroups : list event -> Player.t -> result allGroups;
  on_getCurrentState : list event -> Player.t -> result value;
  on_GetMediaInfo : list event -> Player.t -> result MediaInfo;
  on_GetPositionInfo : list event -> Player.t -> result PositionInfo;
  on_getVolume : list event -> Player.t -> result value;
  on_setVolume : list event -> Player.t -> value -> result unit;
  on_setMuted : list event -> Player.t -> bool -> result unit;
  on_setAVTransportURI : list event -> Player.t -> string -> string -> bool -> result unit;
  on_selectTrack : list event -> Player.t -> Z -> result unit;
  on_Seek : list event -> Player.t -> Z -> string -> string -> result unit;
  on_play : list event -> Player.t -> result unit;
  on_sendToPlayerV1 : list event -> string -> string -> option string -> string ->
                      gmap string value -> result value
}.

(** ** The monad of asynchronous code

    An [async] function is run against a device from the history of the
    calls made before it; it yields the events of the calls it awaits itself,
    in order, and ends with a value or a thrown error. *)

Definition M (A : Type) : Type := Device -> list event -> list event * result A.

Definition ret {A} (a : A) : M A := fun _ _ => ([], inr a).

Definition throw {A} (e : error) : M A := fun _ _ => ([], inl e).

Definition lift {A} (r : result A) : M A := fun _ _ => ([], r).

Definition bind {A B} (m : M A) (f : A -> M B) : M B :=
  fun d h =>
    match m d h with
    | (evs, inl e) => (evs, inl e)
    | (evs, inr a) =>
        let '(evs', r) := f a d (h ++ evs)%list in ((evs ++ evs')%list, r)
    end.

Definition failure_of {A} (r : result A) : option error :=
  match r with inl e => Some e | inr _ => None end.

(** [await] of one call on a collaborator. *)
Definition await {A} (c : call) (answer : Device -> list event -> result A) : M A :=
  fun d h => let r := answer d h in ([(c, failure_of r)], r).

(** [promise.catch(() => { ... })] with a handler that only logs. *)
Definition catch_ignore (m : M unit) : M unit :=
  fun d h =>
    match m d h with
    | (evs, inl _) => (evs, inr tt)
    | (evs, inr a) => (evs, inr a)
    end.

Definition when (b : bool) (m : M unit) : M unit := if b then m else ret tt.

Notation "'do' x <- m ; k" := (bind m (fun x => k))
  (at level 10, x name, m at level 100, k at level 200).
Notation "m ;; k" := (bind m (fun _ => k))
  (at level 100, k at level 200, right associativity).

(** Bind of plain results, for the synchronous parts. *)
Definition rbind {A B} (r : result A) (f : A -> result B) : result B :=
  match r with inl e => inl e | inr a => f a end.

Notation "'try' x <- r ; k" := (rbind r (fun x => k))
  (at level 10, x name, r at level 100, k at level 200).

Fixpoint rmap {A B} (f : A -> result B) (l : list A) : result (list B) :=
  match l with
  | [] => inr []
  | x :: r => try y <- f x; try ys <- rmap f r; inr (y :: ys)
  end.

(** [for (let index = start; index < array.length; index++) body] over the
    remaining elements of an array. *)
Fixpoint for_from {A} (index : nat) (l : list A) (body : nat -> A -> M unit) : M unit :=
  match l with
  | [] => ret tt
  | x :: r => body index x;; for_from (S index) r body
  end.

(** [array[index]] followed by a member access: a TypeError when the index
    is out of range. *)
Definition at_index {A} (l : list A) (index : nat) : M A :=
  match l !! index with
  | Some x => ret x
  | None => throw (TypeError "Cannot read properties of undefined")
  end.

(** ** [executeActionV6] *)

Section Commands.
Context `{Collaborators}.

(** [array.forEach] with a callback that throws on the first property that
    is not valid. *)
Fixpoint require_all (obj : value) (missing : string -> error) (properties : list string)
  : result unit :=
  match properties with
  | [] => inr tt
  | property :: rest =>
      if negb (isValidProperty obj [property]) then inl (missing property)
      else require_all obj missing rest
  end.

Definition text_of (o : option string) : string :=
  match o with Some s => s | None => "undefined" end.

Definition delete_property (v : value) (k : string) : value :=
  match v with Obj m => Obj (delete k m) | _ => v end.

(** The service name is the second last segment of the endpoint: SONOS
    endpoints are [/<device>/<serviceName>/Control] or
    [/<serviceName>/Control].  Undefined when there is no such segment. *)
Definition serviceNameOf (endpoint : string) : option string :=
  let tmp := split endpoint "/" in
  if (2 <=? length tmp)%nat then tmp !! (length tmp - 2)%nat else None.

Definition executeActionV6 (playerUrlOrigin endpoint actionName : string)
    (actionInArgs : gmap string value) : M value :=
  match ACTIONS_TEMPLATESV6 !! endpoint ≫= (.!! actionName) with
  | None => throw (TypeError "Cannot destructure property inArgs")
  | Some template =>
      (* actionInArgs must have all properties *)
      lift (require_all (Obj actionInArgs)
              (fun property =>
                 Error (NRCSP_ERRORPREFIX +:+ " property " +:+ property +:+ " is missing}"))
              (inArgs template));;
      let serviceName := serviceNameOf endpoint in
      do response <- await (sendToPlayerV1 playerUrlOrigin endpoint serviceName actionName actionInArgs)
                           (fun d h => on_sendToPlayerV1 d h playerUrlOrigin endpoint
                                         serviceName actionName actionInArgs);
      if negb (isValidProperty response ["statusCode"]) then
        throw (Error (NRCSP_ERRORPREFIX
                      +:+ " status code from sendToPlayer is invalid - response.statusCode >>"
                      +:+ JSON_stringify response))
      else if negb (strict_eq_num (get response "statusCode") 200) then
        throw (Error (NRCSP_ERRORPREFIX +:+ " status code is not 200: "
                      +:+ ToString (get response "statusCode")
                      +:+ " - response >>" +:+ JSON_stringify response))
      else if negb (isValidProperty response ["body"]) then
        throw (Error (NRCSP_ERRORPREFIX
                      +:+ " body from sendToPlayer is invalid - response >>"
                      +:+ JSON_stringify response))
      else
        do bodyXml <- lift (xml2js_parseStringPromise (get response "body") "");
        let key := (["s:Envelope"; "s:Body"] ++ ["u:" +:+ actionName +:+ "Response"])%list in
        if negb (isValidProperty bodyXml key) then
          throw (Error (NRCSP_ERRORPREFIX
                        +:+ " body from sendToPlayer is invalid - response >>"
                        +:+ JSON_stringify response))
        else
          let result0 := getNestedProperty bodyXml key in
          if negb (isValidProperty result0 ["xmlns:u"]) then
            throw (Error (NRCSP_ERRORPREFIX +:+ " xmlns:u property is missing"))
          else
            let expectedResponseValue :=
              "urn:schemas-upnp-org:service:" +:+ text_of serviceName +:+ ":1" in
            if negb (strict_eq_str (get result0 "xmlns:u") expectedResponseValue) then
              throw (Error (NRCSP_ERRORPREFIX
                            +:+ " unexpected response from player: urn:schemas ... is missint "))
            else
              do result1 <-
                (if (length (outArgs template) =? 0)%nat then ret (Boolean true)
                 else
                   lift (require_all result0
                           (fun property =>
                              Error (NRCSP_ERRORPREFIX +:+ " response property "
                                     +:+ property +:+ " is missing}"))
                           (outArgs template));;
                   ret (delete_property result0 "xmlns:u"));
              match outArgs template with
              | [only] => ret (get result1 only)
              | _ => ret result1
              end
  end.

End Commands.

(** ** Topology: [sortedGroupArray], [getGroupMemberDataV2], [getAllPlayerList] *)

Module Member.
(** An entry of the array built by [sortedGroupArray].  The coordinator
    entry is pushed with its address only; name, uuid and visibility are
    filled in when the loop meets a member at the same hostname. *)
Record t := {
  urlHostname : string;
  urlPort : string;
  baseUrl : string;
  sonosName : option string;
  uuid : option string;
  invisible : option bool
}.
End Member.

Module ListedPlayer.
(** An entry of the array built by [getAllPlayerList]. *)
Record t := {
  sonosName : string;
  urlHostname : string;
  urlPort : string;
  baseUrl : string;
  uuid : string;
  isCoordinator : bool;
  groupIndex : nat
}.
End ListedPlayer.

Record GroupMemberData := {
  playerIndex : Z;
  members : list Member.t;
  groupId : string;
  groupName : string
}.

(** [array.findIndex(predicate)]: -1 when no element satisfies it. *)
Fixpoint findIndex {A} (predicate : A -> bool) (l : list A) : Z :=
  match l with
  | [] => -1
  | x :: r =>
      if predicate x then 0
      else let i := findIndex predicate r in if i <? 0 then -1 else i + 1
  end.

Definition optional_string (o : option string) : value :=
  match o with Some s => Str s | None => Undefined end.

Section Topology.
Context `{Collaborators}.

(** The member loop of [sortedGroupArray]: [first] is [members[0]],
    [others] the entries pushed behind it. *)
Fixpoint sortedGroupLoop (coordinatorUrlHostname : string)
    (zoneMembers : list ZoneGroupMember) (first : Member.t) (others : list Member.t)
  : result (list Member.t) :=
  match zoneMembers with
  | [] => inr (first :: others)
  | m :: rest =>
      try memberUrl <- new_URL (Location m);
      let invisible :=
        if truthy (optional_string (Invisible m))
        then strict_eq_str (optional_string (Invisible m)) "1"
        else false in
      if negb (String.eqb (URL.hostname memberUrl) coordinatorUrlHostname) then
        sortedGroupLoop coordinatorUrlHostname rest first
          (others ++ [ {| Member.urlHostname := URL.hostname memberUrl;
                          Member.urlPort := URL.port memberUrl;
                          Member.baseUrl := "http://" +:+ URL.hostname memberUrl
                                            +:+ ":" +:+ URL.port memberUrl;
                          Member.sonosName := Some (ZoneName m);
                          Member.uuid := Some (UUID m);
                          Member.invisible := Some invisible |} ])%list
      else
        (* update coordinator on position 0 with name *)
        sortedGroupLoop coordinatorUrlHostname rest
          {| Member.urlHostname := Member.urlHostname first;
             Member.urlPort := Member.urlPort first;
             Member.baseUrl := Member.baseUrl first;
             Member.sonosName := Some (ZoneName m);
             Member.uuid := Some (UUID m);
             Member.invisible := Some invisible |}
          others
  end.

Definition sortedGroupArray (allGroupsData : list ZoneGroup) (groupIndex : Z)
  : result (list Member.t) :=
  if (groupIndex <? 0) || (Z.of_nat (length allGroupsData) <=? groupIndex) then
    inl (Error (NRCSP_ERRORPREFIX +:+ " index is out of range"))
  else
    match allGroupsData !! Z.to_nat groupIndex with
    | None => inl (TypeError "Cannot read properties of undefined")
    | Some group =>
        let coordinatorUrlHostname := host group in
        sortedGroupLoop coordinatorUrlHostname (ZoneGroupMember_ group)
          {| Member.urlHostname := coordinatorUrlHostname;
             Member.urlPort := port group;
             Member.baseUrl := "http://" +:+ coordinatorUrlHostname +:+ ":" +:+ port group;
             Member.sonosName := None;
             Member.uuid := None;
             Member.invisible := None |}
          []
    end.

(** The inner loop of the search in [getGroupMemberDataV2]: the hostname
    of the first member of the group that matches, if any. *)
Fixpoint findInGroup (searchByName : bool) (playerName : option string)
    (playerHost : string) (zoneMembers : list ZoneGroupMember) : result (option string) :=
  match zoneMembers with
  | [] => inr None
  | m :: rest =>
      let visible := negb (truthy (optional_string (Invisible m))) in
      if searchByName then
        let name := ZoneName m in
        if match playerName with Some n => String.eqb name n | None => false end && visible
        then try playerUrl <- new_URL (Location m); inr (Some (URL.hostname playerUrl))
        else findInGroup searchByName playerName playerHost rest
      else
        (* extract hostname from Location field *)
        try playerUrl <- new_URL (Location m);
        if String.eqb (URL.hostname playerUrl) playerHost && visible
        then inr (Some (URL.hostname playerUrl))
        else findInGroup searchByName playerName playerHost rest
  end.

(** The outer loop: index of the first group with a match, and the hostname
    that matched. *)
Fixpoint findPlayerGroup (searchByName : bool) (playerName : option string)
    (playerHost : string) (groups : list ZoneGroup) (groupIndex : nat)
  : result (option (nat * string)) :=
  match groups with
  | [] => inr None
  | g :: rest =>
      try found <- findInGroup searchByName playerName playerHost (ZoneGroupMember_ g);
      match found with
      | Some usedPlayerHostname => inr (Some (groupIndex, usedPlayerHostname))
      | None => findPlayerGroup searchByName playerName playerHost rest (S groupIndex)
      end
  end.

Definition getGroupMemberDataV2 (sonosPlayer : Player.t) (playerName : option string)
  : M GroupMemberData :=
  let searchByName := isTruthyAndNotEmptyString (optional_string playerName) in
  do allGroupsData <- await (getAllGroups sonosPlayer)
                            (fun d h => on_getAllGroups d h sonosPlayer);
  match allGroupsData with
  | GroupsMissing => throw (Error (NRCSP_ERRORPREFIX +:+ " all groups data undefined"))
  | GroupsNotArray => throw (Error (NRCSP_ERRORPREFIX +:+ " all groups data is not array"))
  | GroupsArray groups =>
      do found <- lift (findPlayerGroup searchByName playerName
                          (Player.host sonosPlayer) groups 0);
      match found with
      | None =>
          throw (Error (NRCSP_ERRORPREFIX
                        +:+ " could not find given player (must be visible) in any group"))
      | Some (playerGroupIndex, usedPlayerHostname) =>
          (* reorder members that coordinator is at position 0 *)
          do sorted <- lift (sortedGroupArray groups (Z.of_nat playerGroupIndex));
          (* only accept visible player *)
          let members :=
            List.filter
              (fun member =>
                 match Member.invisible member with Some false => true | _ => false end)
              sorted in
          let playerIndex :=
            findIndex (fun member => String.eqb (Member.urlHostname member) usedPlayerHostname)
                      members in
          do group <- at_index groups playerGroupIndex;
          ret {| playerIndex := playerIndex; members := members;
                 groupId := ID group; groupName := Name group |}
      end
  end.

(** The member loop of [getAllPlayerList]. *)
Fixpoint listGroupMembers (group : ZoneGroup) (groupIndex : nat)
    (zoneMembers : list ZoneGroupMember) : result (list ListedPlayer.t) :=
  match zoneMembers with
  | [] => inr []
  | m :: rest =>
      let visible :=
        match Invisible m with
        | Some flag => truthy (Str flag)   (* visible = member.Invisible *)
        | None => true
        end in
      if visible then
        try playerUrl <- new_URL (Location m);
        try tail <- listGroupMembers group groupIndex rest;
        inr ({| ListedPlayer.sonosName := ZoneName m;
                ListedPlayer.urlHostname := URL.hostname playerUrl;
                ListedPlayer.urlPort := URL.port playerUrl;
                ListedPlayer.baseUrl := "http://" +:+ URL.hostname playerUrl
                                        +:+ ":" +:+ URL.port playerUrl;
                ListedPlayer.uuid := UUID m;
                ListedPlayer.isCoordinator := String.eqb (Coordinator group) (UUID m);
                ListedPlayer.groupIndex := groupIndex |} :: tail)
      else listGroupMembers group groupIndex rest
  end.

Fixpoint listGroups (groups : list ZoneGroup) (groupIndex : nat)
  : result (list ListedPlayer.t) :=
  match groups with
  | [] => inr []
  | g :: rest =>
      try here <- listGroupMembers g groupIndex (ZoneGroupMember_ g);
      try there <- listGroups rest (S groupIndex);
      inr (here ++ there)%list
  end.

Definition getAllPlayerList (sonosPlayer : Player.t) : M (list ListedPlayer.t) :=
  do allGroupsData <- await (getAllGroups sonosPlayer)
                            (fun d h => on_getAllGroups d h sonosPlayer);
  match allGroupsData with
  | GroupsMissing => throw (Error (NRCSP_ERRORPREFIX +:+ " all groups data undefined"))
  | GroupsNotArray => throw (Error (NRCSP_ERRORPREFIX +:+ " all groups data is not array"))
  | GroupsArray groups => lift (listGroups groups 0)
  end.

End Topology.

(** ** DIDL-Lite: [didlXmlToArray], [getMySonosV3] and its siblings *)

Module Didl.
(** [DidlBrowseItem]; [radioId] is the property [getMySonosV3] adds. *)
Record t := {
  id : value;
  title : value;
  artist : value;
  uri : value;
  artUri : value;
  metadata : value;
  sid : string;
  serviceName : string;
  upnpClass : value;
  processingType : string;
  radioId : option string
}.
End Didl.

Definition UNPN_CLASSES_UNSUPPORTED : list string :=
  [ "object.container.podcast.#podcastContainer";
    "object.container.albumlist" ].

Definition UPNP_CLASSES_STREAM : list string :=
  [ "object.item.audioItem.audioBroadcast" ].

Definition UPNP_CLASSES_QUEUE : list string :=
  [ "object.container.album.musicAlbum";
    "object.container.playlistContainer";
    "object.item.audioItem.musicTrack";
    "object.container";
    "object.container.playlistContainer#playlistItem" ].

(** [array.includes(v)] on an array of strings. *)
Definition includes_value (classes : list string) (v : value) : bool :=
  existsb (strict_eq_str v) classes.

(** A string method called on a value: the text content handed over by the
    XML parser is a string; on anything else the method does not exist. *)
Definition as_string (v : value) : result string :=
  match v with
  | Str s => inr s
  | _ => inl (TypeError "is not a function")
  end.

Section DidlParsing.
Context `{Collaborators}.

Definition getMusicServiceName (sid : string) : string :=
  if negb (String.eqb sid "") then
    match List.find (fun service => String.eqb (MusicService.sid service) sid)
                    MUSIC_SERVICES with
    | Some service => MusicService.name service
    | None => ""
    end
  else "".

(** The callback of [originalItems.map] in [didlXmlToArray]. *)
Definition didlBrowseItem (tag : string) (item : value) : result Didl.t :=
  if negb (isValidProperty item ["id"]) then
    inl (Error (NRCSP_ERRORPREFIX +:+ " id is missing"))
  else if negb (isValidProperty item ["dc:title"]) then
    inl (Error (NRCSP_ERRORPREFIX +:+ " title is missing"))
  else
    let artist :=
      if isValidProperty item ["dc:creator"] then get item "dc:creator" else Str "" in
    try res <-
      (if isValidProperty item ["res"; tag] then
         let u := get (get item "res") tag in
         try xuri <- as_string u;
         let sid := getMusicServiceId xuri in
         inr (u, sid, getMusicServiceName sid)
       else inr (Str "", "", ""));
    let upnpClass :=
      if isValidProperty item ["upnp:class"] then get item "upnp:class" else Str "" in
    (* artURI (cover) maybe an array (one for each track) then choose first *)
    let artUri :=
      if isValidProperty item ["upnp:albumArtURI"] then
        match get item "upnp:albumArtURI" with
        | Arr [] => Str ""
        | Arr (first :: _) => first
        | single => single
        end
      else Str "" in
    let metadata :=
      if isValidProperty item ["r:resMD"] then get item "r:resMD" else Str "" in
    inr {| Didl.id := get item "id";
           Didl.title := get item "dc:title";
           Didl.artist := artist;
           Didl.uri := res.1.1;
           Didl.artUri := artUri;
           Didl.metadata := metadata;
           Didl.sid := res.1.2;
           Didl.serviceName := res.2;
           Didl.upnpClass := upnpClass;
           Didl.processingType := "";   (* for later usage *)
           Didl.radioId := None |}.

Definition didlXmlToArray (didlXml : value) (itemName : string) : result (list Didl.t) :=
  if negb (isTruthyAndNotEmptyString didlXml) then
    inl (Error (NRCSP_ERRORPREFIX +:+ " DIDL-Light input is missing"))
  else if negb (isTruthyAndNotEmptyString (Str itemName)) then
    inl (Error (NRCSP_ERRORPREFIX +:+ " item name such as container is missing"))
  else
    let tag := "uriIdentifier" in
    try didlJson <- xml2js_parseStringPromise didlXml tag;
    if negb (isTruthyAndNotEmptyString didlJson) then
      inl (Error (NRCSP_ERRORPREFIX +:+ " response form xml2js is invalid."))
    else
      (* handle single container/item and no container/item *)
      let path := ["DIDL-Lite"; itemName] in
      let originalItems :=
        if isValidProperty didlJson path then
          match get (get didlJson "DIDL-Lite") itemName with
          | Arr items => items
          | one => [one]
          end
        else [] in
      rmap (didlBrowseItem tag) originalItems.

(** The art-URI rewriting shared by the three list commands. *)
Definition withPlayerOrigin (playerUrlOrigin : string) (item : Didl.t) : value :=
  if isTruthyAndNotEmptyString (Didl.artUri item) then
    match Didl.artUri item with
    | Str a => if startsWith a "/getaa" then Str (playerUrlOrigin +:+ a) else Str a
    | other => other
    end
  else Str "".

(** The callback of [listMySonos.map] in [getMySonosV3].  The fields of an
    item are always set, so a field is valid when its value is. *)
Definition mySonosItem (playerUrlOrigin : string) (item : Didl.t) : result Didl.t :=
  let artUri := withPlayerOrigin playerUrlOrigin item in
  try radioId <-
    (if isTruthy (Didl.uri item) then
       try xuri <- as_string (Didl.uri item); inr (Some (getRadioId xuri))
     else inr (Didl.radioId item));
  (* metadata contains the relevant upnp class of the track, album, stream *)
  try upnpClass <-
    (if isTruthy (Didl.metadata item) then
       if isTruthyAndNotEmptyString (Didl.metadata item) then
         try md <- as_string (Didl.metadata item); inr (Str (getUpnpClass md))
       else inr (Str "")
     else inr (Didl.upnpClass item));
  let processingType :=
    if includes_value UPNP_CLASSES_STREAM upnpClass then "stream"
    else if includes_value UPNP_CLASSES_QUEUE upnpClass then "queue"
    else "unsupported" in
  inr {| Didl.id := Didl.id item;
         Didl.title := Didl.title item;
         Didl.artist := Didl.artist item;
         Didl.uri := Didl.uri item;
         Didl.artUri := artUri;
         Didl.metadata := Didl.metadata item;
         Didl.sid := Didl.sid item;
         Didl.serviceName := Didl.serviceName item;
         Didl.upnpClass := upnpClass;
         Didl.processingType := processingType;
         Didl.radioId := radioId |}.

(** The callback of [map] in [getSonosPlaylistsV2] and [getQueueV2]. *)
Definition queueItem (playerUrlOrigin : string) (item : Didl.t) : Didl.t :=
  {| Didl.id := Didl.id item;
     Didl.title := Didl.title item;
     Didl.artist := Didl.artist item;
     Didl.uri := Didl.uri item;
     Didl.artUri := withPlayerOrigin playerUrlOrigin item;
     Didl.metadata := Didl.metadata item;
     Didl.sid := Didl.sid item;
     Didl.serviceName := Didl.serviceName item;
     Didl.upnpClass := Didl.upnpClass item;
     Didl.processingType := "queue";
     Didl.radioId := Didl.radioId item |}.

Definition browseArgs (objectId : string) (requestedCount : Z) : gmap string value :=
  <["ObjectID" := Str objectId]>
  (<["BrowseFlag" := Str "BrowseDirectChildren"]>
  (<["Filter" := Str "*"]>
  (<["StartingIndex" := Num 0]>
  (<["RequestedCount" := Num requestedCount]>
  (<["SortCriteria" := Str ""]> ∅))))).

Definition getSonosPlaylistsV2 (playerUrlOrigin : string) : M (list Didl.t) :=
  do browsePlaylist <- executeActionV6 playerUrlOrigin
                         "/MediaServer/ContentDirectory/Control" "Browse"
                         (browseArgs "SQ:" 999);
  if negb (isValidPropertyNotEmptyString browsePlaylist ["NumberReturned"]) then
    throw (Error (NRCSP_ERRORPREFIX
                  +:+ " invalid response from Browse SQ: command - missing NumberReturned value"))
  else if negb (strict_eq_str (get browsePlaylist "NumberReturned") "0") then
    if negb (isValidPropertyNotEmptyString browsePlaylist ["Result"]) then
      throw (Error (NRCSP_ERRORPREFIX
                    +:+ " invalid response from Browse SQ: command - missing Result value"))
    else
      do playlistArray <- lift (didlXmlToArray (get browsePlaylist "Result") "container");
      (* an array is never the empty string: the validity check on it passes *)
      ret (map (queueItem playerUrlOrigin) playlistArray)
  else ret [].

Definition getMySonosV3 (playerUrlOrigin : string) : M (list Didl.t) :=
  do browseFv <- executeActionV6 playerUrlOrigin
                   "/MediaServer/ContentDirectory/Control" "Browse"
                   (browseArgs "FV:2" 200);
  if negb (isValidPropertyNotEmptyString browseFv ["NumberReturned"]) then
    throw (Error (NRCSP_ERRORPREFIX
                  +:+ " invalid response from Browse FV:2 command - missing NumberReturned value"))
  else if strict_eq_str (get browseFv "NumberReturned") "0" then
    throw (Error (NRCSP_ERRORPREFIX
                  +:+ " Could not find any My Sonos item (please add at least one)"))
  else
    do listMySonos <- lift (didlXmlToArray (get browseFv "Result") "item");
    (* an array is never the empty string: the validity check on it passes *)
    do mySonosPlusPl <- lift (rmap (mySonosItem playerUrlOrigin) listMySonos);
    do newListPlaylists <- getSonosPlaylistsV2 playerUrlOrigin;
    ret (mySonosPlusPl ++ newListPlaylists)%list.

End DidlParsing.

(** ** Snapshots and notifications *)

Record MemberData := {
  volume : value;      (* -1 means not captured *)
  mutestate : value    (* null means not captured, otherwise 'on' or 'off' *)
}.

Record GroupSnapshot := {
  memberData : list MemberData;
  wasPlaying : bool;
  CurrentURI : string;
  CurrentURIMetadata : string;
  NrTracks : Z;
  Track : Z;
  RelTime : option string;
  TrackDuration : option string
}.

Module Notification.
Record options := {
  uri : string;
  metadata : option string;
  volume : value;
  sameVolume : bool;
  automaticDuration : bool;
  duration : string
}.

(** The local [snapshot] object of [playGroupNotification]. *)
Record snapshot := {
  wasPlaying : bool;
  mediaInfo : MediaInfo;
  positionInfo : PositionInfo;
  memberVolumes : gmap nat value   (* an array filled by index *)
}.
End Notification.

(** [x && x > 1] on a number. *)
Definition above_one (n : Z) : bool := negb (n =? 0) && (1 <? n).

(** [snapshot.RelTime && snapshot.TrackDuration !== '0:00:00'] *)
Definition seekable (relTime trackDuration : option string) : bool :=
  truthy (optional_string relTime)
  && negb (strict_eq_str (optional_string trackDuration) "0:00:00").

Definition loose_null (v : value) : bool :=
  match v with Undefined | Null => true | _ => false end.

Section Snapshots.
Context `{Collaborators}.

(** The two best-effort steps, written twice in the source (in
    [restoreGroupSnapshot] and in [playGroupNotification]): select the
    track again, then seek to the relative time; each promise carries a
    [catch] that only logs. *)
Definition revertTrackAndTime (coordinator : Player.t) (track nrTracks : Z)
    (relTime trackDuration : option string) : M unit :=
  when (above_one track && (1 <? nrTracks))
       (catch_ignore
          (await (selectTrack coordinator track)
                 (fun d h => on_selectTrack d h coordinator track)));;
  when (seekable relTime trackDuration)
       (catch_ignore
          (await (Seek coordinator 0 "REL_TIME" (default "" relTime))
                 (fun d h => on_Seek d h coordinator 0 "REL_TIME" (default "" relTime)))).

(** The body of the loop that restores volume and mute state of one
    member, if captured. *)
Definition restoreMember (snapshot : GroupSnapshot) (index : nat) (member : Player.t)
  : M unit :=
  do data <- at_index (memberData snapshot) index;
  when (negb (strict_eq_num (volume data) (-1)))
       (await (setVolume member (volume data))
              (fun d h => on_setVolume d h member (volume data)));;
  when (negb (loose_null (mutestate data)))
       (let digit := strict_eq_str (mutestate data) "on" in
        await (setMuted member digit) (fun d h => on_setMuted d h member digit)).

Definition restoreGroupSnapshot (membersAsPlayersPlus : list Player.t)
    (snapshot : GroupSnapshot) : M bool :=
  (* restore content: URI and track *)
  let coordinatorIndex := 0%nat in
  do coordinator <- at_index membersAsPlayersPlus coordinatorIndex;
  await (setAVTransportURI coordinator (CurrentURI snapshot) (CurrentURIMetadata snapshot) true)
        (fun d h => on_setAVTransportURI d h coordinator (CurrentURI snapshot)
                      (CurrentURIMetadata snapshot) true);;
  revertTrackAndTime coordinator (Track snapshot) (NrTracks snapshot)
                     (RelTime snapshot) (TrackDuration snapshot);;
  (* restore volume/mute if captured *)
  for_from 0 membersAsPlayersPlus (restoreMember snapshot);;
  ret true.

Definition WAIT_ADJUSTMENT : Z := 2000.

(** The loops over all other members, starting at 1. *)
Fixpoint captureVolumes (index : nat) (others : list Player.t)
    (memberVolumes : gmap nat value) : M (gmap nat value) :=
  match others with
  | [] => ret memberVolumes
  | member :: rest =>
      do v <- await (getVolume member) (fun d h => on_getVolume d h member);
      captureVolumes (S index) rest (<[index := v]> memberVolumes)
  end.

Definition setVolumes (others : list Player.t) (volumeAt : nat -> value) : M unit :=
  for_from 1 others
    (fun index member =>
       await (setVolume member (volumeAt index))
             (fun d h => on_setVolume d h member (volumeAt index))).

Definition hasVolume (options : Notification.options) : bool :=
  negb (strict_eq_num (Notification.volume options) (-1)).

(** The gate of the restore phase, as the code computes it. *)
Definition restorable (options : Notification.options) : bool :=
  negb (includes (Notification.uri options) "x-sonos-vli").

Definition setAVTransportArgs (options : Notification.options) (metadata : string)
  : gmap string value :=
  let args :=
    <["InstanceID" := Num 0]>
    (<["CurrentURI" := Str (encodeXml (Notification.uri options))]>
    (<["CurrentURIMetaData" := Str ""]> ∅)) in
  if negb (String.eqb metadata "")
  then <["CurrentURIMetaData" := Str (encodeXml metadata)]> args
  else args.

(** Create snapshot state/volume/content. *)
Definition notificationSnapshot (membersAsPlayerPlus : list Player.t)
    (options : Notification.options) : M Notification.snapshot :=
  let coordinatorIndex := 0%nat in
  do coordinator <- at_index membersAsPlayerPlus coordinatorIndex;
  do state <- await (getCurrentState coordinator) (fun d h => on_getCurrentState d h coordinator);
  let wasPlaying := strict_eq_str state "playing" || strict_eq_str state "transitioning" in
  do mediaInfo <- await (GetMediaInfo coordinator) (fun d h => on_GetMediaInfo d h coordinator);
  do positionInfo <- await (GetPositionInfo coordinator)
                           (fun d h => on_GetPositionInfo d h coordinator);
  do memberVolumes0 <-
    (if hasVolume options then
       do v <- await (getVolume coordinator) (fun d h => on_getVolume d h coordinator);
       ret (<[0%nat := v]> (∅ : gmap nat value))
     else ret ∅);
  do memberVolumes <-
    (if Notification.sameVolume options
     then captureVolumes 1 (tail membersAsPlayerPlus) memberVolumes0
     else ret memberVolumes0);
  ret {| Notification.wasPlaying := wasPlaying;
         Notification.mediaInfo := mediaInfo;
         Notification.positionInfo := positionInfo;
         Notification.memberVolumes := memberVolumes |}.

(** Set the notification on the coordinator, play it and wait for its end. *)
Definition notificationPlay (membersAsPlayerPlus : list Player.t)
    (options : Notification.options) (metadata : string) : M unit :=
  let coordinatorIndex := 0%nat in
  do coordinator <- at_index membersAsPlayerPlus coordinatorIndex;
  executeActionV6 (Player.baseUrl coordinator) "/MediaRenderer/AVTransport/Control"
                  "SetAVTransportURI" (setAVTransportArgs options metadata);;
  when (hasVolume options)
       (await (setVolume coordinator (Notification.volume options))
              (fun d h => on_setVolume d h coordinator (Notification.volume options));;
        when (Notification.sameVolume options)
             (setVolumes (tail membersAsPlayerPlus) (fun _ => Notification.volume options)));;
  executeActionV6 (Player.baseUrl coordinator) "/MediaRenderer/AVTransport/Control"
                  "Play" (<["InstanceID" := Num 0]> (<["Speed" := Num 1]> ∅));;
  (* waiting either based on SONOS estimation, per default or user specified *)
  do waitInMilliseconds <-
    (if Notification.automaticDuration options then
       do positionInfo <- await (GetPositionInfo coordinator)
                                (fun d h => on_GetPositionInfo d h coordinator);
       match pi_TrackDuration positionInfo with
       | Some trackDuration => ret (hhmmss2msec trackDuration + WAIT_ADJUSTMENT)
       | None => ret (hhmmss2msec (Notification.duration options))
       end
     else ret (hhmmss2msec (Notification.duration options)));
  await (setTimeout waitInMilliseconds) (fun _ _ => inr tt).

(** Return to previous state = restore snapshot. *)
Definition notificationRestore (membersAsPlayerPlus : list Player.t)
    (options : Notification.options) (snapshot : Notification.snapshot) : M unit :=
  let coordinatorIndex := 0%nat in
  let volumeAt index := default Undefined (Notification.memberVolumes snapshot !! index) in
  let mediaInfo := Notification.mediaInfo snapshot in
  let positionInfo := Notification.positionInfo snapshot in
  do coordinator <- at_index membersAsPlayerPlus coordinatorIndex;
  when (hasVolume options)
       (await (setVolume coordinator (volumeAt coordinatorIndex))
              (fun d h => on_setVolume d h coordinator (volumeAt coordinatorIndex)));;
  when (Notification.sameVolume options)
       (setVolumes (tail membersAsPlayerPlus) volumeAt);;
  when (restorable options)
       (await (setAVTransportURI coordinator (mi_CurrentURI mediaInfo)
                                 (mi_CurrentURIMetaData mediaInfo) true)
              (fun d h => on_setAVTransportURI d h coordinator (mi_CurrentURI mediaInfo)
                            (mi_CurrentURIMetaData mediaInfo) true));;
  revertTrackAndTime coordinator (pi_Track positionInfo) (mi_NrTracks mediaInfo)
                     (pi_RelTime positionInfo) (pi_TrackDuration positionInfo);;
  when (Notification.wasPlaying snapshot)
       (when (restorable options)
             (await (play coordinator) (fun d h => on_play d h coordinator))).

Definition playGroupNotification (membersAsPlayerPlus : list Player.t)
    (options : Notification.options) : M unit :=
  (* generate metadata if not provided *)
  let metadata :=
    match Notification.metadata options with
    | Some given => given
    | None => GenerateMetadata (Notification.uri options)
    end in
  do snapshot <- notificationSnapshot membersAsPlayerPlus options;
  notificationPlay membersAsPlayerPlus options metadata;;
  notificationRestore membersAsPlayerPlus options snapshot.

End Snapshots.

(** The calls whose failure the code swallows. *)
Definition best_effort (c : call) : bool :=
  match c with
  | selectTrack _ _ | Seek _ _ _ _ => true
  | _ => false
  end.

(** The five steps of the restore phase of [playGroupNotification], in
    order: the coordinator's volume, the volume of the other members, the
    content URI, track and time, play. *)
Definition restoreSteps (coordinator : Player.t) (others : list Player.t)
    (options : Notification.options) (snapshot : Notification.snapshot) : list (M unit) :=
  let volumeAt index := default Undefined (Notification.memberVolumes snapshot !! index) in
  let mediaInfo := Notification.mediaInfo snapshot in
  let positionInfo := Notification.positionInfo snapshot in
  [ when (hasVolume options)
         (await (setVolume coordinator (volumeAt 0%nat))
                (fun d h => on_setVolume d h coordinator (volumeAt 0%nat)));
    when (Notification.sameVolume options) (setVolumes others volumeAt);
    when (restorable options)
         (await (setAVTransportURI coordinator (mi_CurrentURI mediaInfo)
                                   (mi_CurrentURIMetaData mediaInfo) true)
                (fun d h => on_setAVTransportURI d h coordinator (mi_CurrentURI mediaInfo)
                              (mi_CurrentURIMetaData mediaInfo) true));
    revertTrackAndTime coordinator (pi_Track positionInfo) (mi_NrTracks mediaInfo)
                       (pi_RelTime positionInfo) (pi_TrackDuration positionInfo);
    when (Notification.wasPlaying snapshot)
         (when (restorable options)
               (await (play coordinator) (fun d h => on_play d h coordinator))) ].

(** The calls and conditions of the restore phase, named for the statements
    about it. *)
Definition restoreUriCall (coordinator : Player.t) (snapshot : Notification.snapshot) : call :=
  setAVTransportURI coordinator (mi_CurrentURI (Notification.mediaInfo snapshot))
                    (mi_CurrentURIMetaData (Notification.mediaInfo snapshot)) true.

Definition restoreTrackCall (coordinator : Player.t) (snapshot : Notification.snapshot) : call :=
  selectTrack coordinator (pi_Track (Notification.positionInfo snapshot)).

Definition restoreSeekCall (coordinator : Player.t) (snapshot : Notification.snapshot) : call :=
  Seek coordinator 0 "REL_TIME" (default "" (pi_RelTime (Notification.positionInfo snapshot))).

Definition trackWanted (snapshot : Notification.snapshot) : bool :=
  above_one (pi_Track (Notification.positionInfo snapshot))
  && (1 <? mi_NrTracks (Notification.mediaInfo snapshot)).

Definition seekWanted (snapshot : Notification.snapshot) : bool :=
  seekable (pi_RelTime (Notification.positionInfo snapshot))
           (pi_TrackDuration (Notification.positionInfo snapshot)).

Definition quote_char : ascii := "034"%char.

(** ** A sample household

    Concrete collaborators and devices on which the definitions above are
    run: a small template table, a URL reader for locations of the form
    [http://host:port/path], and an XML reader that knows the handful of
    documents the sample devices send. *)

Module Sample.

Definition NRCSP_ERRORPREFIX : string := "nrcsp:".

(** [hh:mm:ss] to milliseconds. *)
Definition hhmmss2msec (hhmmss : string) : Z :=
  match map (digits_value 0) (split hhmmss ":") with
  | [Some h; Some m; Some s] => Z.of_nat ((h * 3600 + m * 60 + s) * 1000)
  | _ => 0
  end.

Definition play : ActionTemplate :=
  {| inArgs := ["InstanceID"; "Speed"]; outArgs := [] |}.

Definition getVolumeAction : ActionTemplate :=
  {| inArgs := ["InstanceID"; "Channel"]; outArgs := ["CurrentVolume"] |}.

Definition browse : ActionTemplate :=
  {| inArgs := ["ObjectID"; "BrowseFlag"; "Filter"; "StartingIndex";
                "RequestedCount"; "SortCriteria"];
     outArgs := ["Result"; "NumberReturned"; "TotalMatches"; "UpdateID"] |}.

Definition avTransport : gmap string ActionTemplate :=
  <["SetAVTransportURI" :=
      {| inArgs := ["InstanceID"; "CurrentURI"; "CurrentURIMetaData"]; outArgs := [] |}]>
  (<["Play" := play]> ∅).

Definition renderingControl : gmap string ActionTemplate :=
  <["GetVolume" := getVolumeAction]> ∅.

Definition contentDirectory : gmap string ActionTemplate :=
  <["Browse" := browse]> ∅.

Definition templates : gmap string (gmap string ActionTemplate) :=
  <["/MediaRenderer/AVTransport/Control" := avTransport]>
  (<["/MediaRenderer/RenderingControl/Control" := renderingControl]>
  (<["/MediaServer/ContentDirectory/Control" := contentDirectory]> ∅)).

Definition services : list MusicService.t :=
  [ {| MusicService.sid := "201"; MusicService.name := "Amazon Music" |};
    {| MusicService.sid := "254"; MusicService.name := "TuneIn" |} ].

(** The text before the first occurrence of [sep], and the text behind it. *)
Fixpoint break_at (sep : ascii) (s : string) : string * option string :=
  match s with
  | EmptyString => (EmptyString, None)
  | String c r =>
      if Ascii.eqb c sep then (EmptyString, Some r)
      else let '(a, b) := break_at sep r in (String c a, b)
  end.

Definition new_URL (text : string) : result URL.t :=
  if startsWith text "http://" then
    let '(authority, _) := break_at "/" (substring text 7 (Z.of_nat (String.length text))) in
    let '(hostname, port) := break_at ":" authority in
    if String.eqb hostname "" then inl (TypeError "Invalid URL")
    else inr {| URL.hostname := hostname; URL.port := default "" port |}
  else inl (TypeError "Invalid URL").

Definition ToString (v : value) : string :=
  match v with
  | Str s => s
  | Num n => pretty n
  | Boolean true => "true"
  | Boolean false => "false"
  | Undefined => "undefined"
  | Null => "null"
  | Arr _ => ""
  | Obj _ => "[object Object]"
  end.

Definition JSON_stringify (v : value) : string :=
  match v with
  | Str s => "'" +:+ s +:+ "'"
  | Arr _ => "[...]"
  | Obj _ => "{...}"
  | other => ToString other
  end.

Definition namespace (serviceName : string) : value :=
  Str ("urn:schemas-upnp-org:service:" +:+ serviceName +:+ ":1").

Definition envelope (responseName : string) (node : gmap string value) : value :=
  Obj {[ "s:Envelope" := Obj {[ "s:Body" := Obj {[ responseName := Obj node ]} ]} ]}.

(** The response node of a Browse that, next to the four expected
    outputs, carries one more element. *)
Definition browseNode : gmap string value :=
  <["xmlns:u" := namespace "ContentDirectory"]>
  (<["Result" := Str "<DIDL-Lite></DIDL-Lite>"]>
  (<["NumberReturned" := Str "0"]>
  (<["TotalMatches" := Str "0"]>
  (<["UpdateID" := Str "7"]>
  (<["Vendor" := Str "acme"]> ∅))))).

Definition volumeNode : gmap string value :=
  <["xmlns:u" := namespace "RenderingControl"]> (<["CurrentVolume" := Str "25"]> ∅).

(** A list with the single favourite [FV:2/13]. *)
Definition favourite (charkey : string) : value :=
  Obj (<["id" := Str "FV:2/13"]>
      (<["dc:title" := Str "Radio 1"]>
      (<["res" := Obj {[ charkey := Str "x-sonosapi-stream:s24903?sid=254&flags=8224&sn=0" ]}]>
      (<["upnp:class" := Str "object.itemobject.item.sonos-favorite"]>
      (<["upnp:albumArtURI" := Str "/getaa?s=1&u=x"]>
      (<["r:resMD" := Str "<DIDL-Lite><upnp:class>object.item.audioItem.audioBroadcast</upnp:class></DIDL-Lite>"]>
       ∅)))))).

Definition xml2js_parseStringPromise (xml : value) (charkey : string) : result value :=
  match xml with
  | Str "<SetAVTransportURIResponse/>" =>
      inr (envelope "u:SetAVTransportURIResponse" {[ "xmlns:u" := namespace "AVTransport" ]})
  | Str "<PlayResponse/>" =>
      inr (envelope "u:PlayResponse" {[ "xmlns:u" := namespace "AVTransport" ]})
  | Str "<BrowseResponse/>" => inr (envelope "u:BrowseResponse" browseNode)
  | Str "<GetVolumeResponse/>" => inr (envelope "u:GetVolumeResponse" volumeNode)
  | Str "<DIDL-Lite></DIDL-Lite>" => inr (Obj {[ "DIDL-Lite" := Str "" ]})
  | Str "<DIDL-Lite><item/></DIDL-Lite>" =>
      inr (Obj {[ "DIDL-Lite" := Obj {[ "item" := favourite charkey ]} ]})
  | _ => inl (Rejected "Non-whitespace before first tag")
  end.

End Sample.

Definition sample_collaborators : Collaborators :=
  {| NRCSP_ERRORPREFIX := Sample.NRCSP_ERRORPREFIX;
     hhmmss2msec := Sample.hhmmss2msec;
     ACTIONS_TEMPLATESV6 := Sample.templates;
     MUSIC_SERVICES := Sample.services;
     new_URL := Sample.new_URL;
     JSON_stringify := Sample.JSON_stringify;
     ToString := Sample.ToString;
     xml2js_parseStringPromise := Sample.xml2js_parseStringPromise;
     GenerateMetadata := fun _ => "" |}.

(** A My Sonos favourite as the parser delivers it: a radio station whose
    class sits in its metadata, and an entry that carries no class at all. *)
Definition sample_station : Didl.t :=
  {| Didl.id := Str "FV:2/13";
     Didl.title := Str "Radio 1";
     Didl.artist := Str "";
     Didl.uri := Str "x-sonosapi-stream:s24903?sid=254&flags=8224&sn=0";
     Didl.artUri := Str "/getaa?s=1&u=x";
     Didl.metadata := Str "<DIDL-Lite><upnp:class>object.item.audioItem.audioBroadcast</upnp:class></DIDL-Lite>";
     Didl.sid := "254";
     Didl.serviceName := "TuneIn";
     Didl.upnpClass := Str "object.itemobject.item.sonos-favorite";
     Didl.processingType := "";
     Didl.radioId := None |}.

Definition sample_classless : Didl.t :=
  {| Didl.id := Str "FV:2/14";
     Didl.title := Str "Pocket Casts";
     Didl.artist := Str "";
     Didl.uri := Str "";
     Didl.artUri := Str "";
     Didl.metadata := Str "";
     Didl.sid := "";
     Didl.serviceName := "";
     Didl.upnpClass := Str "";
     Didl.processingType := "";
     Didl.radioId := None |}.

(** The sample devices.  Every call succeeds unless [failing] names it; the
    transport answers an action with status 200 and the body the sample XML
    reader knows. *)
Definition fails (failing : call -> option error) (c : call) : result unit :=
  match failing c with Some e => inl e | None => inr tt end.

Definition sample_device (groups : allGroups) (state : value) (media : MediaInfo)
    (position : PositionInfo) (failing : call -> option error) : Device :=
  {| on_getAllGroups := fun _ _ => inr groups;
     on_getCurrentState := fun _ _ => inr state;
     on_GetMediaInfo := fun _ _ => inr media;
     on_GetPositionInfo := fun _ _ => inr position;
     on_getVolume := fun _ _ => inr (Num 25);
     on_setVolume := fun _ p v => fails failing (setVolume p v);
     on_setMuted := fun _ p b => fails failing (setMuted p b);
     on_setAVTransportURI := fun _ p u m o => fails failing (setAVTransportURI p u m o);
     on_selectTrack := fun _ p n => fails failing (selectTrack p n);
     on_Seek := fun _ p i u t => fails failing (Seek p i u t);
     on_play := fun _ p => fails failing (play p);
     on_sendToPlayerV1 := fun _ _ _ _ actionName _ =>
       inr (Obj (<["statusCode" := Num 200]>
                (<["body" := Str ("<" +:+ actionName +:+ "Response/>")]>
                (<["headers" := Obj ∅]> ∅)))) |}.

Definition never : call -> option error := fun _ => None.

Definition sample_kitchen : Player.t :=
  {| Player.host := "192.168.178.35"; Player.port := "1400";
     Player.baseUrl := "http://192.168.178.35:1400" |}.

Definition sample_bath : Player.t :=
  {| Player.host := "192.168.178.36"; Player.port := "1400";
     Player.baseUrl := "http://192.168.178.36:1400" |}.

(** A group of two: [RINCON_A] at .35 is the declared coordinator, [RINCON_B]
    at .36 the second member; [hidden] tells which of the two, if any,
    carries the attribute [Invisible='1']. *)
Definition sample_group (hiddenA hiddenB : option string) : ZoneGroup :=
  {| Coordinator := "RINCON_A";
     host := "192.168.178.35";
     port := "1400";
     ID := "RINCON_A:434";
     Name := "Kitchen + 1";
     ZoneGroupMember_ :=
       [ {| UUID := "RINCON_A"; ZoneName := "Kitchen";
            Location := "http://192.168.178.35:1400/xml/device_description.xml";
            Invisible := hiddenA |};
         {| UUID := "RINCON_B"; ZoneName := "Bath";
            Location := "http://192.168.178.36:1400/xml/device_description.xml";
            Invisible := hiddenB |} ] |}.

Definition sample_idle_media : MediaInfo :=
  {| mi_CurrentURI := "x-rincon-queue:RINCON_A#0"; mi_CurrentURIMetaData := ""; mi_NrTracks := 5 |}.

Definition sample_position : PositionInfo :=
  {| pi_Track := 3; pi_RelTime := Some "0:01:00"; pi_TrackDuration := Some "0:03:00" |}.

Definition sample_household (hiddenA hiddenB : option string) : Device :=
  sample_device (GroupsArray [sample_group hiddenA hiddenB]) (Str "stopped")
                sample_idle_media sample_position never.

Definition sample_volume_args : gmap string value :=
  <["InstanceID" := Num 0]> (<["Channel" := Str "Master"]> ∅).

Definition sample_response (actionName : string) : gmap string value :=
  <["statusCode" := Num 200]>
  (<["body" := Str ("<" +:+ actionName +:+ "Response/>")]>
  (<["headers" := Obj ∅]> ∅)).

(** A device on which track selection and seek are refused, as for a radio
    stream. *)
Definition refuses_track_and_time : call -> option error :=
  fun c => if best_effort c then Some (Rejected "upnpErrorCode 701") else None.

Definition sample_snapshot : GroupSnapshot :=
  {| memberData := [ {| volume := Num 20; mutestate := Str "on" |};
                     {| volume := Num (-1); mutestate := Null |} ];
     wasPlaying := true;
     CurrentURI := "x-rincon-queue:RINCON_A#0";
     CurrentURIMetadata := "";
     NrTracks := 5;
     Track := 3;
     RelTime := Some "0:01:00";
     TrackDuration := Some "0:03:00" |}.

Definition sample_radio_household : Device :=
  sample_device (GroupsArray [sample_group None None]) (Str "playing")
                sample_idle_media sample_position refuses_track_and_time.

Definition sample_notification : Notification.options :=
  {| Notification.uri := "http://192.168.178.20/ding.mp3";
     Notification.metadata := None;
     Notification.volume := Num 30;
     Notification.sameVolume := true;
     Notification.automaticDuration := false;
     Notification.duration := "00:00:05" |}.

Definition sample_notification_snapshot : Notification.snapshot :=
  {| Notification.wasPlaying := true;
     Notification.mediaInfo := sample_idle_media;
     Notification.positionInfo := sample_position;
     Notification.memberVolumes := <[0%nat := Num 25]> (<[1%nat := Num 25]> ∅) |}.

(** Content started from a voice or streaming session: the captured URI
    carries the marker. *)
Definition sample_session_media : MediaInfo :=
  {| mi_CurrentURI := "x-sonos-vli:RINCON_A:2,spotify:e934941535d7b182815bf688490ce8a8";
     mi_CurrentURIMetaData := "";
     mi_NrTracks := 5 |}.

Definition sample_session_household : Device :=
  sample_device (GroupsArray [sample_group None None]) (Str "playing")
                sample_session_media sample_position never.

Definition sample_quiet_notification : Notification.options :=
  {| Notification.uri := "http://192.168.178.20/ding.mp3";
     Notification.metadata := None;
     Notification.volume := Num (-1);
     Notification.sameVolume := false;
     Notification.automaticDuration := false;
     Notification.duration := "00:00:05" |}.


(** ** The remaining commands: [getQueueV2], [createGroupSnapshot],
    [playJoinerNotification] *)

Module SnapshotOptions.
Record t := {
  snapVolumes : bool;      (* capture all players volume *)
  snapMutestates : bool    (* capture all players mute state *)
}.
End SnapshotOptions.

(** The object [createGroupSnapshot] returns: address of every member and
    the playback state next to the fields [restoreGroupSnapshot] reads. *)
Record CreatedSnapshot := {
  memberAddress : list Player.t;   (* urlHostname, urlPort, baseUrl *)
  playbackstate : value;
  restorableData : GroupSnapshot
}.

Section MoreCommands.
Context `{Collaborators}.

Definition getQueueV2 (playerUrlOrigin : string) : M (list Didl.t) :=
  do browseQueue <- executeActionV6 playerUrlOrigin
                      "/MediaServer/ContentDirectory/Control" "Browse"
                      (browseArgs "Q:0" 200);
  if negb (isValidPropertyNotEmptyString browseQueue ["NumberReturned"]) then
    throw (Error (NRCSP_ERRORPREFIX
                  +:+ " invalid response from Browse Q:0 command - missing NumberReturned value"))
  else if negb (strict_eq_str (get browseQueue "NumberReturned") "0") then
    if negb (isValidPropertyNotEmptyString browseQueue ["Result"]) then
      throw (Error (NRCSP_ERRORPREFIX
                    +:+ " invalid response from Browse Q:0 command - missing Result value"))
    else
      do queueArray <- lift (didlXmlToArray (get browseQueue "Result") "item");
      (* an array is never the empty string: the validity check on it passes *)
      ret (map (queueItem playerUrlOrigin) queueArray)
  else ret [].

(** [getMuted] is the one player method without an event of its own; it is
    taken as an arbitrary asynchronous computation per member. *)
Variable getMuted : Player.t -> M value.

(** The member loop of [createGroupSnapshot]: volume and mute state of
    every member, -1 and null where not captured. *)
Fixpoint captureMembers (options : SnapshotOptions.t) (membersAsPlayersPlus : list Player.t)
  : M (list MemberData) :=
  match membersAsPlayersPlus with
  | [] => ret []
  | member :: rest =>
      do playersVolume <-
        (if SnapshotOptions.snapVolumes options
         then await (getVolume member) (fun d h => on_getVolume d h member)
         else ret (Num (-1)));
      do playersMutestate <-
        (if SnapshotOptions.snapMutestates options
         then do muted <- getMuted member;
              ret (Str (if truthy muted then "on" else "off"))
         else ret Null);
      do tail <- captureMembers options rest;
      ret ({| volume := playersVolume; mutestate := playersMutestate |} :: tail)
  end.

Definition createGroupSnapshot (membersAsPlayersPlus : list Player.t)
    (options : SnapshotOptions.t) : M CreatedSnapshot :=
  do memberData <- captureMembers options membersAsPlayersPlus;
  let coordinatorIndex := 0%nat in
  do coordinator <- at_index membersAsPlayersPlus coordinatorIndex;
  do playbackstate <- await (getCurrentState coordinator)
                            (fun d h => on_getCurrentState d h coordinator);
  let wasPlaying :=
    strict_eq_str playbackstate "playing" || strict_eq_str playbackstate "transitioning" in
  do mediaData <- await (GetMediaInfo coordinator) (fun d h => on_GetMediaInfo d h coordinator);
  do positionData <- await (GetPositionInfo coordinator)
                           (fun d h => on_GetPositionInfo d h coordinator);
  ret {| memberAddress := membersAsPlayersPlus;
         playbackstate := playbackstate;
         restorableData :=
           {| memberData := memberData;
              wasPlaying := wasPlaying;
              CurrentURI := mi_CurrentURI mediaData;
              CurrentURIMetadata := mi_CurrentURIMetaData mediaData;
              NrTracks := mi_NrTracks mediaData;
              Track := pi_Track positionData;
              RelTime := pi_RelTime positionData;
              TrackDuration := pi_TrackDuration positionData |} |}.


End MoreCommands.

(** A household whose transport refuses every connection. *)
Definition sample_offline : Device :=
  {| on_getAllGroups := on_getAllGroups (sample_household None None);
     on_getCurrentState := on_getCurrentState (sample_household None None);
     on_GetMediaInfo := on_GetMediaInfo (sample_household None None);
     on_GetPositionInfo := on_GetPositionInfo (sample_household None None);
     on_getVolume := on_getVolume (sample_household None None);
     on_setVolume := on_setVolume (sample_household None None);
     on_setMuted := on_setMuted (sample_household None None);
     on_setAVTransportURI := on_setAVTransportURI (sample_household None None);
     on_selectTrack := on_selectTrack (sample_household None None);
     on_Seek := on_Seek (sample_household None None);
     on_play := on_play (sample_household None None);
     on_sendToPlayerV1 := fun _ _ _ _ _ _ => inl (Rejected "connect ECONNREFUSED") |}.

Definition sample_play_args : gmap string value :=
  <["InstanceID" := Num 0]> (<["Speed" := Num 1]> ∅).

(** A household with a library: the transport answers a Browse by a
    document named after the object browsed; My Sonos holds one favourite,
    there is one SONOS playlist and one track in the queue. *)
Module Library.

Definition listNode (didl : string) : gmap string value :=
  <["xmlns:u" := Sample.namespace "ContentDirectory"]>
  (<["Result" := Str didl]>
  (<["NumberReturned" := Str "1"]>
  (<["TotalMatches" := Str "1"]>
  (<["UpdateID" := Str "7"]> ∅)))).

Definition playlist (charkey : string) : value :=
  Obj (<["id" := Str "SQ:3"]>
      (<["dc:title" := Str "Morning"]>
      (<["res" := Obj {[ charkey := Str "file:///jffs/settings/savedqueues.rsq#3" ]}]>
      (<["upnp:class" := Str "object.container.playlistContainer"]>
      (<["upnp:albumArtURI" := Arr [Str "/getaa?u=x-file-cifs%3a%2f%2fnas%2fa.mp3&v=5";
                                    Str "/getaa?u=x-file-cifs%3a%2f%2fnas%2fb.mp3&v=5"]]>
       ∅))))).

Definition track (charkey : string) : value :=
  Obj (<["id" := Str "Q:0/1"]>
      (<["dc:title" := Str "Song"]>
      (<["dc:creator" := Str "Band"]>
      (<["res" := Obj {[ charkey := Str "x-file-cifs://nas/a.mp3" ]}]>
      (<["upnp:class" := Str "object.item.audioItem.musicTrack"]>
      (<["upnp:albumArtURI" := Str "https://covers.example.org/a.jpg"]> ∅)))))).

Definition xml2js_parseStringPromise (xml : value) (charkey : string) : result value :=
  if strict_eq_str xml "<BrowseResponse FV:2/>" then
    inr (Sample.envelope "u:BrowseResponse" (listNode "<DIDL-Lite><item/></DIDL-Lite>"))
  else if strict_eq_str xml "<BrowseResponse SQ:/>" then
    inr (Sample.envelope "u:BrowseResponse" (listNode "<DIDL-Lite><container/></DIDL-Lite>"))
  else if strict_eq_str xml "<BrowseResponse Q:0/>" then
    inr (Sample.envelope "u:BrowseResponse" (listNode "<DIDL-Lite><item id='Q:0/1'/></DIDL-Lite>"))
  else if strict_eq_str xml "<DIDL-Lite><container/></DIDL-Lite>" then
    inr (Obj {[ "DIDL-Lite" := Obj {[ "container" := playlist charkey ]} ]})
  else if strict_eq_str xml "<DIDL-Lite><item id='Q:0/1'/></DIDL-Lite>" then
    inr (Obj {[ "DIDL-Lite" := Obj {[ "item" := track charkey ]} ]})
  else Sample.xml2js_parseStringPromise xml charkey.

End Library.

Definition library_collaborators : Collaborators :=
  {| NRCSP_ERRORPREFIX := Sample.NRCSP_ERRORPREFIX;
     hhmmss2msec := Sample.hhmmss2msec;
     ACTIONS_TEMPLATESV6 := Sample.templates;
     MUSIC_SERVICES := Sample.services;
     new_URL := Sample.new_URL;
     JSON_stringify := Sample.JSON_stringify;
     ToString := Sample.ToString;
     xml2js_parseStringPromise := Library.xml2js_parseStringPromise;
     GenerateMetadata := fun _ => "" |}.

Definition sample_library : Device :=
  {| on_getAllGroups := on_getAllGroups (sample_household None None);
     on_getCurrentState := on_getCurrentState (sample_household None None);
     on_GetMediaInfo := on_GetMediaInfo (sample_household None None);
     on_GetPositionInfo := on_GetPositionInfo (sample_household None None);
     on_getVolume := on_getVolume (sample_household None None);
     on_setVolume := on_setVolume (sample_household None None);
     on_setMuted := on_setMuted (sample_household None None);
     on_setAVTransportURI := on_setAVTransportURI (sample_household None None);
     on_selectTrack := on_selectTrack (sample_household None None);
     on_Seek := on_Seek (sample_household None None);
     on_play := on_play (sample_household None None);
     on_sendToPlayerV1 := fun _ _ _ _ actionName args =>
       inr (Obj (<["statusCode" := Num 200]>
                (<["body" := Str ("<" +:+ actionName +:+ "Response "
                                  +:+ Sample.ToString (default Undefined (args !! "ObjectID"))
                                  +:+ "/>")]>
                (<["headers" := Obj ∅]> ∅)))) |}.

(** The three items of the library as the list commands deliver them. *)
Definition library_favourite : Didl.t :=
  {| Didl.id := Str "FV:2/13";
     Didl.title := Str "Radio 1";
     Didl.artist := Str "";
     Didl.uri := Str "x-sonosapi-stream:s24903?sid=254&flags=8224&sn=0";
     Didl.artUri := Str "http://192.168.178.35:1400/getaa?s=1&u=x";
     Didl.metadata := Str "<DIDL-Lite><upnp:class>object.item.audioItem.audioBroadcast</upnp:class></DIDL-Lite>";
     Didl.sid := "254";
     Didl.serviceName := "TuneIn";
     Didl.upnpClass := Str "object.item.audioItem.audioBroadcast";
     Didl.processingType := "stream";
     Didl.radioId := Some "s24903" |}.

Definition library_playlist : Didl.t :=
  {| Didl.id := Str "SQ:3";
     Didl.title := Str "Morning";
     Didl.artist := Str "";
     Didl.uri := Str "file:///jffs/settings/savedqueues.rsq#3";
     Didl.artUri := Str "http://192.168.178.35:1400/getaa?u=x-file-cifs%3a%2f%2fnas%2fa.mp3&v=5";
     Didl.metadata := Str "";
     Didl.sid := "";
     Didl.serviceName := "";
     Didl.upnpClass := Str "object.container.playlistContainer";
     Didl.processingType := "queue";
     Didl.radioId := None |}.

Definition library_track : Didl.t :=
  {| Didl.id := Str "Q:0/1";
     Didl.title := Str "Song";
     Didl.artist := Str "Band";
     Didl.uri := Str "x-file-cifs://nas/a.mp3";
     Didl.artUri := Str "https://covers.example.org/a.jpg";
     Didl.metadata := Str "";
     Didl.sid := "";
     Didl.serviceName := "";
     Didl.upnpClass := Str "object.item.audioItem.musicTrack";
     Didl.processingType := "queue";
     Didl.radioId := None |}.

Definition sample_empty_browse : value := Obj (delete "xmlns:u" Sample.browseNode).

(** The sample group as the topology commands deliver it. *)
Definition sample_members : list Member.t :=
  [ {| Member.urlHostname := "192.168.178.35"; Member.urlPort := "1400";
       Member.baseUrl := "http://192.168.178.35:1400";
       Member.sonosName := Some "Kitchen"; Member.uuid := Some "RINCON_A";
       Member.invisible := Some false |};
    {| Member.urlHostname := "192.168.178.36"; Member.urlPort := "1400";
       Member.baseUrl := "http://192.168.178.36:1400";
       Member.sonosName := Some "Bath"; Member.uuid := Some "RINCON_B";
       Member.invisible := Some false |} ].


Definition sample_players : list ListedPlayer.t :=
  [ {| ListedPlayer.sonosName := "Kitchen"; ListedPlayer.urlHostname := "192.168.178.35";
       ListedPlayer.urlPort := "1400"; ListedPlayer.baseUrl := "http://192.168.178.35:1400";
       ListedPlayer.uuid := "RINCON_A"; ListedPlayer.isCoordinator := true;
       ListedPlayer.groupIndex := 0 |};
    {| ListedPlayer.sonosName := "Bath"; ListedPlayer.urlHostname := "192.168.178.36";
       ListedPlayer.urlPort := "1400"; ListedPlayer.baseUrl := "http://192.168.178.36:1400";
       ListedPlayer.uuid := "RINCON_B"; ListedPlayer.isCoordinator := false;
       ListedPlayer.groupIndex := 0 |} ].

(** A household whose players refuse every volume change. *)
Definition refuses_volume : call -> option error :=
  fun c => match c with
           | setVolume _ _ => Some (Rejected "upnpErrorCode 402")
           | _ => None
           end.

Definition sample_locked_household : Device :=
  sample_device (GroupsArray [sample_group None None]) (Str "playing")
                sample_idle_media sample_position refuses_volume.

(** A player reports itself as muted exactly when it is the bath. *)
Definition sample_getMuted (member : Player.t) : M value :=
  ret (Boolean (String.eqb (Player.host member) "192.168.178.36")).

Definition sample_snap_all : SnapshotOptions.t :=
  {| SnapshotOptions.snapVolumes := true; SnapshotOptions.snapMutestates := true |}.

Definition sample_snap_content : SnapshotOptions.t :=
  {| SnapshotOptions.snapVolumes := false; SnapshotOptions.snapMutestates := false |}.

Definition sample_created (options : SnapshotOptions.t) : CreatedSnapshot :=
  {| memberAddress := [sample_kitchen; sample_bath];
     playbackstate := Str "playing";
     restorableData :=
       {| memberData :=
            if SnapshotOptions.snapVolumes options
            then [ {| volume := Num 25; mutestate := Str "off" |};
                   {| volume := Num 25; mutestate := Str "on" |} ]
            else [ {| volume := Num (-1); mutestate := Null |};
                   {| volume := Num (-1); mutestate := Null |} ];
          wasPlaying := true;
          CurrentURI := "x-rincon-queue:RINCON_A#0";
          CurrentURIMetadata := "";
          NrTracks := 5;
          Track := 3;
          RelTime := Some "0:01:00";
          TrackDuration := Some "0:03:00" |} |}.

(** The session household with the group stopped. *)
Definition sample_session_stopped : Device :=
  sample_device (GroupsArray [sample_group None None]) (Str "stopped")
                sample_session_media sample_position never.

(** A snapshot that holds captured data for one member only. *)
Definition sample_short_snapshot : GroupSnapshot :=
  {| memberData := [ {| volume := Num 20; mutestate := Str "on" |} ];
     wasPlaying := true;
     CurrentURI := "x-rincon-queue:RINCON_A#0";
     CurrentURIMetadata := "";
     NrTracks := 5;
     Track := 3;
     RelTime := Some "0:01:00";
     TrackDuration := Some "0:03:00" |}.


(** * Properties *)

(** ** [encodeXml] *)

Lemma encodeChar_cases (c : ascii) :
  (c = "<"%char /\ encodeChar c = "&lt;") \/
  (c = ">"%char /\ encodeChar c = "&gt;") \/
  (c = "&"%char /\ encodeChar c = "&amp;") \/
  (c = "'"%char /\ encodeChar c = "&apos;") \/
  (c = quote_char /\ encodeChar c = "&quot;") \/
  (c <> "<"%char /\ c <> ">"%char /\ c <> "&"%char /\ c <> "'"%char /\ c <> quote_char
   /\ encodeChar c = String c EmptyString).
Proof.
  destruct c as [[] [] [] [] [] [] [] []]; cbn;
    first [ left; split; reflexivity
          | right; left; split; reflexivity
          | right; right; left; split; reflexivity
          | right; right; right; left; split; reflexivity
          | right; right; right; right; left; split; reflexivity
          | right; right; right; right; right; repeat split; discriminate ].
Qed.

Lemma append_cons (x : ascii) (a b : string) : String x a +:+ b = String x (a +:+ b).
Proof. reflexivity. Qed.

Lemma append_assoc (a b c : string) : (a +:+ b) +:+ c = a +:+ (b +:+ c).
Proof.
  induction a as [|x a IH]; [reflexivity|].
  rewrite !append_cons. f_equal. exact IH.
Qed.

Lemma encodeXml_app (a b : string) : encodeXml (a +:+ b) = encodeXml a +:+ encodeXml b.
Proof.
  induction a as [|x a IH]; [reflexivity|].
  rewrite append_cons. cbn [encodeXml].
  now rewrite IH, append_assoc.
Qed.

Lemma list_ascii_app (a b : string) :
  list_ascii_of_string (a +:+ b) = (list_ascii_of_string a ++ list_ascii_of_string b)%list.
Proof.
  induction a as [|x a IH]; [reflexivity|].
  rewrite append_cons. cbn [list_ascii_of_string]. now rewrite IH.
Qed.

Lemma encodeXml_clean (s : string) (c : ascii) :
  In c (list_ascii_of_string (encodeXml s)) ->
  c <> "<"%char /\ c <> ">"%char /\ c <> "'"%char /\ c <> quote_char.
Proof.
  induction s as [|x s IH]; cbn; [tauto|].
  rewrite list_ascii_app, in_app_iff. intros [Hin | Hin]; [|auto].
  destruct (encodeChar_cases x) as
    [[_ E]|[[_ E]|[[_ E]|[[_ E]|[[_ E]|(n1 & n2 & n3 & n4 & n5 & E)]]]]];
    rewrite E in Hin; cbn in Hin;
    repeat (destruct Hin as [<- | Hin]; [repeat split; first [discriminate | congruence]|]);
    contradiction.
Qed.

Lemma encodeXml_plain (s : string) :
  (forall c, In c (list_ascii_of_string s) ->
             c <> "<"%char /\ c <> ">"%char /\ c <> "&"%char /\ c <> "'"%char
             /\ c <> quote_char) ->
  encodeXml s = s.
Proof.
  induction s as [|x s IH]; cbn; [reflexivity|]. intros Hs.
  rewrite IH by (intros c Hc; apply Hs; now right).
  destruct (Hs x (or_introl eq_refl)) as (n1 & n2 & n3 & n4 & n5).
  destruct (encodeChar_cases x) as
    [[E _]|[[E _]|[[E _]|[[E _]|[[E _]|(_ & _ & _ & _ & _ & E)]]]]]; try contradiction.
  now rewrite E.
Qed.

(** C10: [encodeXml] replaces every occurrence of one of the five special
    characters by its entity and copies every other character; its output
    holds no less-than, greater-than, apostrophe or double quote; an input
    without any of the five characters comes back unchanged. *)
Theorem encodeXml_entities (xmlData : string) :
  (forall before c after,
      xmlData = before +:+ String c after ->
      encodeXml xmlData
      = encodeXml before
        +:+ (if Ascii.eqb c "<" then "&lt;"
             else if Ascii.eqb c ">" then "&gt;"
             else if Ascii.eqb c "&" then "&amp;"
             else if Ascii.eqb c "'" then "&apos;"
             else if Ascii.eqb c quote_char then "&quot;"
             else String c EmptyString)
        +:+ encodeXml after) /\
  (forall c, In c (list_ascii_of_string (encodeXml xmlData)) ->
             c <> "<"%char /\ c <> ">"%char /\ c <> "'"%char /\ c <> quote_char) /\
  ((forall c, In c (list_ascii_of_string xmlData) ->
              c <> "<"%char /\ c <> ">"%char /\ c <> "&"%char /\ c <> "'"%char
              /\ c <> quote_char) ->
   encodeXml xmlData = xmlData).
Proof.
  split; [|split].
  - intros before c after ->. rewrite encodeXml_app. cbn [encodeXml].
    f_equal. f_equal.
    destruct (encodeChar_cases c) as
      [[-> E]|[[-> E]|[[-> E]|[[-> E]|[[-> E]|(n1 & n2 & n3 & n4 & n5 & E)]]]]];
      try (rewrite E; reflexivity).
    rewrite E.
    repeat match goal with
           | |- context [Ascii.eqb c ?k] =>
               destruct (Ascii.eqb_spec c k); [congruence|]
           end.
    reflexivity.
  - apply encodeXml_clean.
  - apply encodeXml_plain.
Qed.

Lemma encodeXml_entities_witness :
  encodeXml "a<b" = "a&lt;b" /\ encodeXml "Radio 1" = "Radio 1".
Proof.
  split.
  - exact (proj1 (encodeXml_entities "a<b") "a" "<"%char "b" eq_refl).
  - apply (proj2 (proj2 (encodeXml_entities "Radio 1"))).
    cbn. intros c Hc.
    repeat (destruct Hc as [<- | Hc]; [repeat split; discriminate|]).
    contradiction.
Defined.

(** ** [getMusicServiceId] *)

(** C4: on the example URI the service id is [201]; on a URI that has the
    marker [&flags=] but not the marker [?sid=] the function does not return
    the empty string: the start position is -1 + 5 = 4, which passes the
    test [positionStart > 1], and the text from position 4 up to [&flags=]
    comes back. *)
Theorem getMusicServiceId_without_sid_marker :
  getMusicServiceId
    "x-rincon-cpcontainer:1004206ccatalog%2falbums%2fB07NW3FSWR%2f%23album_desc?sid=201&flags=8300&sn=14"
  = "201"
  /\ indexOf "x-rincon-cpcontainer:100abc?sn=14&flags=8300" "?sid=" = -1
  /\ getMusicServiceId "x-rincon-cpcontainer:100abc?sn=14&flags=8300"
     = "ncon-cpcontainer:100abc?sn=14".
Proof. repeat split; vm_compute; reflexivity. Qed.

(** ** The DIDL parser and the handling mode *)

Lemma rmap_inr_In {A B} (f : A -> result B) (l : list A) (l' : list B) (y : B) :
  rmap f l = inr l' -> In y l' -> exists x, In x l /\ f x = inr y.
Proof.
  revert l'. induction l as [|x l IH]; cbn; intros l' E Hy.
  - injection E as <-. contradiction.
  - destruct (f x) as [e|b] eqn:Efx; cbn in E; [discriminate|].
    destruct (rmap f l) as [e|bs]; cbn in E; [discriminate|].
    injection E as <-. destruct Hy as [<- | Hy].
    + exists x. auto.
    + destruct (IH bs eq_refl Hy) as (x' & Hin & Hx'). exists x'. auto.
Qed.

Section DidlProperties.
Context `{Collaborators}.

Lemma didlBrowseItem_processingType (tag : string) (raw : value) (item : Didl.t) :
  didlBrowseItem tag raw = inr item -> Didl.processingType item = "".
Proof.
  unfold didlBrowseItem.
  repeat match goal with
         | |- context [if ?b then _ else _] => destruct b; cbn
         | |- context [as_string ?v] => destruct (as_string v); cbn
         end; try discriminate; intros E; injection E as <-; reflexivity.
Qed.

(** C5: with an absent or empty input [didlXmlToArray] raises the error
    "DIDL-Light input is missing"; the empty sequence is the result for a
    non-empty input whose parsed document has no element of the requested
    item name. *)
Theorem didlXmlToArray_missing_input (didlXml : value) (itemName : string) :
  (didlXml = Undefined \/ didlXml = Null \/ didlXml = Str "" ->
   didlXmlToArray didlXml itemName
   = inl (Error (NRCSP_ERRORPREFIX +:+ " DIDL-Light input is missing"))) /\
  (forall didlJson,
      isTruthyAndNotEmptyString didlXml = true ->
      itemName <> "" ->
      xml2js_parseStringPromise didlXml "uriIdentifier" = inr didlJson ->
      isTruthyAndNotEmptyString didlJson = true ->
      isValidProperty didlJson ["DIDL-Lite"; itemName] = false ->
      didlXmlToArray didlXml itemName = inr []).
Proof.
  split.
  - intros [-> | [-> | ->]]; reflexivity.
  - intros didlJson Hxml Hname Hparse Hjson Hpath.
    unfold didlXmlToArray. rewrite Hxml. cbn [negb].
    assert (isTruthyAndNotEmptyString (Str itemName) = true) as ->.
    { unfold isTruthyAndNotEmptyString. cbn.
      destruct (String.eqb_spec itemName ""); [contradiction | reflexivity]. }
    cbn [negb]. rewrite Hparse. cbn [rbind]. rewrite Hjson. cbn [negb].
    rewrite Hpath. reflexivity.
Qed.

(** C9: in the My Sonos list the handling mode is "stream" for a class of
    the stream set, "queue" for a class of the queueable set and
    "unsupported" in every other case, an item without class included; the
    parser itself leaves the handling mode of every item empty. *)
Theorem processingType_by_class :
  (forall playerUrlOrigin item item',
      mySonosItem playerUrlOrigin item = inr item' ->
      (forall c, Didl.upnpClass item' = Str c -> In c UPNP_CLASSES_STREAM ->
                 Didl.processingType item' = "stream") /\
      (forall c, Didl.upnpClass item' = Str c -> In c UPNP_CLASSES_QUEUE ->
                 Didl.processingType item' = "queue") /\
      ((forall c, Didl.upnpClass item' = Str c ->
                  ~ In c UPNP_CLASSES_STREAM /\ ~ In c UPNP_CLASSES_QUEUE) ->
       Didl.processingType item' = "unsupported")) /\
  (forall didlXml itemName items item,
      didlXmlToArray didlXml itemName = inr items -> In item items ->
      Didl.processingType item = "").
Proof.
  split.
  - intros origin item item' E. unfold mySonosItem in E.
    destruct (if isTruthy (Didl.uri item) then _ else _) as [e|radio];
      cbn [rbind] in E; [discriminate|].
    destruct (if isTruthy (Didl.metadata item) then _ else _) as [e|cls];
      cbn [rbind] in E; [discriminate|].
    injection E as <-. cbn [Didl.upnpClass Didl.processingType].
    repeat split.
    + intros c -> Hc. cbn in Hc.
      destruct Hc as [<- | []]. reflexivity.
    + intros c -> Hc. cbn in Hc.
      repeat (destruct Hc as [<- | Hc]; [reflexivity|]). contradiction.
    + intros Hnone.
      assert (includes_value UPNP_CLASSES_STREAM cls = false) as Hs.
      { destruct (includes_value UPNP_CLASSES_STREAM cls) eqn:Es; [|reflexivity].
        apply existsb_exists in Es as (x & Hx & Ex).
        destruct cls; try discriminate. cbn in Ex.
        apply String.eqb_eq in Ex as ->.
        destruct (Hnone x eq_refl) as [Hs _]. contradiction. }
      assert (includes_value UPNP_CLASSES_QUEUE cls = false) as Hq.
      { destruct (includes_value UPNP_CLASSES_QUEUE cls) eqn:Eq; [|reflexivity].
        apply existsb_exists in Eq as (x & Hx & Ex).
        destruct cls; try discriminate. cbn in Ex.
        apply String.eqb_eq in Ex as ->.
        destruct (Hnone x eq_refl) as [_ Hq]. contradiction. }
      cbn in Hs, Hq |- *. rewrite Hs, Hq. reflexivity.
  - intros didlXml itemName items item E Hin. unfold didlXmlToArray in E.
    destruct (negb (isTruthyAndNotEmptyString didlXml)); [discriminate|].
    destruct (negb (isTruthyAndNotEmptyString (Str itemName))); [discriminate|].
    destruct (xml2js_parseStringPromise didlXml "uriIdentifier") as [e|didlJson];
      cbn [rbind] in E; [discriminate|].
    destruct (negb (isTruthyAndNotEmptyString didlJson)); [discriminate|].
    destruct (rmap_inr_In _ _ _ _ E Hin) as (raw & _ & Hraw).
    eapply didlBrowseItem_processingType; eassumption.
Qed.

End DidlProperties.

Lemma didlXmlToArray_missing_input_witness :
  @didlXmlToArray sample_collaborators (Str "") "item"
  = inl (Error "nrcsp: DIDL-Light input is missing")
  /\ @didlXmlToArray sample_collaborators (Str "<DIDL-Lite></DIDL-Lite>") "item" = inr [].
Proof.
  split.
  - apply (proj1 (@didlXmlToArray_missing_input sample_collaborators (Str "") "item")).
    right; right; reflexivity.
  - apply (proj2 (@didlXmlToArray_missing_input sample_collaborators
                    (Str "<DIDL-Lite></DIDL-Lite>") "item")
             (Obj {[ "DIDL-Lite" := Str "" ]}));
      [reflexivity | discriminate | reflexivity | reflexivity | vm_compute; reflexivity].
Defined.

(** C5, as stated, fails: the empty and the absent input raise. *)
Lemma didlXmlToArray_empty_input_raises :
  @didlXmlToArray sample_collaborators (Str "") "item"
  = inl (Error "nrcsp: DIDL-Light input is missing")
  /\ @didlXmlToArray sample_collaborators Undefined "item"
     = inl (Error "nrcsp: DIDL-Light input is missing").
Proof. split; vm_compute; reflexivity. Qed.

Lemma processingType_by_class_witness :
  (exists item',
      mySonosItem "http://192.168.178.37:1400" sample_station = inr item'
      /\ Didl.processingType item' = "stream")
  /\ @didlXmlToArray sample_collaborators (Str "<DIDL-Lite><item/></DIDL-Lite>") "item"
     = inr [sample_station]
  /\ Didl.processingType sample_station = "".
Proof.
  split; [|split].
  - eexists. split; [vm_compute; reflexivity|].
    apply (proj1 (proj1 (@processingType_by_class sample_collaborators)
                    "http://192.168.178.37:1400" sample_station _ eq_refl)
             "object.item.audioItem.audioBroadcast"); [reflexivity | left; reflexivity].
  - vm_compute. reflexivity.
  - apply (proj2 (@processingType_by_class sample_collaborators)
             (Str "<DIDL-Lite><item/></DIDL-Lite>") "item" [sample_station] sample_station);
      [vm_compute; reflexivity | left; reflexivity].
Defined.

(** C9, as stated, fails: an item without class is "unsupported", not
    empty. *)
Lemma processingType_without_class :
  exists item',
    mySonosItem "http://192.168.178.37:1400" sample_classless = inr item'
    /\ Didl.upnpClass item' = Str ""
    /\ Didl.processingType item' = "unsupported".
Proof. eexists. repeat split. Qed.

(** ** Topology *)

(** C3: a member flagged [Invisible='1'] is listed by [getAllPlayerList]: the
    flag is copied into [visible] as it is, so the hidden member [RINCON_B]
    of the sample group comes back next to the coordinator. *)
Theorem getAllPlayerList_lists_hidden_member :
  (@getAllPlayerList sample_collaborators sample_kitchen
     (sample_household None (Some "1")) []).2
  = inr [ {| ListedPlayer.sonosName := "Kitchen";
             ListedPlayer.urlHostname := "192.168.178.35";
             ListedPlayer.urlPort := "1400";
             ListedPlayer.baseUrl := "http://192.168.178.35:1400";
             ListedPlayer.uuid := "RINCON_A";
             ListedPlayer.isCoordinator := true;
             ListedPlayer.groupIndex := 0 |};
          {| ListedPlayer.sonosName := "Bath";
             ListedPlayer.urlHostname := "192.168.178.36";
             ListedPlayer.urlPort := "1400";
             ListedPlayer.baseUrl := "http://192.168.178.36:1400";
             ListedPlayer.uuid := "RINCON_B";
             ListedPlayer.isCoordinator := false;
             ListedPlayer.groupIndex := 0 |} ].
Proof. vm_compute. reflexivity. Qed.

Section TopologyProperties.
Context `{Collaborators}.

(** The visibility the loop of [sortedGroupArray] computes for a member. *)
Lemma invisible_flag (flag : option string) :
  flag <> Some "1" ->
  (if truthy (optional_string flag) then strict_eq_str (optional_string flag) "1" else false)
  = false.
Proof.
  intros Hflag. destruct flag as [s|]; cbn; [|reflexivity].
  destruct (String.eqb_spec s "1") as [->|]; [contradiction|].
  now destruct (negb (String.eqb s "")).
Qed.

(** The head of the array is the coordinator entry; it carries the uuid
    and the visibility of the last member found at the coordinator's
    hostname, if there is one. *)
Lemma sortedGroupLoop_head (coordinatorUrlHostname : string)
    (zoneMembers : list ZoneGroupMember) (first : Member.t) (others l : list Member.t) :
  sortedGroupLoop coordinatorUrlHostname zoneMembers first others = inr l ->
  exists first' rest,
    l = first' :: rest /\
    ((first' = first /\
      forall m url, In m zoneMembers -> new_URL (Location m) = inr url ->
                    URL.hostname url <> coordinatorUrlHostname) \/
     exists m url,
       In m zoneMembers /\ new_URL (Location m) = inr url /\
       URL.hostname url = coordinatorUrlHostname /\
       Member.uuid first' = Some (UUID m) /\
       Member.invisible first'
       = Some (if truthy (optional_string (Invisible m))
               then strict_eq_str (optional_string (Invisible m)) "1" else false)).
Proof.
  revert first others. induction zoneMembers as [|m zm IH]; intros first others E.
  - cbn in E. injection E as <-. exists first, others. split; [reflexivity|].
    left. split; [reflexivity|]. intros m url [].
  - cbn [sortedGroupLoop] in E.
    destruct (new_URL (Location m)) as [e|url] eqn:Eurl; cbn [rbind] in E; [discriminate|].
    destruct (String.eqb_spec (URL.hostname url) coordinatorUrlHostname) as [Hhost|Hhost];
      cbn [negb] in E.
    + destruct (IH _ _ E) as (first' & rest & -> & Hcase).
      exists first', rest. split; [reflexivity|]. right.
      destruct Hcase as [[-> Hnone] | (m' & url' & Hin & Hurl' & Hh & Hu & Hi)].
      * exists m, url. cbn. auto.
      * exists m', url'. cbn. auto 10.
    + destruct (IH _ _ E) as (first' & rest & -> & Hcase).
      exists first', rest. split; [reflexivity|].
      destruct Hcase as [[-> Hnone] | (m' & url' & Hin & Hurl' & Hh & Hu & Hi)].
      * left. split; [reflexivity|]. intros m' url' [<- | Hin] Hurl'.
        -- rewrite Eurl in Hurl'. injection Hurl' as <-. exact Hhost.
        -- eauto.
      * right. exists m', url'. cbn. auto 10.
Qed.

(** C1: a successful group resolution has a matched group, and whenever a
    member of that group sits at the group's host and every member at that
    host carries the declared coordinator id and is not flagged invisible,
    the member at index 0 of the result has the coordinator id as uuid. *)
Theorem getGroupMemberDataV2_coordinator_first (d : Device) (h : list event)
    (sonosPlayer : Player.t) (playerName : option string) (data : GroupMemberData) :
  (getGroupMemberDataV2 sonosPlayer playerName d h).2 = inr data ->
  exists groups playerGroupIndex usedPlayerHostname group,
    on_getAllGroups d h sonosPlayer = inr (GroupsArray groups) /\
    findPlayerGroup (isTruthyAndNotEmptyString (optional_string playerName)) playerName
                    (Player.host sonosPlayer) groups 0
    = inr (Some (playerGroupIndex, usedPlayerHostname)) /\
    groups !! playerGroupIndex = Some group /\
    groupId data = ID group /\
    ((exists m url, In m (ZoneGroupMember_ group) /\ new_URL (Location m) = inr url /\
                    URL.hostname url = host group) ->
     (forall m url, In m (ZoneGroupMember_ group) -> new_URL (Location m) = inr url ->
                    URL.hostname url = host group ->
                    UUID m = Coordinator group /\ Invisible m <> Some "1") ->
     exists first,
       members data !! 0%nat = Some first /\ Member.uuid first = Some (Coordinator group)).
Proof.
  unfold getGroupMemberDataV2, bind, await, lift, throw, ret, at_index. cbn.
  destruct (on_getAllGroups d h sonosPlayer) as [e|[| |groups]] eqn:Egroups; cbn;
    try discriminate.
  destruct (findPlayerGroup _ playerName (Player.host sonosPlayer) groups 0)
    as [e|[[gi used]|]] eqn:Efind; cbn; try discriminate.
  destruct (sortedGroupArray groups (Z.of_nat gi)) as [e|sorted] eqn:Esorted; cbn;
    try discriminate.
  destruct (groups !! gi) as [group|] eqn:Egroup; cbn; try discriminate.
  intros E. injection E as <-.
  exists groups, gi, used, group. repeat split; try reflexivity; try assumption.
  intros (m0 & url0 & Hin0 & Hurl0 & Hhost0) Hwf. cbn.
  unfold sortedGroupArray in Esorted.
  destruct ((Z.of_nat gi <? 0) || (Z.of_nat (length groups) <=? Z.of_nat gi));
    [discriminate|].
  rewrite Nat2Z.id, Egroup in Esorted.
  apply sortedGroupLoop_head in Esorted
    as (first' & rest & -> & [[_ Hnone] | (m & url & Hin & Hurl & Hh & Hu & Hi)]).
  - exfalso. exact (Hnone m0 url0 Hin0 Hurl0 Hhost0).
  - destruct (Hwf m url Hin Hurl Hh) as [Hid Hflag].
    rewrite (invisible_flag _ Hflag) in Hi.
    exists first'. cbn. rewrite Hi. cbn. split; [reflexivity|]. now rewrite Hu, Hid.
Qed.

End TopologyProperties.

Lemma getGroupMemberDataV2_coordinator_first_witness :
  exists data first,
    (@getGroupMemberDataV2 sample_collaborators sample_bath None
       (sample_household None None) []).2 = inr data
    /\ members data !! 0%nat = Some first
    /\ Member.uuid first = Some "RINCON_A".
Proof.
  pose proof (@getGroupMemberDataV2_coordinator_first sample_collaborators
                (sample_household None None) [] sample_bath None _ eq_refl)
    as (groups & gi & used & group & Hgroups & Hfind & Hgroup & _ & Hfirst).
  injection Hgroups as <-.
  vm_compute in Hfind. injection Hfind as <- <-.
  vm_compute in Hgroup. injection Hgroup as <-.
  destruct Hfirst as (first & Hfirst & Huuid).
  - eexists _, _. split; [left; reflexivity|].
    split; [vm_compute; reflexivity | reflexivity].
  - intros m url Hin. cbn in Hin. destruct Hin as [<- | [<- | []]]; vm_compute;
      intros E; injection E as <-; intros E; first [discriminate E | split; [reflexivity | discriminate]].
  - eexists _, first. split; [reflexivity|]. split; [exact Hfirst | exact Huuid].
Defined.

(** C1, as stated, fails: when the member at the group's host is flagged
    invisible it is filtered out, and index 0 holds another member. *)
Lemma getGroupMemberDataV2_hidden_coordinator :
  exists data first,
    (@getGroupMemberDataV2 sample_collaborators sample_bath None
       (sample_household (Some "1") None) []).2 = inr data
    /\ members data !! 0%nat = Some first
    /\ Member.uuid first = Some "RINCON_B"
    /\ Member.uuid first <> Some (Coordinator (sample_group (Some "1") None)).
Proof.
  eexists _, _. split; [vm_compute; reflexivity|].
  split; [reflexivity|]. split; [reflexivity | discriminate].
Qed.

(** ** [executeActionV6] *)

Section ExecuteAction.
Context `{Collaborators}.

Lemma isValidProperty_own (fields : gmap string value) (property : string) :
  isValidProperty (Obj fields) [property]
  = match fields !! property with Some v => isTruthy v | None => false end.
Proof.
  unfold isValidProperty, getNestedProperty. cbn.
  now destruct (fields !! property).
Qed.

Lemma require_all_missing (obj : value) (missing : string -> error)
    (properties : list string) (property : string) :
  In property properties -> isValidProperty obj [property] = false ->
  exists first,
    In first properties /\ isValidProperty obj [first] = false /\
    require_all obj missing properties = inl (missing first).
Proof.
  induction properties as [|p ps IH]; intros Hin Hmiss; [contradiction|].
  cbn [require_all].
  destruct (isValidProperty obj [p]) eqn:Ep; cbn [negb].
  - destruct Hin as [-> | Hin]; [congruence|].
    destruct (IH Hin Hmiss) as (first & Hf & Hv & Hr).
    exists first. repeat split; auto. now right.
  - exists p. repeat split; auto. now left.
Qed.

Lemma require_all_present (obj : value) (missing : string -> error)
    (properties : list string) :
  (forall property, In property properties -> isValidProperty obj [property] = true) ->
  require_all obj missing properties = inr tt.
Proof.
  induction properties as [|p ps IH]; intros Hall; [reflexivity|].
  cbn [require_all]. rewrite (Hall p (or_introl eq_refl)). cbn [negb].
  apply IH. intros q Hq. apply Hall. now right.
Qed.

(** C6: when the input arguments lack a name of the template's required
    inputs, [executeActionV6] raises the missing-property error for a
    required input that is not present, and it makes no call at all: the
    transport is never invoked. *)
Theorem executeActionV6_missing_argument (d : Device) (h : list event)
    (playerUrlOrigin endpoint actionName : string) (actionInArgs : gmap string value)
    (actions : gmap string ActionTemplate) (template : ActionTemplate) (property : string) :
  ACTIONS_TEMPLATESV6 !! endpoint = Some actions ->
  actions !! actionName = Some template ->
  In property (inArgs template) ->
  actionInArgs !! property = None ->
  exists missing,
    In missing (inArgs template) /\
    isValidProperty (Obj actionInArgs) [missing] = false /\
    executeActionV6 playerUrlOrigin endpoint actionName actionInArgs d h
    = ([], inl (Error (NRCSP_ERRORPREFIX +:+ " property " +:+ missing +:+ " is missing}"))).
Proof.
  intros Hactions Htemplate Hin Habsent.
  assert (isValidProperty (Obj actionInArgs) [property] = false) as Hmiss
    by (rewrite isValidProperty_own, Habsent; reflexivity).
  destruct (require_all_missing (Obj actionInArgs)
              (fun property =>
                 Error (NRCSP_ERRORPREFIX +:+ " property " +:+ property +:+ " is missing}"))
              _ _ Hin Hmiss) as (missing & Hm & Hv & Hr).
  exists missing. repeat split; auto.
  unfold executeActionV6. rewrite Hactions. cbn [mbind option_bind].
  rewrite Htemplate. unfold bind, lift. rewrite Hr. reflexivity.
Qed.

Section Response.
Variables (d : Device) (h : list event).
Variables (playerUrlOrigin endpoint actionName : string).
Variable actionInArgs : gmap string value.
Variable actions : gmap string ActionTemplate.
Variable template : ActionTemplate.
Variables (fields node : gmap string value) (body bodyXml : value).

Hypothesis Hactions : ACTIONS_TEMPLATESV6 !! endpoint = Some actions.
Hypothesis Htemplate : actions !! actionName = Some template.
Hypothesis Hargs :
  forall property, In property (inArgs template) ->
                   isValidProperty (Obj actionInArgs) [property] = true.
(* a well-formed 200 response *)
Hypothesis Hsend :
  on_sendToPlayerV1 d h playerUrlOrigin endpoint (serviceNameOf endpoint)
                    actionName actionInArgs = inr (Obj fields).
Hypothesis Hstatus : fields !! "statusCode" = Some (Num 200).
Hypothesis Hbody : fields !! "body" = Some body.
Hypothesis Hbody_valid : isTruthy body = true.
Hypothesis Hparse : xml2js_parseStringPromise body "" = inr bodyXml.
(* whose response node carries the exact expected namespace *)
Hypothesis Hnode :
  getNestedProperty bodyXml ["s:Envelope"; "s:Body"; "u:" +:+ actionName +:+ "Response"]
  = Obj node.
Hypothesis Hnamespace :
  node !! "xmlns:u"
  = Some (Str ("urn:schemas-upnp-org:service:" +:+ text_of (serviceNameOf endpoint) +:+ ":1")).

Lemma executeActionV6_response :
  (executeActionV6 playerUrlOrigin endpoint actionName actionInArgs d h).2
  = match
      (if (length (outArgs template) =? 0)%nat then inr (Boolean true)
       else
         try _ <- require_all (Obj node)
                    (fun property =>
                       Error (NRCSP_ERRORPREFIX +:+ " response property "
                              +:+ property +:+ " is missing}"))
                    (outArgs template);
         inr (Obj (delete "xmlns:u" node)))
    with
    | inl e => inl e
    | inr result1 =>
        match outArgs template with
        | [only] => inr (get result1 only)
        | _ => inr result1
        end
    end.
Proof.
  unfold executeActionV6. rewrite Hactions. cbn [mbind option_bind]. rewrite Htemplate.
  unfold bind, lift, await, throw, ret.
  rewrite (require_all_present _ _ _ Hargs). cbn iota. rewrite app_nil_r, Hsend.
  cbn iota. rewrite !isValidProperty_own, Hstatus, Hbody, Hbody_valid.
  cbn [get]. rewrite Hstatus, Hbody.
  cbn [negb default from_option id strict_eq_num isTruthy]. rewrite ?Z.eqb_refl.
  cbn [negb]. rewrite Hparse. cbn iota.
  cbn [app]. unfold isValidProperty at 1. rewrite Hnode. cbn [isTruthy negb].
  rewrite isValidProperty_own, Hnamespace. cbn [get]. rewrite Hnamespace.
  cbn [negb default from_option id strict_eq_str isTruthy]. rewrite String.eqb_refl.
  cbn [negb].
  destruct (length (outArgs template) =? 0)%nat.
  - destruct (outArgs template) as [|o [|o' os]]; reflexivity.
  - destruct (require_all (Obj node) _ (outArgs template)) as [e|[]]; cbn.
    + reflexivity.
    + destruct (outArgs template) as [|o [|o' os]]; reflexivity.
Qed.

(** C7: on a well-formed 200 response whose response node carries the
    expected namespace, the result is [true] when no output is expected
    and the unwrapped value when one output is expected; with more
    outputs it is the response node without its namespace attribute,
    which holds every expected output and whatever else the response
    carried; an expected output missing from the node raises the
    missing-response-property error. *)
Theorem executeActionV6_result :
  let run := executeActionV6 playerUrlOrigin endpoint actionName actionInArgs d h in
  (outArgs template = [] -> run.2 = inr (Boolean true)) /\
  (forall only v,
      outArgs template = [only] -> only <> "xmlns:u" ->
      node !! only = Some v -> isTruthy v = true ->
      run.2 = inr v) /\
  ((2 <= length (outArgs template))%nat ->
   (forall o, In o (outArgs template) ->
              exists v, node !! o = Some v /\ isTruthy v = true) ->
   run.2 = inr (Obj (delete "xmlns:u" node)) /\
   (forall o, In o (outArgs template) -> o <> "xmlns:u" ->
              delete "xmlns:u" node !! o = node !! o) /\
   (forall k v, delete "xmlns:u" node !! k = Some v ->
                k <> "xmlns:u" /\ node !! k = Some v)) /\
  (forall o, In o (outArgs template) -> node !! o = None ->
             exists missing,
               In missing (outArgs template) /\
               run.2 = inl (Error (NRCSP_ERRORPREFIX +:+ " response property "
                                   +:+ missing +:+ " is missing}"))).
Proof.
  intros run. subst run. rewrite executeActionV6_response.
  split; [|split; [|split]].
  - intros ->. reflexivity.
  - intros only v -> Hne Hv Hvalid. cbn [length Nat.eqb require_all].
    rewrite isValidProperty_own, Hv, Hvalid. cbn.
    rewrite lookup_delete_ne by congruence. now rewrite Hv.
  - intros Hlen Hall.
    assert (forall o, In o (outArgs template) -> isValidProperty (Obj node) [o] = true)
      as Hvalid.
    { intros o Ho. destruct (Hall o Ho) as (v & Hv & Ht).
      now rewrite isValidProperty_own, Hv. }
    rewrite (require_all_present _ _ _ Hvalid).
    destruct (outArgs template) as [|o [|o' os]]; cbn in Hlen; try lia.
    cbn. split; [reflexivity|]. split.
    + intros k _ Hk. now apply lookup_delete_ne.
    + intros k v Hk. apply lookup_delete_Some in Hk as [Hk1 Hk2]. auto.
  - intros o Ho Hnone.
    assert (isValidProperty (Obj node) [o] = false) as Hmiss
      by (rewrite isValidProperty_own, Hnone; reflexivity).
    destruct (require_all_missing (Obj node)
                (fun property =>
                   Error (NRCSP_ERRORPREFIX +:+ " response property "
                          +:+ property +:+ " is missing}"))
                _ _ Ho Hmiss) as (missing & Hm & _ & Hr).
    exists missing. split; [exact Hm|].
    rewrite Hr. destruct (outArgs template); [contradiction|]. reflexivity.
Qed.

End Response.

End ExecuteAction.

Lemma executeActionV6_missing_argument_witness :
  exists missing,
    In missing ["InstanceID"; "Speed"] /\
    @executeActionV6 sample_collaborators "http://192.168.178.35:1400"
      "/MediaRenderer/AVTransport/Control" "Play" {[ "InstanceID" := Num 0 ]}
      (sample_household None None) []
    = ([], inl (Error ("nrcsp:" +:+ " property " +:+ missing +:+ " is missing}"))).
Proof.
  destruct (@executeActionV6_missing_argument sample_collaborators
              (sample_household None None) [] "http://192.168.178.35:1400"
              "/MediaRenderer/AVTransport/Control" "Play" {[ "InstanceID" := Num 0 ]}
              Sample.avTransport Sample.play "Speed")
    as (missing & Hin & _ & Hrun).
  - vm_compute. reflexivity.
  - vm_compute. reflexivity.
  - right. left. reflexivity.
  - vm_compute. reflexivity.
  - exists missing. split; [exact Hin | exact Hrun].
Defined.

Lemma executeActionV6_result_witness :
  (@executeActionV6 sample_collaborators "http://192.168.178.35:1400"
     "/MediaRenderer/RenderingControl/Control" "GetVolume" sample_volume_args
     (sample_household None None) []).2
  = inr (Str "25").
Proof.
  apply (proj1 (proj2
    (@executeActionV6_result sample_collaborators (sample_household None None) []
       "http://192.168.178.35:1400" "/MediaRenderer/RenderingControl/Control" "GetVolume"
       sample_volume_args
       Sample.renderingControl Sample.getVolumeAction
       (sample_response "GetVolume") Sample.volumeNode
       (Str "<GetVolumeResponse/>")
       (Sample.envelope "u:GetVolumeResponse" Sample.volumeNode)
       ltac:(vm_compute; reflexivity) ltac:(vm_compute; reflexivity)
       ltac:(intros property [<- | [<- | []]]; vm_compute; reflexivity)
       ltac:(vm_compute; reflexivity) ltac:(vm_compute; reflexivity)
       ltac:(vm_compute; reflexivity) ltac:(reflexivity)
       ltac:(vm_compute; reflexivity) ltac:(vm_compute; reflexivity)
       ltac:(vm_compute; reflexivity)))
    "CurrentVolume" (Str "25")).
  - reflexivity.
  - discriminate.
  - vm_compute. reflexivity.
  - reflexivity.
Defined.

(** C7, as stated, fails: the map returned for a Browse holds the element
    [Vendor] of the response next to the four expected outputs. *)
Lemma executeActionV6_result_keeps_other_elements :
  exists result,
    (@executeActionV6 sample_collaborators "http://192.168.178.35:1400"
       "/MediaServer/ContentDirectory/Control" "Browse" (browseArgs "FV:2" 200)
       (sample_household None None) []).2
    = inr (Obj result)
    /\ result !! "Vendor" = Some (Str "acme")
    /\ ~ In "Vendor" (outArgs Sample.browse)
    /\ Sample.templates !! "/MediaServer/ContentDirectory/Control" ≫= (.!! "Browse")
       = Some Sample.browse.
Proof.
  eexists. split; [vm_compute; reflexivity|].
  split; [vm_compute; reflexivity|].
  split; [|vm_compute; reflexivity].
  cbn. intros [E|[E|[E|[E|[]]]]]; discriminate E.
Qed.

(** ** Running asynchronous code: events and results *)

Lemma bind_events {A B} (m : M A) (f : A -> M B) (d : Device) (h : list event) :
  (bind m f d h).1
  = ((m d h).1 ++ match (m d h).2 with
                  | inl _ => []
                  | inr a => (f a d (h ++ (m d h).1)%list).1
                  end)%list.
Proof.
  unfold bind. destruct (m d h) as [evs [e|a]]; cbn.
  - now rewrite app_nil_r.
  - now destruct (f a d (h ++ evs)%list).
Qed.

Lemma bind_result {A B} (m : M A) (f : A -> M B) (d : Device) (h : list event) :
  (bind m f d h).2
  = match (m d h).2 with
    | inl e => inl e
    | inr a => (f a d (h ++ (m d h).1)%list).2
    end.
Proof.
  unfold bind. destruct (m d h) as [evs [e|a]]; cbn; [reflexivity|].
  now destruct (f a d (h ++ evs)%list).
Qed.

Lemma catch_ignore_result (m : M unit) (d : Device) (h : list event) :
  (catch_ignore m d h).2 = inr tt.
Proof. unfold catch_ignore. now destruct (m d h) as [evs [e|[]]]. Qed.

Lemma catch_ignore_events (m : M unit) (d : Device) (h : list event) :
  (catch_ignore m d h).1 = (m d h).1.
Proof. unfold catch_ignore. now destruct (m d h) as [evs [e|[]]]. Qed.

(** A loop stops at the first body that throws; an event of the loop is an
    event of one of its bodies. *)
Lemma for_from_event {A} (body : nat -> A -> M unit) (l : list A) (index : nat)
    (d : Device) (h : list event) (ev : event) :
  In ev (for_from index l body d h).1 ->
  exists j x h', l !! j = Some x /\ In ev (body (index + j)%nat x d h').1.
Proof.
  revert index h. induction l as [|x l IH]; intros index h; cbn [for_from].
  - intros [].
  - rewrite bind_events, in_app_iff. intros [Hin | Hin].
    + exists 0%nat, x, h. rewrite Nat.add_0_r. auto.
    + destruct (body index x d h).2; [contradiction|].
      destruct (IH _ _ Hin) as (j & y & h' & Hj & Hy).
      exists (S j), y, h'. rewrite Nat.add_succ_r. auto.
Qed.

Lemma for_from_failed {A} (body : nat -> A -> M unit) (l : list A) (index : nat)
    (d : Device) (h : list event) (c : call) (e : error) :
  (forall i x h', In (c, Some e) (body i x d h').1 -> (body i x d h').2 = inl e) ->
  In (c, Some e) (for_from index l body d h).1 ->
  (for_from index l body d h).2 = inl e.
Proof.
  intros Hbody. revert index h. induction l as [|x l IH]; intros index h; cbn [for_from].
  - intros [].
  - rewrite bind_events, bind_result, in_app_iff. intros [Hin | Hin].
    + now rewrite (Hbody _ _ _ Hin).
    + destruct (body index x d h).2; [contradiction|]. eauto.
Qed.

Lemma for_from_succeeds {A} (tolerated : call -> Prop) (body : nat -> A -> M unit)
    (l : list A) (index : nat) (d : Device) (h : list event) :
  (forall j x h', l !! j = Some x ->
                  (forall c e, In (c, Some e) (body (index + j)%nat x d h').1 -> tolerated c) ->
                  (body (index + j)%nat x d h').2 = inr tt) ->
  (forall c e, In (c, Some e) (for_from index l body d h).1 -> tolerated c) ->
  (for_from index l body d h).2 = inr tt.
Proof.
  revert index h. induction l as [|x l IH]; intros index h Hbody Hclean; cbn [for_from] in *.
  - reflexivity.
  - rewrite bind_result.
    assert ((body index x d h).2 = inr tt) as Hx.
    { specialize (Hbody 0%nat x h eq_refl). rewrite Nat.add_0_r in Hbody.
      apply Hbody. intros c e Hin. apply (Hclean c e).
      rewrite bind_events, in_app_iff. now left. }
    rewrite Hx. apply IH.
    + intros j y h' Hj. specialize (Hbody (S j) y h' Hj).
      now rewrite Nat.add_succ_r in Hbody.
    + intros c e Hin. apply (Hclean c e).
      rewrite bind_events, in_app_iff, Hx. now right.
Qed.

Lemma for_from_completed {A} (body : nat -> A -> M unit) (l : list A) (index : nat)
    (d : Device) (h : list event) :
  (for_from index l body d h).2 = inr tt ->
  forall j x, l !! j = Some x ->
    exists h', (body (index + j)%nat x d h').2 = inr tt
               /\ incl (body (index + j)%nat x d h').1 (for_from index l body d h).1.
Proof.
  revert index h. induction l as [|x l IH]; intros index h Hok j y Hj; cbn [for_from] in *.
  - discriminate.
  - rewrite bind_result in Hok. rewrite bind_events.
    destruct (body index x d h).2 as [e|[]] eqn:Hx; [discriminate|].
    destruct j as [|j]; cbn in Hj.
    + injection Hj as <-. exists h. rewrite Nat.add_0_r. split; [exact Hx|].
      apply incl_appl, incl_refl.
    + destruct (IH _ _ Hok j y Hj) as (h' & Hy & Hincl).
      exists h'. rewrite Nat.add_succ_r. split; [exact Hy|].
      now apply incl_appr.
Qed.

(** The body that issues an event of the loop runs after every earlier body
    has returned. *)
Lemma for_from_event_after {A} (body : nat -> A -> M unit) (l : list A) (index : nat)
    (d : Device) (h : list event) (ev : event) :
  In ev (for_from index l body d h).1 ->
  exists j x h',
    l !! j = Some x /\ In ev (body (index + j)%nat x d h').1 /\
    forall i y, (i < j)%nat -> l !! i = Some y ->
      exists h'', (body (index + i)%nat y d h'').2 = inr tt
                  /\ incl (body (index + i)%nat y d h'').1 (for_from index l body d h).1.
Proof.
  revert index h. induction l as [|x l IH]; intros index h; cbn [for_from].
  - intros [].
  - rewrite bind_events, in_app_iff. intros [Hin | Hin].
    + exists 0%nat, x, h. rewrite Nat.add_0_r. repeat split; auto. intros i y Hi. lia.
    + destruct (body index x d h).2 as [e|[]] eqn:Hx; [contradiction|].
      destruct (IH _ _ Hin) as (j & y & h' & Hj & Hy & Hbefore).
      exists (S j), y, h'. rewrite Nat.add_succ_r. repeat split; auto.
      intros i z Hi Hz. destruct i as [|i]; cbn in Hz.
      * injection Hz as <-. exists h. rewrite Nat.add_0_r. split; [exact Hx|].
        apply incl_appl, incl_refl.
      * destruct (Hbefore i z ltac:(lia) Hz) as (h'' & Hz' & Hincl).
        exists h''. rewrite Nat.add_succ_r. split; [exact Hz'|]. now apply incl_appr.
Qed.

Lemma bind_ext {A B} (m : M A) (f g : A -> M B) (d : Device) (h : list event) :
  (forall a h', f a d h' = g a d h') -> bind m f d h = bind m g d h.
Proof.
  intros Hfg. unfold bind. destruct (m d h) as [evs [e|a]]; [reflexivity|].
  now rewrite Hfg.
Qed.

Lemma bind_ret_tt (m : M unit) (d : Device) (h : list event) :
  bind m (fun _ => ret tt) d h = m d h.
Proof.
  unfold bind, ret. destruct (m d h) as [evs [e|[]]]; [reflexivity|].
  now rewrite app_nil_r.
Qed.

(** ** Restoring a snapshot *)

Section RestoreProperties.

Lemma revertTrackAndTime_run (coordinator : Player.t) (track nrTracks : Z)
    (relTime trackDuration : option string) (d : Device) (h : list event) :
  let run := revertTrackAndTime coordinator track nrTracks relTime trackDuration d h in
  run.2 = inr tt /\
  (forall ev, In ev run.1 ->
     (exists o, ev = (selectTrack coordinator track, o)
                /\ above_one track && (1 <? nrTracks) = true) \/
     (exists o, ev = (Seek coordinator 0 "REL_TIME" (default "" relTime), o)
                /\ seekable relTime trackDuration = true)) /\
  (above_one track && (1 <? nrTracks) = true ->
   exists o, In (selectTrack coordinator track, o) run.1) /\
  (seekable relTime trackDuration = true ->
   exists o, In (Seek coordinator 0 "REL_TIME" (default "" relTime), o) run.1).
Proof.
  unfold revertTrackAndTime. cbn zeta.
  rewrite bind_result, bind_events.
  destruct (above_one track && (1 <? nrTracks)) eqn:Etrack;
    destruct (seekable relTime trackDuration) eqn:Eseek; cbn [when];
    rewrite ?catch_ignore_result, ?catch_ignore_events; cbn [ret await fst snd app];
    rewrite ?catch_ignore_result, ?catch_ignore_events; cbn [ret await fst snd app];
    (split; [reflexivity|]); (split; [|split]); try discriminate.
  all: cbn [In].
  all: try (intros ev Hev; repeat (destruct Hev as [<- | Hev]; eauto 8); contradiction).
  all: eauto 8.
Qed.

Lemma restoreMember_run (snapshot : GroupSnapshot) (index : nat) (member : Player.t)
    (d : Device) (h : list event) :
  let run := restoreMember snapshot index member d h in
  (forall ev, In ev run.1 ->
     exists data,
       memberData snapshot !! index = Some data /\
       ((exists o, ev = (setVolume member (volume data), o)
                   /\ strict_eq_num (volume data) (-1) = false) \/
        (exists o, ev = (setMuted member (strict_eq_str (mutestate data) "on"), o)
                   /\ loose_null (mutestate data) = false))) /\
  (forall c e, In (c, Some e) run.1 -> run.2 = inl e) /\
  ((forall c e, ~ In (c, Some e) run.1) ->
   is_Some (memberData snapshot !! index) -> run.2 = inr tt) /\
  (run.2 = inr tt ->
   exists data,
     memberData snapshot !! index = Some data /\
     (strict_eq_num (volume data) (-1) = false ->
      In (setVolume member (volume data), None) run.1) /\
     (loose_null (mutestate data) = false ->
      In (setMuted member (strict_eq_str (mutestate data) "on"), None) run.1)).
Proof.
  unfold restoreMember, at_index. cbn zeta.
  destruct (memberData snapshot !! index) as [data|] eqn:Edata.
  2:{ cbn. repeat split; try contradiction; try discriminate.
      intros _ [x Hx]. discriminate. }
  rewrite bind_events, bind_result. cbn [ret fst snd app].
  rewrite bind_events, bind_result.
  destruct (strict_eq_num (volume data) (-1)) eqn:Evol;
    destruct (loose_null (mutestate data)) eqn:Emute;
    cbn [negb when ret await fst snd app];
    repeat match goal with
           | |- context [on_setVolume ?d ?h ?m ?v] =>
               destruct (on_setVolume d h m v) as [?e|[]]; cbn [failure_of fst snd app]
           | |- context [on_setMuted ?d ?h ?m ?v] =>
               destruct (on_setMuted d h m v) as [?e|[]]; cbn [failure_of fst snd app]
           end;
    (split; [|split; [|split]]).
  all: try (intros ev Hev; cbn [In] in Hev;
            repeat (destruct Hev as [<- | Hev]; [eauto 10|]); contradiction).
  all: try (intros c e' Hin; cbn [In] in Hin;
            repeat (destruct Hin as [E | Hin];
                    [first [discriminate E | injection E as _ <-; reflexivity]|]);
            contradiction).
  all: try (intros Hclean _; first [reflexivity | exfalso; eapply Hclean; cbn; eauto]).
  all: try (intros Hok; first [discriminate Hok |
              exists data; split; [reflexivity|]; split; intros Hcond;
              first [congruence | solve [cbn; auto]]]).
Qed.

(** The shape of a run of [restoreGroupSnapshot] on a group with a
    coordinator. *)
Lemma restoreGroupSnapshot_run (coordinator : Player.t) (others : list Player.t)
    (snapshot : GroupSnapshot) (d : Device) (h : list event) :
  exists hU hR hL,
    let uriCall :=
      setAVTransportURI coordinator (CurrentURI snapshot) (CurrentURIMetadata snapshot) true in
    let revert :=
      revertTrackAndTime coordinator (Track snapshot) (NrTracks snapshot)
                         (RelTime snapshot) (TrackDuration snapshot) d hR in
    let loop := for_from 0 (coordinator :: others) (restoreMember snapshot) d hL in
    restoreGroupSnapshot (coordinator :: others) snapshot d h
    = match on_setAVTransportURI d hU coordinator (CurrentURI snapshot)
              (CurrentURIMetadata snapshot) true with
      | inl e => ([(uriCall, Some e)], inl e)
      | inr _ =>
          (((uriCall, None) :: revert.1 ++ loop.1)%list,
           match loop.2 with inl e => inl e | inr _ => inr true end)
      end.
Proof.
  set (uriCall := setAVTransportURI coordinator (CurrentURI snapshot)
                    (CurrentURIMetadata snapshot) true).
  set (hU := (h ++ [])%list).
  set (hR := (hU ++ [(uriCall, None)])%list).
  exists hU, hR,
    (hR ++ (revertTrackAndTime coordinator (Track snapshot) (NrTracks snapshot)
              (RelTime snapshot) (TrackDuration snapshot) d hR).1)%list.
  cbn zeta.
  destruct (revertTrackAndTime_run coordinator (Track snapshot) (NrTracks snapshot)
              (RelTime snapshot) (TrackDuration snapshot) d hR) as (Hrevert & _).
  cbn zeta in Hrevert.
  apply injective_projections.
  - unfold restoreGroupSnapshot. cbn zeta. cbn [at_index lookup list_lookup].
    rewrite bind_events. cbn [ret fst snd app]. rewrite bind_events. cbn [await fst snd].
    fold uriCall hU.
    destruct (on_setAVTransportURI d hU coordinator _ _ true) as [e|[]] eqn:EU;
      cbn [failure_of fst snd app]; [reflexivity|].
    fold hR. rewrite bind_events, Hrevert, bind_events.
    cbn [ret fst snd]. f_equal. f_equal.
    destruct (for_from _ _ _ _ _).2; now rewrite ?app_nil_r.
  - unfold restoreGroupSnapshot. cbn zeta. cbn [at_index lookup list_lookup].
    rewrite bind_result. cbn [ret fst snd app]. rewrite bind_result. cbn [await fst snd].
    fold uriCall hU.
    destruct (on_setAVTransportURI d hU coordinator _ _ true) as [e|[]] eqn:EU;
      cbn [failure_of fst snd app]; [reflexivity|].
    fold hR. rewrite bind_result, Hrevert, bind_result.
    cbn [ret fst snd]. reflexivity.
Qed.

End RestoreProperties.

Section RestoreGroupSnapshot.

(** The events of the member loop are volume and mute calls. *)
Lemma restore_loop_event (snapshot : GroupSnapshot) (l : list Player.t)
    (d : Device) (h : list event) (ev : event) :
  In ev (for_from 0 l (restoreMember snapshot) d h).1 ->
  exists index member data,
    l !! index = Some member /\ memberData snapshot !! index = Some data /\
    ((exists o, ev = (setVolume member (volume data), o)
                /\ strict_eq_num (volume data) (-1) = false) \/
     (exists o, ev = (setMuted member (strict_eq_str (mutestate data) "on"), o)
                /\ loose_null (mutestate data) = false)).
Proof.
  intros Hin. apply for_from_event in Hin as (j & member & h' & Hj & Hev).
  cbn [Nat.add] in Hev.
  destruct (restoreMember_run snapshot j member d h') as (Hevents & _).
  destruct (Hevents ev Hev) as (data & Hdata & Hcase).
  exists j, member, data. auto.
Qed.

Lemma restore_loop_failed (snapshot : GroupSnapshot) (l : list Player.t)
    (d : Device) (h : list event) (c : call) (e : error) :
  In (c, Some e) (for_from 0 l (restoreMember snapshot) d h).1 ->
  (for_from 0 l (restoreMember snapshot) d h).2 = inl e.
Proof.
  apply for_from_failed. intros i x h'.
  destruct (restoreMember_run snapshot i x d h') as (_ & Hfailed & _). apply Hfailed.
Qed.

(** C8: in [restoreGroupSnapshot] a failure of the track reselection or of
    the seek is swallowed: when no other call fails the restore returns
    [true]; a failure of a volume or mute call is what the restore throws;
    volume is set only for members whose captured volume is not -1, mute
    only for members whose captured mute state is not null, and a restore
    that returns has set both for every such member. *)
Theorem restoreGroupSnapshot_failures (d : Device) (h : list event)
    (membersAsPlayersPlus : list Player.t) (snapshot : GroupSnapshot) :
  let run := restoreGroupSnapshot membersAsPlayersPlus snapshot d h in
  (membersAsPlayersPlus <> [] ->
   (length membersAsPlayersPlus <= length (memberData snapshot))%nat ->
   (forall c e, In (c, Some e) run.1 -> best_effort c = true) ->
   run.2 = inr true) /\
  (forall member v e, In (setVolume member v, Some e) run.1 -> run.2 = inl e) /\
  (forall member b e, In (setMuted member b, Some e) run.1 -> run.2 = inl e) /\
  (forall member v o,
      In (setVolume member v, o) run.1 ->
      exists index data,
        membersAsPlayersPlus !! index = Some member /\
        memberData snapshot !! index = Some data /\
        v = volume data /\ strict_eq_num v (-1) = false) /\
  (forall member b o,
      In (setMuted member b, o) run.1 ->
      exists index data,
        membersAsPlayersPlus !! index = Some member /\
        memberData snapshot !! index = Some data /\
        b = strict_eq_str (mutestate data) "on" /\ loose_null (mutestate data) = false) /\
  (run.2 = inr true ->
   forall index member data,
     membersAsPlayersPlus !! index = Some member ->
     memberData snapshot !! index = Some data ->
     (strict_eq_num (volume data) (-1) = false ->
      In (setVolume member (volume data), None) run.1) /\
     (loose_null (mutestate data) = false ->
      In (setMuted member (strict_eq_str (mutestate data) "on"), None) run.1)).
Proof.
  destruct membersAsPlayersPlus as [|coordinator others].
  { cbn. repeat split; try contradiction; try discriminate. }
  destruct (restoreGroupSnapshot_run coordinator others snapshot d h)
    as (hU & hR & hL & Hrun).
  cbn zeta in Hrun |- *. rewrite Hrun. clear Hrun.
  set (members := coordinator :: others).
  set (revert := revertTrackAndTime coordinator (Track snapshot) (NrTracks snapshot)
                   (RelTime snapshot) (TrackDuration snapshot) d hR).
  set (loop := for_from 0 members (restoreMember snapshot) d hL).
  destruct (revertTrackAndTime_run coordinator (Track snapshot) (NrTracks snapshot)
              (RelTime snapshot) (TrackDuration snapshot) d hR) as (_ & Hrevert & _).
  fold revert in Hrevert. cbn zeta in Hrevert.
  destruct (on_setAVTransportURI d hU coordinator _ _ true) as [e|[]]; cbn [fst snd].
  { (* the URI call failed: nothing else is called *)
    repeat split; try discriminate.
    - intros _ _ Hbest. specialize (Hbest _ e (or_introl eq_refl)). discriminate.
    - intros member v e' [E | []]. discriminate.
    - intros member b e' [E | []]. discriminate.
    - intros member v o [E | []]. discriminate.
    - intros member b o [E | []]. discriminate. }
  assert (forall ev, In ev revert.1 -> best_effort ev.1 = true) as Hrevert_best.
  { intros ev Hev. destruct (Hrevert ev Hev) as [(o & -> & _) | (o & -> & _)]; reflexivity. }
  assert (forall ev, In ev loop.1 -> best_effort ev.1 = false) as Hloop_best.
  { intros ev Hev. apply restore_loop_event in Hev
      as (i & m & data & _ & _ & [(o & -> & _) | (o & -> & _)]); reflexivity. }
  assert (forall c o, best_effort c = false ->
            In (c, o) ((setAVTransportURI coordinator (CurrentURI snapshot)
                          (CurrentURIMetadata snapshot) true, None)
                       :: revert.1 ++ loop.1)%list ->
            c <> setAVTransportURI coordinator (CurrentURI snapshot)
                   (CurrentURIMetadata snapshot) true ->
            In (c, o) loop.1) as Hin_loop.
  { intros c o Hc [E | Hin] Hne; [congruence|].
    apply in_app_iff in Hin as [Hin | Hin]; [|exact Hin].
    apply Hrevert_best in Hin. cbn in Hin. congruence. }
  split; [|split; [|split; [|split; [|split]]]].
  - intros _ Hlen Hbest.
    assert (loop.2 = inr tt) as ->; [|reflexivity].
    apply (for_from_succeeds (fun _ => False)).
    + intros j x h' Hj Hclean. cbn [Nat.add].
      destruct (restoreMember_run snapshot j x d h') as (_ & _ & Hok & _).
      apply Hok; [exact Hclean|].
      apply lookup_lt_is_Some. apply lookup_lt_Some in Hj.
      fold members in Hlen. lia.
    + intros c e Hin.
      pose proof (Hloop_best _ Hin) as Hc. cbn in Hc.
      rewrite (Hbest c e) in Hc; [discriminate|].
      right. apply in_app_iff. now right.
  - intros member v e Hin.
    apply Hin_loop in Hin; [|reflexivity|discriminate].
    assert (loop.2 = inl e) as -> by (eapply restore_loop_failed; exact Hin).
    reflexivity.
  - intros member b e Hin.
    apply Hin_loop in Hin; [|reflexivity|discriminate].
    assert (loop.2 = inl e) as -> by (eapply restore_loop_failed; exact Hin).
    reflexivity.
  - intros member v o Hin.
    apply Hin_loop in Hin; [|reflexivity|discriminate].
    apply restore_loop_event in Hin
      as (i & m & data & Hm & Hdata & [(o' & E & Hv) | (o' & E & _)]); [|discriminate].
    injection E as -> -> _. exists i, data. auto.
  - intros member b o Hin.
    apply Hin_loop in Hin; [|reflexivity|discriminate].
    apply restore_loop_event in Hin
      as (i & m & data & Hm & Hdata & [(o' & E & _) | (o' & E & Hb)]); [discriminate|].
    injection E as -> -> _. exists i, data. auto.
  - intros Hok index member data Hmember Hdata.
    assert (loop.2 = inr tt) as Hloop.
    { destruct loop.2 as [e|[]]; [discriminate | reflexivity]. }
    destruct (for_from_completed _ _ _ _ _ Hloop index member Hmember)
      as (h' & Hbody & Hincl).
    cbn [Nat.add] in Hbody, Hincl.
    destruct (restoreMember_run snapshot index member d h') as (_ & _ & _ & Hdone).
    destruct (Hdone Hbody) as (data' & Hdata' & Hvol & Hmute).
    rewrite Hdata in Hdata'. injection Hdata' as <-.
    split; intros Hcond; right; apply in_app_iff; right; apply Hincl; auto.
Qed.

End RestoreGroupSnapshot.

(** ** The restore phase of a group notification *)

Section NotificationRestore.
Variables (coordinator : Player.t) (others : list Player.t).
Variables (options : Notification.options) (snapshot : Notification.snapshot).

Lemma notificationRestore_steps (d : Device) (h : list event) :
  notificationRestore (coordinator :: others) options snapshot d h
  = for_from 0 (restoreSteps coordinator others options snapshot) (fun _ step => step)
             d (h ++ [])%list.
Proof.
  unfold notificationRestore, restoreSteps. cbn zeta.
  cbn [at_index lookup list_lookup for_from tail].
  unfold bind at 1. cbn [ret]. 
  match goal with
  | |- (let '(evs, r) := ?x in _) = ?y =>
      replace y with x; [now destruct x as [evs r]|]
  end.
  repeat (apply bind_ext; intros _ ?).
  now rewrite bind_ret_tt.
Qed.

(** What each step calls, and that a step whose calls all succeed
    returns. *)
Lemma restoreSteps_step (j : nat) (step : M unit) (d : Device) (h : list event) :
  restoreSteps coordinator others options snapshot !! j = Some step ->
  (forall c o, In (c, o) (step d h).1 ->
     match j with
     | 0%nat | 1%nat => exists member v, c = setVolume member v
     | 2%nat => c = (restoreUriCall coordinator snapshot) /\ restorable options = true
     | 3%nat => (c = (restoreTrackCall coordinator snapshot) /\ (trackWanted snapshot) = true) \/ (c = (restoreSeekCall coordinator snapshot) /\ (seekWanted snapshot) = true)
     | _ => c = play coordinator /\ Notification.wasPlaying snapshot = true
            /\ restorable options = true
     end) /\
  ((forall c e, In (c, Some e) (step d h).1 -> best_effort c = true) ->
   (step d h).2 = inr tt).
Proof.
  unfold restoreSteps, restoreUriCall, restoreTrackCall, restoreSeekCall,
    trackWanted, seekWanted. cbn zeta.
  destruct j as [|[|[|[|[|j]]]]]; cbn [lookup list_lookup]; intros E;
    try discriminate; injection E as <-.
  - destruct (hasVolume options); cbn [when ret await fst snd].
    + split.
      * intros c o [E | []]. injection E as <- _. eauto.
      * intros Hbest. destruct (on_setVolume d h coordinator _) as [e|[]] eqn:Ev;
          [|reflexivity].
        specialize (Hbest _ e (or_introl eq_refl)). discriminate.
    + split; [intros c o []|reflexivity].
  - destruct (Notification.sameVolume options); cbn [when ret fst snd].
    + unfold setVolumes. split.
      * intros c o Hin. apply for_from_event in Hin as (i & member & h' & _ & Hin).
        destruct Hin as [E | []]. injection E as <- _. eauto.
      * intros Hbest. apply (for_from_succeeds (fun c => best_effort c = true)).
        -- intros i member h' _ Hclean. cbn [await fst snd] in *.
           destruct (on_setVolume d h' member _) as [e|[]] eqn:Ev; [|reflexivity].
           specialize (Hclean _ e (or_introl eq_refl)). discriminate.
        -- exact Hbest.
    + split; [intros c o []|reflexivity].
  - destruct (restorable options); cbn [when ret await fst snd].
    + split.
      * intros c o [E | []]. injection E as <- _. auto.
      * intros Hbest.
        destruct (on_setAVTransportURI d h coordinator _ _ true) as [e|[]] eqn:Ev;
          [|reflexivity].
        specialize (Hbest _ e (or_introl eq_refl)). discriminate.
    + split; [intros c o []|reflexivity].
  - destruct (revertTrackAndTime_run coordinator (pi_Track (Notification.positionInfo snapshot))
                (mi_NrTracks (Notification.mediaInfo snapshot)) (pi_RelTime (Notification.positionInfo snapshot))
                (pi_TrackDuration (Notification.positionInfo snapshot)) d h) as (Hok & Hevents & _).
    cbn zeta in Hok, Hevents. split; [|intros _; exact Hok].
    intros c o Hin.
    destruct (Hevents _ Hin) as [(o' & E & Hw) | (o' & E & Hw)]; injection E as -> _; auto.
  - destruct (Notification.wasPlaying snapshot), (restorable options);
      cbn [when ret await fst snd]; try (split; [intros c o []|reflexivity]).
    split.
    + intros c o [E | []]. injection E as <- _. auto.
    + intros Hbest. destruct (on_play d h coordinator) as [e|[]] eqn:Ev; [|reflexivity].
      specialize (Hbest _ e (or_introl eq_refl)). discriminate.
Qed.

(** The restore phase of a group notification, for any captured snapshot:
    the track reselection and the seek are attempted exactly when the
    captured position asks for them, whatever the captured content URI,
    and their failure is swallowed; play is called at the end only if the
    snapshot says the group was playing and the content URI has been set
    back. *)
Theorem notificationRestore_best_effort (d : Device) (h : list event) :
  let run := notificationRestore (coordinator :: others) options snapshot d h in
  (forall member trackNr o,
      In (selectTrack member trackNr, o) run.1 ->
      selectTrack member trackNr = (restoreTrackCall coordinator snapshot) /\ (trackWanted snapshot) = true) /\
  (forall member instanceId unitName target o,
      In (Seek member instanceId unitName target, o) run.1 ->
      Seek member instanceId unitName target = (restoreSeekCall coordinator snapshot) /\ (seekWanted snapshot) = true) /\
  (run.2 = inr tt -> (trackWanted snapshot) = true -> exists o, In ((restoreTrackCall coordinator snapshot), o) run.1) /\
  (run.2 = inr tt -> (seekWanted snapshot) = true -> exists o, In ((restoreSeekCall coordinator snapshot), o) run.1) /\
  ((forall c e, In (c, Some e) run.1 -> best_effort c = true) -> run.2 = inr tt) /\
  (forall member o,
      In (play member, o) run.1 ->
      member = coordinator /\ Notification.wasPlaying snapshot = true
      /\ In ((restoreUriCall coordinator snapshot), None) run.1).
Proof.
  cbn zeta. rewrite notificationRestore_steps.
  pose proof restoreSteps_step as Hstep.
  unfold restoreUriCall, restoreTrackCall, restoreSeekCall, trackWanted, seekWanted in *.
  set (steps := restoreSteps coordinator others options snapshot).
  set (h0 := (h ++ [])%list).
  split; [|split; [|split; [|split; [|split]]]].
  - intros member trackNr o Hin.
    apply for_from_event in Hin as (j & step & h' & Hj & Hin). cbn [Nat.add] in Hin.
    destruct (Hstep j step d h' Hj) as (Hcalls & _).
    specialize (Hcalls _ _ Hin).
    destruct j as [|[|[|[|j]]]].
    + destruct Hcalls as (m & v & E). discriminate.
    + destruct Hcalls as (m & v & E). discriminate.
    + destruct Hcalls as (E & _). discriminate.
    + destruct Hcalls as [(E & Hw) | (E & _)]; [auto | discriminate].
    + destruct Hcalls as (E & _). discriminate.
  - intros member instanceId unitName target o Hin.
    apply for_from_event in Hin as (j & step & h' & Hj & Hin). cbn [Nat.add] in Hin.
    destruct (Hstep j step d h' Hj) as (Hcalls & _).
    specialize (Hcalls _ _ Hin).
    destruct j as [|[|[|[|j]]]].
    + destruct Hcalls as (m & v & E). discriminate.
    + destruct Hcalls as (m & v & E). discriminate.
    + destruct Hcalls as (E & _). discriminate.
    + destruct Hcalls as [(E & _) | (E & Hw)]; [discriminate | auto].
    + destruct Hcalls as (E & _). discriminate.
  - intros Hok Hwanted.
    destruct (for_from_completed _ _ _ _ _ Hok 3%nat _ eq_refl) as (h' & _ & Hincl).
    cbn [Nat.add] in Hincl.
    destruct (revertTrackAndTime_run coordinator (pi_Track (Notification.positionInfo snapshot))
                (mi_NrTracks (Notification.mediaInfo snapshot)) (pi_RelTime (Notification.positionInfo snapshot))
                (pi_TrackDuration (Notification.positionInfo snapshot)) d h') as (_ & _ & Htrack & _).
    destruct (Htrack Hwanted) as (o & Ho). exists o. apply Hincl. exact Ho.
  - intros Hok Hwanted.
    destruct (for_from_completed _ _ _ _ _ Hok 3%nat _ eq_refl) as (h' & _ & Hincl).
    cbn [Nat.add] in Hincl.
    destruct (revertTrackAndTime_run coordinator (pi_Track (Notification.positionInfo snapshot))
                (mi_NrTracks (Notification.mediaInfo snapshot)) (pi_RelTime (Notification.positionInfo snapshot))
                (pi_TrackDuration (Notification.positionInfo snapshot)) d h') as (_ & _ & _ & Hseek).
    destruct (Hseek Hwanted) as (o & Ho). exists o. apply Hincl. exact Ho.
  - intros Hbest. apply (for_from_succeeds (fun c => best_effort c = true)).
    + intros j step h' Hj Hclean. cbn [Nat.add] in *.
      destruct (Hstep j step d h' Hj) as (_ & Hok). auto.
    + exact Hbest.
  - intros member o Hin.
    apply for_from_event_after in Hin as (j & step & h' & Hj & Hin & Hbefore).
    cbn [Nat.add] in Hin.
    destruct (Hstep j step d h' Hj) as (Hcalls & _).
    specialize (Hcalls _ _ Hin).
    destruct j as [|[|[|[|j]]]].
    + destruct Hcalls as (m & v & E). discriminate.
    + destruct Hcalls as (m & v & E). discriminate.
    + destruct Hcalls as (E & _). discriminate.
    + destruct Hcalls as [(E & _) | (E & _)]; discriminate.
    + destruct Hcalls as (E & Hplaying & Hgate). injection E as ->.
      repeat split; auto.
      destruct (Hbefore 2%nat _ ltac:(lia) eq_refl) as (h'' & Hok & Hincl).
      cbn [Nat.add] in Hok, Hincl. apply Hincl.
      rewrite Hgate in Hok |- *. cbn [when await fst snd] in Hok |- *.
      destruct (on_setAVTransportURI d h'' coordinator _ _ true) as [e|[]];
        [discriminate|]. now left.
Qed.

End NotificationRestore.

Lemma restoreGroupSnapshot_failures_witness :
  (restoreGroupSnapshot [sample_kitchen; sample_bath] sample_snapshot
     sample_radio_household []).2 = inr true
  /\ In (selectTrack sample_kitchen 3, Some (Rejected "upnpErrorCode 701"))
        (restoreGroupSnapshot [sample_kitchen; sample_bath] sample_snapshot
           sample_radio_household []).1
  /\ (restoreGroupSnapshot [sample_kitchen; sample_bath] sample_snapshot
        (sample_device GroupsMissing (Str "playing") sample_idle_media sample_position
           (fun c => match c with
                     | setMuted _ _ => Some (Rejected "timeout")
                     | _ => None
                     end))
        []).2 = inl (Rejected "timeout").
Proof.
  split; [|split].
  - apply (proj1 (restoreGroupSnapshot_failures sample_radio_household []
                    [sample_kitchen; sample_bath] sample_snapshot)).
    + discriminate.
    + cbn. lia.
    + intros c e Hin. vm_compute in Hin.
      repeat (destruct Hin as [E | Hin];
              [first [discriminate E | injection E as <- _; reflexivity]|]).
      contradiction.
  - vm_compute. auto 10.
  - apply (proj1 (proj2 (proj2 (restoreGroupSnapshot_failures _ []
                    [sample_kitchen; sample_bath] sample_snapshot)))
             sample_kitchen true).
    vm_compute. auto 10.
Defined.

Lemma notificationRestore_best_effort_witness :
  (notificationRestore [sample_kitchen; sample_bath] sample_notification
     sample_notification_snapshot sample_radio_household []).2 = inr tt
  /\ exists o,
       In (selectTrack sample_kitchen 3, o)
          (notificationRestore [sample_kitchen; sample_bath] sample_notification
             sample_notification_snapshot sample_radio_household []).1.
Proof.
  assert ((notificationRestore [sample_kitchen; sample_bath] sample_notification
             sample_notification_snapshot sample_radio_household []).2 = inr tt) as Hok.
  { apply (proj1 (proj2 (proj2 (proj2 (proj2
             (notificationRestore_best_effort sample_kitchen [sample_bath]
                sample_notification sample_notification_snapshot
                sample_radio_household [])))))).
    intros c e Hin. vm_compute in Hin.
    repeat (destruct Hin as [E | Hin];
            [first [discriminate E | injection E as <- _; reflexivity]|]).
    contradiction. }
  split; [exact Hok|].
  apply (proj1 (proj2 (proj2
           (notificationRestore_best_effort sample_kitchen [sample_bath]
              sample_notification sample_notification_snapshot
              sample_radio_household []))) Hok).
  reflexivity.
Defined.

(** C2: a notification played while the group holds session-bound content.
    The captured content URI carries the marker 'x-sonos-vli', the URI of
    the notification does not.  The restore phase sets the captured URI
    back, selects the track again, seeks and, the group having been
    playing, plays; on the same group stopped it does the same but for
    play.  The gate reads the URI of the notification, not the captured
    one. *)
Lemma playGroupNotification_restores_session_content :
  let run := @playGroupNotification sample_collaborators [sample_kitchen]
               sample_quiet_notification sample_session_household [] in
  let stopped := @playGroupNotification sample_collaborators [sample_kitchen]
                   sample_quiet_notification sample_session_stopped [] in
  includes (mi_CurrentURI sample_session_media) "x-sonos-vli" = true
  /\ includes (Notification.uri sample_quiet_notification) "x-sonos-vli" = false
  /\ run.2 = inr tt
  /\ In (setAVTransportURI sample_kitchen (mi_CurrentURI sample_session_media) "" true, None)
        run.1
  /\ In (selectTrack sample_kitchen 3, None) run.1
  /\ In (Seek sample_kitchen 0 "REL_TIME" "0:01:00", None) run.1
  /\ In (play sample_kitchen, None) run.1
  /\ stopped.2 = inr tt
  /\ In (setAVTransportURI sample_kitchen (mi_CurrentURI sample_session_media) "" true, None)
        stopped.1
  /\ forall o, ~ In (play sample_kitchen, o) stopped.1.
Proof.
  vm_compute. repeat split; auto 20.
  intros o Hin. repeat (destruct Hin as [E | Hin]; [discriminate E|]). exact Hin.
Qed.

(** C8, as stated for every snapshot and member list, fails: with two
    members and captured data for the first one only, no call fails but
    the track reselection and the seek, and still the restore throws, a
    TypeError raised when the loop reaches the second member. *)
Lemma restoreGroupSnapshot_without_member_data :
  let run := restoreGroupSnapshot [sample_kitchen; sample_bath] sample_short_snapshot
               sample_radio_household [] in
  (forall c e, In (c, Some e) run.1 -> best_effort c = true)
  /\ In (selectTrack sample_kitchen 3, Some (Rejected "upnpErrorCode 701")) run.1
  /\ run.2 = inl (TypeError "Cannot read properties of undefined").
Proof.
  vm_compute. split; [|split; auto 10].
  intros c e Hin.
  repeat (destruct Hin as [E | Hin];
          [first [discriminate E | injection E as <- _; reflexivity]|]).
  contradiction.
Qed.

(** ** Strings: first occurrences and slices of a concatenation *)

Lemma append_nil_l (s : string) : "" +:+ s = s.
Proof. reflexivity. Qed.

Lemma length_append (a b : string) :
  String.length (a +:+ b) = (String.length a + String.length b)%nat.
Proof.
  induction a as [|x a IH]; [reflexivity|].
  rewrite append_cons. cbn [String.length]. now rewrite IH.
Qed.

Lemma substring_whole_prefix (m r : string) :
  String.substring 0 (String.length m) (m +:+ r) = m.
Proof.
  induction m as [|x m IH].
  - destruct r; reflexivity.
  - rewrite append_cons. cbn [String.length String.substring]. now rewrite IH.
Qed.

Lemma substring_middle (a m r : string) :
  String.substring (String.length a) (String.length m) (a +:+ m +:+ r) = m.
Proof.
  induction a as [|x a IH].
  - rewrite append_nil_l. apply substring_whole_prefix.
  - rewrite append_cons. cbn [String.length String.substring]. exact IH.
Qed.

Lemma prefix_append (pat r : string) : String.prefix pat (pat +:+ r) = true.
Proof. apply prefix_correct, substring_whole_prefix. Qed.

(** The first occurrence of a pattern behind a text that does not hold the
    first character of the pattern. *)
Lemma index_behind (a : string) (c : ascii) (pat r : string) :
  (forall x, In x (list_ascii_of_string a) -> x <> c) ->
  String.index 0 (String c pat) (a +:+ String c pat +:+ r) = Some (String.length a).
Proof.
  induction a as [|x a IH]; intros Hfree.
  - rewrite append_nil_l.
    change (String c pat +:+ r) with (String c (pat +:+ r)).
    cbn [String.index]. rewrite <- append_cons, prefix_append. reflexivity.
  - rewrite append_cons. cbn [String.index String.prefix].
    destruct (ascii_dec c x) as [->|_].
    + exfalso. apply (Hfree x); [now left | reflexivity].
    + rewrite IH; [reflexivity|]. intros y Hy. apply Hfree. now right.
Qed.

Lemma indexOf_behind (a : string) (c : ascii) (pat r : string) :
  (forall x, In x (list_ascii_of_string a) -> x <> c) ->
  indexOf (a +:+ String c pat +:+ r) (String c pat) = Z.of_nat (String.length a).
Proof. intros Hfree. unfold indexOf. now rewrite index_behind. Qed.

(** A pattern that occurs is found. *)
Lemma indexOf_occurs (a pat r : string) :
  pat <> "" -> 0 <= indexOf (a +:+ pat +:+ r) pat.
Proof.
  intros Hpat. unfold indexOf.
  destruct (String.index 0 pat (a +:+ pat +:+ r)) as [n|] eqn:E; [lia|].
  exfalso.
  apply (index_correct3 0 (String.length a) _ _ E Hpat); [lia|].
  apply substring_middle.
Qed.

(** [substring] between two positions inside the string. *)
Lemma substring_slice (a m r : string) :
  substring (a +:+ m +:+ r) (Z.of_nat (String.length a))
            (Z.of_nat (String.length a) + Z.of_nat (String.length m)) = m.
Proof.
  unfold substring. rewrite !length_append.
  set (la := String.length a). set (lm := String.length m). set (lr := String.length r).
  replace (Z.max 0 (Z.min (Z.of_nat la) (Z.of_nat (la + (lm + lr))))) with (Z.of_nat la) by lia.
  replace (Z.max 0 (Z.min (Z.of_nat la + Z.of_nat lm) (Z.of_nat (la + (lm + lr)))))
    with (Z.of_nat la + Z.of_nat lm) by lia.
  replace (Z.min (Z.of_nat la) (Z.of_nat la + Z.of_nat lm)) with (Z.of_nat la) by lia.
  replace (Z.max (Z.of_nat la) (Z.of_nat la + Z.of_nat lm)) with (Z.of_nat la + Z.of_nat lm)
    by lia.
  replace (Z.of_nat la + Z.of_nat lm - Z.of_nat la) with (Z.of_nat lm) by lia.
  rewrite !Nat2Z.id. apply substring_middle.
Qed.

Lemma in_list_ascii_append (a b : string) (x : ascii) :
  In x (list_ascii_of_string (a +:+ b))
  <-> In x (list_ascii_of_string a) \/ In x (list_ascii_of_string b).
Proof. now rewrite list_ascii_app, in_app_iff. Qed.

(** ** [encodeXml] loses nothing *)

Lemma encodeXml_cons_inj (x y : ascii) (s t : string) :
  encodeChar x +:+ s = encodeChar y +:+ t -> x = y /\ s = t.
Proof.
  destruct (encodeChar_cases x) as
    [[-> E]|[[-> E]|[[-> E]|[[-> E]|[[-> E]|(n1 & n2 & n3 & n4 & n5 & E)]]]]];
    destruct (encodeChar_cases y) as
    [[-> F]|[[-> F]|[[-> F]|[[-> F]|[[-> F]|(m1 & m2 & m3 & m4 & m5 & F)]]]]];
    rewrite ?E, ?F, ?append_cons, ?append_nil_l; intros Heq;
    try (injection Heq; intros; subst; solve [auto | congruence]);
    try discriminate Heq.
Qed.

(** X1: [encodeXml] is injective: two texts with the same encoding are the
    same text. *)
Theorem encodeXml_injective (a b : string) : encodeXml a = encodeXml b -> a = b.
Proof.
  revert b. induction a as [|x a IH]; intros [|y b]; cbn [encodeXml]; intros Heq.
  - reflexivity.
  - exfalso. destruct (encodeChar_cases y) as
      [[_ F]|[[_ F]|[[_ F]|[[_ F]|[[_ F]|(_ & _ & _ & _ & _ & F)]]]]];
      rewrite F, ?append_cons in Heq; discriminate Heq.
  - exfalso. destruct (encodeChar_cases x) as
      [[_ F]|[[_ F]|[[_ F]|[[_ F]|[[_ F]|(_ & _ & _ & _ & _ & F)]]]]];
      rewrite F, ?append_cons in Heq; discriminate Heq.
  - apply encodeXml_cons_inj in Heq as [-> Heq]. f_equal. now apply IH.
Qed.

Lemma encodeXml_injective_witness : "Tom & Jerry" = "Tom & Jerry".
Proof. apply (encodeXml_injective "Tom & Jerry" "Tom & Jerry"). reflexivity. Defined.

(** ** Service id, radio id and class of a URI or of metadata *)

Lemma nonempty_truthy (s : string) :
  s <> "" -> isTruthyAndNotEmptyString (Str s) = true.
Proof.
  intros Hs. unfold isTruthyAndNotEmptyString. cbn.
  destruct (String.eqb_spec s ""); [contradiction | reflexivity].
Qed.

(** X2: on a URI that holds [?sid=], the service id and [&flags=] in that
    order, with no question mark or ampersand before [?sid=] and no
    ampersand inside the service id, [getMusicServiceId] returns the service
    id. *)
Theorem getMusicServiceId_between (before serviceId rest : string) :
  (forall x, In x (list_ascii_of_string before) -> x <> "?"%char /\ x <> "&"%char) ->
  (forall x, In x (list_ascii_of_string serviceId) -> x <> "&"%char) ->
  getMusicServiceId (before +:+ "?sid=" +:+ serviceId +:+ "&flags=" +:+ rest) = serviceId.
Proof.
  intros Hbefore Hid. unfold getMusicServiceId.
  rewrite nonempty_truthy by (destruct before; discriminate).
  rewrite (indexOf_behind before "?" "sid=") by (intros x Hx; apply Hbefore, Hx).
  replace (before +:+ "?sid=" +:+ serviceId +:+ "&flags=" +:+ rest)
    with ((before +:+ "?sid=" +:+ serviceId) +:+ "&flags=" +:+ rest)
    by (now rewrite !append_assoc).
  rewrite (indexOf_behind (before +:+ "?sid=" +:+ serviceId) "&" "flags=").
  2:{ intros x Hx. apply in_list_ascii_append in Hx as [Hx | Hx]; [apply Hbefore, Hx|].
      apply in_list_ascii_append in Hx as [Hx | Hx]; [|apply Hid, Hx].
      cbn in Hx. intros ->. repeat (destruct Hx as [Hx | Hx]; [discriminate Hx|]).
      contradiction. }
  rewrite !length_append. cbn [String.length].
  match goal with
  | |- context [1 <? ?X] => destruct (Z.ltb_spec 1 X) as [_|Hlt]; [|lia]
  end.
  cbn [andb].
  match goal with
  | |- context [?A <? ?B] => destruct (Z.ltb_spec A B) as [Hlt|Hge]
  end.
  - replace ((before +:+ "?sid=" +:+ serviceId) +:+ "&flags=" +:+ rest)
      with ((before +:+ "?sid=") +:+ serviceId +:+ "&flags=" +:+ rest)
      by (now rewrite !append_assoc).
    replace (Z.of_nat (String.length before) + Z.of_nat 5)
      with (Z.of_nat (String.length (before +:+ "?sid=")))
      by (rewrite length_append; cbn [String.length]; lia).
    replace (Z.of_nat (String.length before + (5 + String.length serviceId)))
      with (Z.of_nat (String.length (before +:+ "?sid="))
            + Z.of_nat (String.length serviceId))
      by (rewrite length_append; cbn [String.length]; lia).
    apply substring_slice.
  - destruct serviceId; [reflexivity | cbn [String.length] in Hge; lia].
Qed.

Lemma getMusicServiceId_between_witness :
  getMusicServiceId
    ("x-rincon-cpcontainer:1004206ccatalog%2falbums%2fB07NW3FSWR%2f%23album_desc"
     +:+ "?sid=" +:+ "201" +:+ "&flags=" +:+ "8300&sn=14")
  = "201".
Proof.
  apply getMusicServiceId_between.
  - intros x Hx. split; intros ->; cbn in Hx;
      repeat (destruct Hx as [Hx | Hx]; [discriminate Hx|]); contradiction.
  - intros x Hx. intros ->. cbn in Hx.
    repeat (destruct Hx as [Hx | Hx]; [discriminate Hx|]); contradiction.
Defined.

Lemma prefix_length (p s : string) :
  String.prefix p s = true -> (String.length p <= String.length s)%nat.
Proof.
  revert s. induction p as [|x p IH]; intros s Hp; cbn [String.length]; [lia|].
  destruct s as [|y s]; cbn in Hp; [discriminate|].
  destruct (ascii_dec x y); [|discriminate].
  cbn [String.length]. apply IH in Hp. lia.
Qed.

(** X3: on a URI made of the scheme [x-sonosapi-stream:], a radio id
    without question mark and [?sid=254], [getRadioId] returns the radio
    id. *)
Theorem getRadioId_between (radioId rest : string) :
  (forall x, In x (list_ascii_of_string radioId) -> x <> "?"%char) ->
  getRadioId ("x-sonosapi-stream:" +:+ radioId +:+ "?sid=254" +:+ rest) = radioId.
Proof.
  intros Hid. unfold getRadioId, startsWith, includes.
  rewrite prefix_append.
  assert (0 <= indexOf ("x-sonosapi-stream:" +:+ radioId +:+ "?sid=254" +:+ rest) "sid=254")
    as Hocc.
  { replace ("x-sonosapi-stream:" +:+ radioId +:+ "?sid=254" +:+ rest)
      with (("x-sonosapi-stream:" +:+ radioId +:+ "?") +:+ "sid=254" +:+ rest)
      by (now rewrite !append_assoc).
    apply indexOf_occurs. discriminate. }
  apply Z.leb_le in Hocc. rewrite Hocc. cbn [andb].
  assert (indexOf ("x-sonosapi-stream:" +:+ radioId +:+ "?sid=254" +:+ rest) "?sid=254"
          = Z.of_nat (String.length ("x-sonosapi-stream:" +:+ radioId))) as ->.
  { replace ("x-sonosapi-stream:" +:+ radioId +:+ "?sid=254" +:+ rest)
      with (("x-sonosapi-stream:" +:+ radioId) +:+ "?sid=254" +:+ rest)
      by (now rewrite !append_assoc).
    apply (indexOf_behind ("x-sonosapi-stream:" +:+ radioId) "?" "sid=254").
    intros x Hx. apply in_list_ascii_append in Hx as [Hx | Hx]; [|apply Hid, Hx].
    cbn in Hx. intros ->. repeat (destruct Hx as [Hx | Hx]; [discriminate Hx|]).
    contradiction. }
  rewrite length_append.
  replace (Z.of_nat (String.length "x-sonosapi-stream:" + String.length radioId))
    with (Z.of_nat (String.length "x-sonosapi-stream:") + Z.of_nat (String.length radioId))
    by lia.
  apply substring_slice.
Qed.

Lemma getRadioId_between_witness :
  getRadioId ("x-sonosapi-stream:" +:+ "s24903" +:+ "?sid=254" +:+ "&flags=8224&sn=0")
  = "s24903".
Proof.
  apply getRadioId_between.
  intros x Hx. intros ->. cbn in Hx.
  repeat (destruct Hx as [Hx | Hx]; [discriminate Hx|]); contradiction.
Defined.

(** X4: when a stream URI holds [sid=254] but not [?sid=254], the end
    position is -1 and [getRadioId] returns the scheme [x-sonosapi-stream:]
    itself, not a radio id and not the empty string. *)
Theorem getRadioId_without_question_mark (xuri : string) :
  startsWith xuri "x-sonosapi-stream:" = true ->
  includes xuri "sid=254" = true ->
  indexOf xuri "?sid=254" = -1 ->
  getRadioId xuri = "x-sonosapi-stream:".
Proof.
  intros Hstart Hincl Hend. unfold getRadioId. rewrite Hstart, Hincl, Hend. cbn [andb].
  unfold startsWith in Hstart.
  pose proof (prefix_length _ _ Hstart) as Hlen. cbn [String.length] in Hlen.
  unfold substring. cbn [String.length].
  replace (Z.max 0 (Z.min (Z.of_nat 18) (Z.of_nat (String.length xuri)))) with 18 by lia.
  replace (Z.max 0 (Z.min (-1) (Z.of_nat (String.length xuri)))) with 0 by lia.
  change (Z.to_nat (Z.min 18 0)) with 0%nat.
  change (Z.to_nat (Z.max 18 0 - Z.min 18 0)) with (String.length "x-sonosapi-stream:").
  now apply prefix_correct.
Qed.

Lemma getRadioId_without_question_mark_witness :
  getRadioId "x-sonosapi-stream:s24903&sid=254" = "x-sonosapi-stream:".
Proof. apply getRadioId_without_question_mark; reflexivity. Defined.

(** X5: on metadata whose first [<upnp:class>] is followed by a class and
    by the first [</upnp:class>], [getUpnpClass] returns the class. *)
Theorem getUpnpClass_between (before class rest : string) :
  let metadata := before +:+ "<upnp:class>" +:+ class +:+ "</upnp:class>" +:+ rest in
  indexOf metadata "<upnp:class>" = Z.of_nat (String.length before) ->
  indexOf metadata "</upnp:class>"
  = Z.of_nat (String.length (before +:+ "<upnp:class>" +:+ class)) ->
  getUpnpClass metadata = class.
Proof.
  intros metadata Hopen Hclose. unfold getUpnpClass.
  rewrite nonempty_truthy by (subst metadata; destruct before; discriminate).
  rewrite Hopen, Hclose. rewrite !length_append. cbn [String.length].
  match goal with
  | |- context [0 <=? ?X] => destruct (Z.leb_spec 0 X) as [_|Hlt]; [|lia]
  end.
  cbn [andb].
  match goal with
  | |- context [?A <? ?B] => destruct (Z.ltb_spec A B) as [Hlt|Hge]
  end.
  - subst metadata.
    replace (before +:+ "<upnp:class>" +:+ class +:+ "</upnp:class>" +:+ rest)
      with ((before +:+ "<upnp:class>") +:+ class +:+ "</upnp:class>" +:+ rest)
      by (now rewrite !append_assoc).
    replace (Z.of_nat (String.length before) + Z.of_nat 12)
      with (Z.of_nat (String.length (before +:+ "<upnp:class>")))
      by (rewrite length_append; cbn [String.length]; lia).
    replace (Z.of_nat (String.length before + (12 + String.length class)))
      with (Z.of_nat (String.length (before +:+ "<upnp:class>"))
            + Z.of_nat (String.length class))
      by (rewrite length_append; cbn [String.length]; lia).
    apply substring_slice.
  - destruct class; [reflexivity | cbn [String.length] in Hge; lia].
Qed.

Lemma getUpnpClass_between_witness :
  getUpnpClass
    ("<DIDL-Lite><item><dc:title>Radio 1</dc:title>" +:+ "<upnp:class>"
     +:+ "object.item.audioItem.audioBroadcast" +:+ "</upnp:class>" +:+ "</item></DIDL-Lite>")
  = "object.item.audioItem.audioBroadcast".
Proof. apply getUpnpClass_between; vm_compute; reflexivity. Defined.

(** ** The service name of an endpoint and the single transport call *)

Lemma split_on_free (sep : ascii) (cur s : string) :
  (forall x, In x (list_ascii_of_string s) -> x <> sep) ->
  split_on sep cur s = [cur +:+ s].
Proof.
  revert cur. induction s as [|c s IH]; intros cur Hfree; cbn [split_on].
  - f_equal. clear. induction cur as [|y cur IH]; [reflexivity|].
    rewrite append_cons. now rewrite <- IH.
  - destruct (Ascii.eqb_spec c sep) as [->|_].
    + exfalso. apply (Hfree sep); [now left | reflexivity].
    + rewrite IH by (intros x Hx; apply Hfree; now right).
      f_equal. rewrite append_assoc. reflexivity.
Qed.

Lemma split_on_append (sep : ascii) (cur a b : string) :
  split_on sep cur (a +:+ String sep b)
  = (split_on sep cur a ++ split_on sep EmptyString b)%list.
Proof.
  revert cur. induction a as [|c a IH]; intros cur.
  - rewrite append_nil_l. cbn [split_on]. now rewrite Ascii.eqb_refl.
  - rewrite append_cons. cbn [split_on].
    destruct (Ascii.eqb c sep); rewrite IH; reflexivity.
Qed.

Lemma split_on_nonempty (sep : ascii) (cur s : string) :
  (1 <= length (split_on sep cur s))%nat.
Proof.
  revert cur. induction s as [|c s IH]; intros cur; cbn [split_on length]; [lia|].
  destruct (Ascii.eqb c sep); cbn [length]; [lia | apply IH].
Qed.

(** X6: the service name of an endpoint is its second last path segment:
    for [<path>/<service>/<last>] it is [<service>]. *)
Theorem serviceNameOf_second_last (path service last : string) :
  (forall x, In x (list_ascii_of_string service) -> x <> "/"%char) ->
  (forall x, In x (list_ascii_of_string last) -> x <> "/"%char) ->
  serviceNameOf (path +:+ "/" +:+ service +:+ "/" +:+ last) = Some service.
Proof.
  intros Hservice Hlast. unfold serviceNameOf, split.
  change ("/" +:+ service +:+ "/" +:+ last) with (String "/" (service +:+ "/" +:+ last)).
  rewrite split_on_append.
  change ("/" +:+ last) with (String "/" last).
  rewrite split_on_append, (split_on_free "/" "" service Hservice),
    (split_on_free "/" "" last Hlast), !append_nil_l.
  pose proof (split_on_nonempty "/" "" path) as Hlen.
  rewrite !length_app. cbn [length].
  destruct (Nat.leb_spec 2 (length (split_on "/" "" path) + (1 + 1))) as [_|Hlt]; [|lia].
  replace (length (split_on "/" "" path) + (1 + 1) - 2)%nat
    with (length (split_on "/" "" path) + 0)%nat by lia.
  rewrite lookup_app_r by lia.
  replace (length (split_on "/" "" path) + 0 - length (split_on "/" "" path))%nat
    with 0%nat by lia.
  reflexivity.
Qed.

Lemma serviceNameOf_second_last_witness :
  serviceNameOf ("/MediaRenderer" +:+ "/" +:+ "AVTransport" +:+ "/" +:+ "Control")
  = Some "AVTransport".
Proof.
  apply serviceNameOf_second_last; intros x Hx; intros ->; cbn in Hx;
    repeat (destruct Hx as [Hx | Hx]; [discriminate Hx|]); contradiction.
Defined.

Section ExecuteActionCalls.
Context `{Collaborators}.

Lemma require_all_inr (obj : value) (missing : string -> error) (properties : list string) :
  require_all obj missing properties = inr tt ->
  forall property, In property properties -> isValidProperty obj [property] = true.
Proof.
  induction properties as [|p ps IH]; cbn [require_all]; intros Hok property Hin.
  - contradiction.
  - destruct (isValidProperty obj [p]) eqn:Ep; cbn [negb] in Hok; [|discriminate].
    destruct Hin as [<- | Hin]; auto.
Qed.

(** A run of [executeActionV6] either stops before the transport or makes
    exactly one call and decides the result from its answer alone. *)
Lemma executeActionV6_shape (d : Device) (h : list event)
    (playerUrlOrigin endpoint actionName : string) (actionInArgs : gmap string value) :
  let run := executeActionV6 playerUrlOrigin endpoint actionName actionInArgs d h in
  let c := sendToPlayerV1 playerUrlOrigin endpoint (serviceNameOf endpoint)
                          actionName actionInArgs in
  let answer := on_sendToPlayerV1 d (h ++ [])%list playerUrlOrigin endpoint
                  (serviceNameOf endpoint) actionName actionInArgs in
  (run.1 = [] /\ exists e, run.2 = inl e) \/
  (run.1 = [(c, failure_of answer)] /\ forall e, answer = inl e -> run.2 = inl e).
Proof.
  cbn zeta. unfold executeActionV6.
  destruct (ACTIONS_TEMPLATESV6 !! endpoint ≫= (.!! actionName)) as [template|];
    [|left; split; [reflexivity | eexists; reflexivity]].
  rewrite bind_events, bind_result. cbn [lift fst snd].
  destruct (require_all (Obj actionInArgs) _ (inArgs template)) as [e|[]];
    [left; split; [reflexivity | eexists; reflexivity]|].
  right. cbn zeta. rewrite bind_events, bind_result. cbn [await fst snd app].
  destruct (on_sendToPlayerV1 d (h ++ [])%list playerUrlOrigin endpoint
              (serviceNameOf endpoint) actionName actionInArgs) as [e|response] eqn:Esend.
  - split; [reflexivity|]. intros e' E. injection E as <-. reflexivity.
  - split; [|discriminate]. cbn [failure_of]. f_equal.
    repeat first
      [ reflexivity
      | rewrite bind_events
      | rewrite bind_result
      | progress cbn [lift ret throw fst snd app]
      | match goal with
        | |- context [if ?b then _ else _] => destruct b
        | |- context [xml2js_parseStringPromise ?a ?b] =>
            destruct (xml2js_parseStringPromise a b) as [?|?]
        | |- context [require_all ?a ?b ?c] => destruct (require_all a b c) as [?|[]]
        | |- context [match outArgs template with _ => _ end] =>
            destruct (outArgs template) as [|? [|? ?]]
        end ].
Qed.

(** X7: [executeActionV6] calls the transport at most once, with the service
    name derived from the endpoint and the arguments as given; a run
    without a call throws; what the transport throws is what the run
    throws. *)
Theorem executeActionV6_single_call (d : Device) (h : list event)
    (playerUrlOrigin endpoint actionName : string) (actionInArgs : gmap string value) :
  let run := executeActionV6 playerUrlOrigin endpoint actionName actionInArgs d h in
  (run.1 = [] \/
   exists o, run.1 = [(sendToPlayerV1 playerUrlOrigin endpoint (serviceNameOf endpoint)
                                      actionName actionInArgs, o)]) /\
  (run.1 = [] -> exists e, run.2 = inl e) /\
  (forall c e, In (c, Some e) run.1 -> run.2 = inl e).
Proof.
  cbn zeta.
  destruct (executeActionV6_shape d h playerUrlOrigin endpoint actionName actionInArgs)
    as [(-> & e & ->) | (-> & Hfail)]; cbn [fst snd].
  - split; [now left|]. split; [eauto|]. intros c e' [].
  - split; [right; eauto|]. split; [discriminate|].
    intros c e [E | []]. injection E as _ E.
    destruct (on_sendToPlayerV1 d (h ++ [])%list playerUrlOrigin endpoint
                (serviceNameOf endpoint) actionName actionInArgs) as [e'|v];
      [|discriminate E].
    injection E as <-. now apply Hfail.
Qed.

End ExecuteActionCalls.

Lemma executeActionV6_single_call_witness :
  (@executeActionV6 sample_collaborators "http://192.168.178.35:1400"
     "/MediaRenderer/AVTransport/Control" "Play" sample_play_args sample_offline []).2
  = inl (Rejected "connect ECONNREFUSED")
  /\ exists e,
       (@executeActionV6 sample_collaborators "http://192.168.178.35:1400"
          "/MediaRenderer/AVTransport/Control" "Stop" sample_play_args sample_offline []).2
       = inl e.
Proof.
  split.
  - apply (proj2 (proj2 (@executeActionV6_single_call sample_collaborators sample_offline []
                           "http://192.168.178.35:1400" "/MediaRenderer/AVTransport/Control"
                           "Play" sample_play_args))
             (sendToPlayerV1 "http://192.168.178.35:1400" "/MediaRenderer/AVTransport/Control"
                             (Some "AVTransport") "Play" sample_play_args)).
    vm_compute. left. reflexivity.
  - apply (proj1 (proj2 (@executeActionV6_single_call sample_collaborators sample_offline []
                           "http://192.168.178.35:1400" "/MediaRenderer/AVTransport/Control"
                           "Stop" sample_play_args))).
    vm_compute. reflexivity.
Defined.

Section ExecuteActionSuccess.
Context `{Collaborators}.

Lemma strict_eq_num_true (v : value) (n : Z) : strict_eq_num v n = true -> v = Num n.
Proof. destruct v; cbn; try discriminate. intros E. apply Z.eqb_eq in E. now subst. Qed.

Lemma strict_eq_str_true (v : value) (s : string) : strict_eq_str v s = true -> v = Str s.
Proof. destruct v; cbn; try discriminate. intros E. apply String.eqb_eq in E. now subst. Qed.

(** X8: [executeActionV6] returns a value only if the template exists, every
    required input is present, the transport answered with status 200 (the
    number) and a body, the body parsed, its response node carries exactly
    the expected namespace, and every expected output is present in the
    node. *)
Theorem executeActionV6_returns_only_if (d : Device) (h : list event)
    (playerUrlOrigin endpoint actionName : string) (actionInArgs : gmap string value)
    (v : value) :
  (executeActionV6 playerUrlOrigin endpoint actionName actionInArgs d h).2 = inr v ->
  exists template response bodyXml,
    ACTIONS_TEMPLATESV6 !! endpoint ≫= (.!! actionName) = Some template /\
    (forall property, In property (inArgs template) ->
                      isValidProperty (Obj actionInArgs) [property] = true) /\
    on_sendToPlayerV1 d h playerUrlOrigin endpoint (serviceNameOf endpoint)
                      actionName actionInArgs = inr response /\
    get response "statusCode" = Num 200 /\
    isValidProperty response ["body"] = true /\
    xml2js_parseStringPromise (get response "body") "" = inr bodyXml /\
    let node :=
      getNestedProperty bodyXml ["s:Envelope"; "s:Body"; "u:" +:+ actionName +:+ "Response"] in
    get node "xmlns:u"
    = Str ("urn:schemas-upnp-org:service:" +:+ text_of (serviceNameOf endpoint) +:+ ":1") /\
    (forall o, In o (outArgs template) -> isValidProperty node [o] = true).
Proof.
  intros Hok. unfold executeActionV6 in Hok.
  destruct (ACTIONS_TEMPLATESV6 !! endpoint ≫= (.!! actionName)) as [template|] eqn:Et;
    [|discriminate].
  rewrite bind_result in Hok. cbn [lift fst snd] in Hok.
  destruct (require_all (Obj actionInArgs) _ (inArgs template)) as [e|[]] eqn:Ereq;
    [discriminate|].
  cbn zeta in Hok. rewrite bind_result in Hok. cbn [await fst snd] in Hok.
  rewrite app_nil_r in Hok.
  destruct (on_sendToPlayerV1 d h playerUrlOrigin endpoint (serviceNameOf endpoint)
              actionName actionInArgs) as [e|response] eqn:Esend; [discriminate|].
  destruct (isValidProperty response ["statusCode"]) eqn:E1; cbn [negb] in Hok;
    [|discriminate].
  destruct (strict_eq_num (get response "statusCode") 200) eqn:E2; cbn [negb] in Hok;
    [|discriminate].
  destruct (isValidProperty response ["body"]) eqn:E3; cbn [negb] in Hok; [|discriminate].
  rewrite bind_result in Hok. cbn [lift fst snd] in Hok.
  destruct (xml2js_parseStringPromise (get response "body") "") as [e|bodyXml] eqn:E4;
    [discriminate|].
  cbn [app] in Hok.
  destruct (isValidProperty bodyXml _) eqn:E5; cbn [negb] in Hok; [|discriminate].
  destruct (isValidProperty (getNestedProperty bodyXml _) ["xmlns:u"]) eqn:E6;
    cbn [negb] in Hok; [|discriminate].
  destruct (strict_eq_str _ _) eqn:E7; cbn [negb] in Hok; [|discriminate].
  exists template, response, bodyXml.
  repeat split; auto.
  - eapply require_all_inr; exact Ereq.
  - now apply strict_eq_num_true.
  - now apply strict_eq_str_true.
  - rewrite bind_result in Hok.
    destruct (length (outArgs template) =? 0)%nat eqn:Elen.
    + destruct (outArgs template); [intros o [] | discriminate Elen].
    + rewrite bind_result in Hok. cbn [lift fst snd] in Hok.
      destruct (require_all _ _ (outArgs template)) as [e|[]] eqn:Eout; [discriminate|].
      eapply require_all_inr; exact Eout.
Qed.

End ExecuteActionSuccess.

Lemma executeActionV6_returns_only_if_witness :
  exists template,
    Sample.templates !! "/MediaRenderer/RenderingControl/Control" ≫= (.!! "GetVolume")
    = Some template.
Proof.
  destruct (@executeActionV6_returns_only_if sample_collaborators (sample_household None None)
              [] "http://192.168.178.35:1400" "/MediaRenderer/RenderingControl/Control"
              "GetVolume" sample_volume_args (Str "25"))
    as (template & _ & _ & Ht & _).
  - vm_compute. reflexivity.
  - exists template. exact Ht.
Defined.

(** ** Items of the DIDL parser and the lists built from them *)

Lemma rmap_Forall2 {A B} (f : A -> result B) (l : list A) (l' : list B) :
  rmap f l = inr l' -> Forall2 (fun x y => f x = inr y) l l'.
Proof.
  revert l'. induction l as [|x l IH]; cbn [rmap]; intros l' E.
  - injection E as <-. constructor.
  - destruct (f x) as [e|y] eqn:Efx; cbn [rbind] in E; [discriminate|].
    destruct (rmap f l) as [e|ys]; cbn [rbind] in E; [discriminate|].
    injection E as <-. constructor; auto.
Qed.

Section DidlItems.
Context `{Collaborators}.

Lemma getMusicServiceName_registered (sid : string) :
  getMusicServiceName sid = ""
  \/ exists service,
       In service MUSIC_SERVICES /\ MusicService.sid service = sid
       /\ getMusicServiceName sid = MusicService.name service.
Proof.
  unfold getMusicServiceName. destruct (negb (String.eqb sid "")); [|now left].
  destruct (List.find _ MUSIC_SERVICES) as [service|] eqn:Efind; [|now left].
  right. exists service. apply find_some in Efind as [Hin Heq].
  apply String.eqb_eq in Heq. auto.
Qed.

Lemma isValidProperty_get (node : value) (key : string) :
  isValidProperty node [key] = true -> isTruthy (get node key) = true.
Proof.
  unfold isValidProperty, getNestedProperty. cbn [fold_left].
  destruct (truthy node); [auto | discriminate].
Qed.

Lemma didlBrowseItem_fields (tag : string) (node : value) (item : Didl.t) :
  didlBrowseItem tag node = inr item ->
  isValidProperty node ["id"] = true /\ isValidProperty node ["dc:title"] = true /\
  Didl.id item = get node "id" /\ Didl.title item = get node "dc:title" /\
  isTruthy (Didl.artist item) = true /\ isTruthy (Didl.uri item) = true /\
  isTruthy (Didl.metadata item) = true /\ isTruthy (Didl.upnpClass item) = true /\
  (forall xuri, Didl.uri item = Str xuri -> Didl.sid item = getMusicServiceId xuri) /\
  Didl.serviceName item = getMusicServiceName (Didl.sid item).
Proof.
  unfold didlBrowseItem.
  destruct (isValidProperty node ["id"]) eqn:Eid; cbn [negb]; [|discriminate].
  destruct (isValidProperty node ["dc:title"]) eqn:Etitle; cbn [negb]; [|discriminate].
  destruct (isValidProperty node ["res"; tag]) eqn:Eres.
  - destruct (get (get node "res") tag) as [| | | |xuri| |] eqn:Euri; cbn [as_string rbind];
      try discriminate.
    intros E. injection E as <-. cbn.
    repeat match goal with |- _ /\ _ => split end;
      try reflexivity; try assumption;
      try (intros x Ex; injection Ex as <-; reflexivity);
      match goal with
      | |- isTruthy (if ?b then _ else _) = true =>
          destruct b eqn:Ec; [now apply isValidProperty_get | reflexivity]
      end.
  - cbn [rbind]. intros E. injection E as <-. cbn.
    repeat match goal with |- _ /\ _ => split end;
      try reflexivity; try assumption;
      try (intros x Ex; injection Ex as <-; reflexivity);
      match goal with
      | |- isTruthy (if ?b then _ else _) = true =>
          destruct b eqn:Ec; [now apply isValidProperty_get | reflexivity]
      end.
Qed.

(** X9: a successful parse yields one item per node, in order: none when
    the document has no node of the item name, exactly one for a single
    node, and as many as the array holds otherwise. *)
Theorem didlXmlToArray_one_item_per_node (didlXml : value) (itemName : string)
    (items : list Didl.t) :
  didlXmlToArray didlXml itemName = inr items ->
  exists didlJson,
    xml2js_parseStringPromise didlXml "uriIdentifier" = inr didlJson /\
    (isValidProperty didlJson ["DIDL-Lite"; itemName] = false -> items = []) /\
    (isValidProperty didlJson ["DIDL-Lite"; itemName] = true ->
     forall nodes, get (get didlJson "DIDL-Lite") itemName = Arr nodes ->
       Forall2 (fun node item => didlBrowseItem "uriIdentifier" node = inr item) nodes items) /\
    (isValidProperty didlJson ["DIDL-Lite"; itemName] = true ->
     isArray (get (get didlJson "DIDL-Lite") itemName) = false ->
     exists item,
       items = [item] /\
       didlBrowseItem "uriIdentifier" (get (get didlJson "DIDL-Lite") itemName) = inr item).
Proof.
  unfold didlXmlToArray.
  destruct (negb (isTruthyAndNotEmptyString didlXml)); [discriminate|].
  destruct (negb (isTruthyAndNotEmptyString (Str itemName))); [discriminate|].
  destruct (xml2js_parseStringPromise didlXml "uriIdentifier") as [e|didlJson];
    cbn [rbind]; [discriminate|].
  destruct (negb (isTruthyAndNotEmptyString didlJson)); [discriminate|].
  intros E. exists didlJson. split; [reflexivity|].
  destruct (isValidProperty didlJson ["DIDL-Lite"; itemName]).
  - split; [discriminate|]. split.
    + intros _ nodes Hnodes. rewrite Hnodes in E. now apply rmap_Forall2.
    + intros _ Hsingle.
      destruct (get (get didlJson "DIDL-Lite") itemName) eqn:Enode; try discriminate Hsingle;
        cbn [rmap rbind] in E;
        match type of E with
        | context [didlBrowseItem ?t ?n] =>
            destruct (didlBrowseItem t n) as [e|item]; cbn [rbind] in E; [discriminate|]
        end; injection E as <-; eauto.
  - cbn [rmap] in E. injection E as <-.
    split; [reflexivity|]. split; discriminate.
Qed.

(** X10: every item of a successful parse has an id and a title taken from
    a node that has both; artist, uri, metadata and class are never
    undefined or null; sid is the service id of the uri and serviceName the
    registered name of that sid or empty. *)
Theorem didlXmlToArray_item_fields (didlXml : value) (itemName : string)
    (items : list Didl.t) (item : Didl.t) :
  didlXmlToArray didlXml itemName = inr items -> In item items ->
  isTruthy (Didl.id item) = true /\ isTruthy (Didl.title item) = true /\
  isTruthy (Didl.artist item) = true /\ isTruthy (Didl.uri item) = true /\
  isTruthy (Didl.metadata item) = true /\ isTruthy (Didl.upnpClass item) = true /\
  (forall xuri, Didl.uri item = Str xuri -> Didl.sid item = getMusicServiceId xuri) /\
  (Didl.serviceName item = "" \/
   exists service,
     In service MUSIC_SERVICES /\ MusicService.sid service = Didl.sid item
     /\ Didl.serviceName item = MusicService.name service) /\
  Didl.radioId item = None.
Proof.
  intros E Hin. unfold didlXmlToArray in E.
  destruct (negb (isTruthyAndNotEmptyString didlXml)); [discriminate|].
  destruct (negb (isTruthyAndNotEmptyString (Str itemName))); [discriminate|].
  destruct (xml2js_parseStringPromise didlXml "uriIdentifier") as [e|didlJson];
    cbn [rbind] in E; [discriminate|].
  destruct (negb (isTruthyAndNotEmptyString didlJson)); [discriminate|].
  destruct (rmap_inr_In _ _ _ _ E Hin) as (node & _ & Hnode).
  pose proof (didlBrowseItem_fields _ _ _ Hnode)
    as (Hid & Htitle & Eid & Etitle & Ha & Hu & Hm & Hc & Hsid & Hname).
  assert (Didl.radioId item = None) as Hradio.
  { unfold didlBrowseItem in Hnode.
    repeat match type of Hnode with
           | context [if ?b then _ else _] => destruct b; cbn [negb rbind] in Hnode
           | context [as_string ?v] => destruct (as_string v); cbn [rbind] in Hnode
           end; try discriminate; injection Hnode as <-; reflexivity. }
  repeat split; auto.
  - rewrite Eid. now apply isValidProperty_get.
  - rewrite Etitle. now apply isValidProperty_get.
  - rewrite Hname. destruct (getMusicServiceName_registered (Didl.sid item)); auto.
Qed.

End DidlItems.

Lemma didlXmlToArray_one_item_per_node_witness :
  exists item,
    [sample_station] = [item]
    /\ @didlBrowseItem sample_collaborators "uriIdentifier" (Sample.favourite "uriIdentifier")
       = inr item.
Proof.
  destruct (@didlXmlToArray_one_item_per_node sample_collaborators
              (Str "<DIDL-Lite><item/></DIDL-Lite>") "item" [sample_station])
    as (didlJson & Hparse & _ & _ & Hsingle).
  - vm_compute. reflexivity.
  - vm_compute in Hparse. injection Hparse as <-.
    apply Hsingle; vm_compute; reflexivity.
Defined.

Lemma didlXmlToArray_item_fields_witness :
  Didl.sid sample_station
  = getMusicServiceId "x-sonosapi-stream:s24903?sid=254&flags=8224&sn=0"
  /\ Didl.radioId sample_station = None.
Proof.
  pose proof (@didlXmlToArray_item_fields sample_collaborators
                (Str "<DIDL-Lite><item/></DIDL-Lite>") "item" [sample_station]
                sample_station ltac:(vm_compute; reflexivity) ltac:(left; reflexivity))
    as (_ & _ & _ & _ & _ & _ & Hsid & _ & Hradio).
  split; [apply Hsid; reflexivity | exact Hradio].
Defined.

Section ListCommands.
Context `{Collaborators}.

Lemma withPlayerOrigin_defined (playerUrlOrigin : string) (item : Didl.t) :
  isTruthy (withPlayerOrigin playerUrlOrigin item) = true.
Proof.
  unfold withPlayerOrigin.
  destruct (isTruthyAndNotEmptyString (Didl.artUri item)) eqn:E; [|reflexivity].
  destruct (Didl.artUri item); try reflexivity; try discriminate E.
  now destruct (startsWith _ _).
Qed.

Lemma mySonosItem_processingType (playerUrlOrigin : string) (item item' : Didl.t) :
  mySonosItem playerUrlOrigin item = inr item' ->
  (Didl.processingType item' = "stream" \/ Didl.processingType item' = "queue"
   \/ Didl.processingType item' = "unsupported")
  /\ isTruthy (Didl.artUri item') = true.
Proof.
  unfold mySonosItem.
  destruct (if isTruthy (Didl.uri item) then _ else _) as [e|radio]; cbn [rbind];
    [discriminate|].
  destruct (if isTruthy (Didl.metadata item) then _ else _) as [e|cls]; cbn [rbind];
    [discriminate|].
  intros E. injection E as <-. cbn [Didl.processingType Didl.artUri].
  split; [|apply withPlayerOrigin_defined].
  repeat match goal with
         | |- context [if ?b then _ else _] => destruct b
         end; auto.
Qed.

Lemma NumberReturned_valid (browse : value) (count : string) :
  get browse "NumberReturned" = Str count ->
  isValidPropertyNotEmptyString browse ["NumberReturned"]
  = negb (String.eqb count "").
Proof.
  intros Hcount.
  unfold isValidPropertyNotEmptyString, getNestedProperty. cbn [fold_left].
  destruct (truthy browse) eqn:Etruthy.
  - rewrite Hcount. reflexivity.
  - destruct browse; try discriminate Etruthy; discriminate Hcount.
Qed.

Lemma getSonosPlaylistsV2_items (playerUrlOrigin : string) (d : Device) (h : list event)
    (items : list Didl.t) (item : Didl.t) :
  (getSonosPlaylistsV2 playerUrlOrigin d h).2 = inr items -> In item items ->
  Didl.processingType item = "queue" /\ isTruthy (Didl.artUri item) = true.
Proof.
  unfold getSonosPlaylistsV2. rewrite bind_result.
  destruct (executeActionV6 _ _ _ _ d h).2 as [e|browse]; [discriminate|].
  destruct (negb (isValidPropertyNotEmptyString browse ["NumberReturned"]));
    [discriminate|].
  destruct (negb (strict_eq_str (get browse "NumberReturned") "0")).
  - destruct (negb (isValidPropertyNotEmptyString browse ["Result"])); [discriminate|].
    rewrite bind_result. cbn [lift fst snd].
    destruct (didlXmlToArray (get browse "Result") "container") as [e|parsed];
      [discriminate|].
    cbn [ret snd]. intros E Hin. injection E as <-.
    apply in_map_iff in Hin as (raw & <- & _). cbn.
    split; [reflexivity | apply withPlayerOrigin_defined].
  - cbn [ret snd]. intros E. injection E as <-. intros [].
Qed.

(** X11: every item of the SONOS queue and of the SONOS playlists has the
    handling mode "queue" and an art URI that is never undefined or null;
    when the player reports '0' items the result is the empty list and the
    Result output is not looked at. *)
Theorem queue_and_playlists_items (playerUrlOrigin : string) (d : Device) (h : list event) :
  (forall items item,
      (getQueueV2 playerUrlOrigin d h).2 = inr items -> In item items ->
      Didl.processingType item = "queue" /\ isTruthy (Didl.artUri item) = true) /\
  (forall items item,
      (getSonosPlaylistsV2 playerUrlOrigin d h).2 = inr items -> In item items ->
      Didl.processingType item = "queue" /\ isTruthy (Didl.artUri item) = true) /\
  (forall browse,
      (executeActionV6 playerUrlOrigin "/MediaServer/ContentDirectory/Control" "Browse"
                       (browseArgs "Q:0" 200) d h).2 = inr browse ->
      get browse "NumberReturned" = Str "0" ->
      (getQueueV2 playerUrlOrigin d h).2 = inr []) /\
  (forall browse,
      (executeActionV6 playerUrlOrigin "/MediaServer/ContentDirectory/Control" "Browse"
                       (browseArgs "SQ:" 999) d h).2 = inr browse ->
      get browse "NumberReturned" = Str "0" ->
      (getSonosPlaylistsV2 playerUrlOrigin d h).2 = inr []).
Proof.
  split; [|split; [|split]].
  - intros items item. unfold getQueueV2. rewrite bind_result.
    destruct (executeActionV6 _ _ _ _ d h).2 as [e|browse]; [discriminate|].
    destruct (negb (isValidPropertyNotEmptyString browse ["NumberReturned"]));
      [discriminate|].
    destruct (negb (strict_eq_str (get browse "NumberReturned") "0")).
    + destruct (negb (isValidPropertyNotEmptyString browse ["Result"])); [discriminate|].
      rewrite bind_result. cbn [lift fst snd].
      destruct (didlXmlToArray (get browse "Result") "item") as [e|parsed];
        [discriminate|].
      cbn [ret snd]. intros E Hin. injection E as <-.
      apply in_map_iff in Hin as (raw & <- & _). cbn.
      split; [reflexivity | apply withPlayerOrigin_defined].
    + cbn [ret snd]. intros E. injection E as <-. intros [].
  - intros items item. apply getSonosPlaylistsV2_items.
  - intros browse Hbrowse Hzero. unfold getQueueV2. rewrite bind_result.
    destruct (executeActionV6 _ _ _ _ d h).2 as [e|answer] eqn:Eanswer.
    + discriminate Hbrowse.
    + injection Hbrowse as ->.
      rewrite (NumberReturned_valid _ _ Hzero), Hzero. reflexivity.
  - intros browse Hbrowse Hzero. unfold getSonosPlaylistsV2. rewrite bind_result.
    destruct (executeActionV6 _ _ _ _ d h).2 as [e|answer] eqn:Eanswer.
    + discriminate Hbrowse.
    + injection Hbrowse as ->.
      rewrite (NumberReturned_valid _ _ Hzero), Hzero. reflexivity.
Qed.

(** X12: every item [getMySonosV3] returns has a handling mode out of
    "stream", "queue" and "unsupported", never the empty one, and an art
    URI that is never undefined or null; when the player reports '0'
    favourites the call throws instead of returning an empty list. *)
Theorem getMySonosV3_items (playerUrlOrigin : string) (d : Device) (h : list event) :
  (forall items item,
      (getMySonosV3 playerUrlOrigin d h).2 = inr items -> In item items ->
      (Didl.processingType item = "stream" \/ Didl.processingType item = "queue"
       \/ Didl.processingType item = "unsupported")
      /\ isTruthy (Didl.artUri item) = true) /\
  (forall browse,
      (executeActionV6 playerUrlOrigin "/MediaServer/ContentDirectory/Control" "Browse"
                       (browseArgs "FV:2" 200) d h).2 = inr browse ->
      get browse "NumberReturned" = Str "0" ->
      (getMySonosV3 playerUrlOrigin d h).2
      = inl (Error (NRCSP_ERRORPREFIX
                    +:+ " Could not find any My Sonos item (please add at least one)"))).
Proof.
  split.
  - intros items item. unfold getMySonosV3. rewrite bind_result.
    destruct (executeActionV6 _ _ _ _ d h).2 as [e|browse]; [discriminate|].
    destruct (negb (isValidPropertyNotEmptyString browse ["NumberReturned"]));
      [discriminate|].
    destruct (strict_eq_str (get browse "NumberReturned") "0"); [discriminate|].
    rewrite bind_result. cbn [lift fst snd].
    destruct (didlXmlToArray (get browse "Result") "item") as [e|parsed]; [discriminate|].
    rewrite bind_result. cbn [lift fst snd].
    destruct (rmap (mySonosItem playerUrlOrigin) parsed) as [e|mine] eqn:Emine;
      [discriminate|].
    rewrite bind_result.
    destruct (getSonosPlaylistsV2 playerUrlOrigin d _).2 as [e|lists] eqn:Elists;
      [discriminate|].
    cbn [ret snd]. intros E Hin. injection E as <-.
    apply in_app_iff in Hin as [Hin | Hin].
    + destruct (rmap_inr_In _ _ _ _ Emine Hin) as (raw & _ & Hraw).
      eapply mySonosItem_processingType; exact Hraw.
    + destruct (getSonosPlaylistsV2_items _ _ _ _ _ Elists Hin) as [-> Hart]. auto.
  - intros browse Hbrowse Hzero. unfold getMySonosV3. rewrite bind_result.
    destruct (executeActionV6 _ _ _ _ d h).2 as [e|answer] eqn:Eanswer.
    + discriminate Hbrowse.
    + injection Hbrowse as ->.
      rewrite (NumberReturned_valid _ _ Hzero), Hzero. reflexivity.
Qed.

End ListCommands.

Section ListCommandCalls.
Context `{Collaborators}.


Lemma executeActionV6_events (d : Device) (h : list event)
    (playerUrlOrigin endpoint actionName : string) (actionInArgs : gmap string value) :
  let run := executeActionV6 playerUrlOrigin endpoint actionName actionInArgs d h in
  let c := sendToPlayerV1 playerUrlOrigin endpoint (serviceNameOf endpoint)
                          actionName actionInArgs in
  (run.1 = [] /\ exists e, run.2 = inl e) \/
  (exists e, run.1 = [(c, Some e)] /\ run.2 = inl e) \/
  (run.1 = [(c, None)]).
Proof.
  cbn zeta.
  destruct (executeActionV6_shape d h playerUrlOrigin endpoint actionName actionInArgs)
    as [Hnone | (Hev & Hfail)]; cbn zeta in *; [now left|].
  right. rewrite Hev.
  destruct (on_sendToPlayerV1 d (h ++ [])%list playerUrlOrigin endpoint
              (serviceNameOf endpoint) actionName actionInArgs) as [e|response].
  - left. exists e. split; [reflexivity|]. now apply Hfail.
  - now right.
Qed.

Lemma getSonosPlaylistsV2_events (playerUrlOrigin : string) (d : Device) (h : list event) :
  let run := getSonosPlaylistsV2 playerUrlOrigin d h in
  let c := sendToPlayerV1 playerUrlOrigin "/MediaServer/ContentDirectory/Control"
             (Some "ContentDirectory") "Browse" (browseArgs "SQ:" 999) in
  (run.1 = [] /\ exists e, run.2 = inl e) \/
  (exists e, run.1 = [(c, Some e)] /\ run.2 = inl e) \/
  (run.1 = [(c, None)]).
Proof.
  cbn zeta. unfold getSonosPlaylistsV2. rewrite bind_events, bind_result.
  destruct (executeActionV6_events d h playerUrlOrigin
              "/MediaServer/ContentDirectory/Control" "Browse" (browseArgs "SQ:" 999))
    as [(-> & e & ->) | [(e & -> & ->) | ->]].
  - left. split; [reflexivity | eauto].
  - right. left. exists e. split; reflexivity.
  - right. right. change (serviceNameOf "/MediaServer/ContentDirectory/Control")
      with (Some "ContentDirectory").
    destruct (executeActionV6 _ _ _ _ d h).2 as [e|browse]; [reflexivity|].
    cbn [app]. f_equal.
    repeat match goal with
           | |- context [if ?b then _ else _] => destruct b
           end; try reflexivity.
    rewrite bind_events. cbn [lift fst snd app].
    now destruct (didlXmlToArray _ _).
Qed.

(** X13: the list commands only ever send the Browse action to the
    ContentDirectory service of the given player: the queue command at most
    once for Q:0, the playlist command at most once for SQ:, and the My
    Sonos command for FV:2 and then, only after the favourites were
    answered, for SQ:.  A Browse that fails is not repeated: its error is
    what the command throws. *)
Theorem list_commands_calls (playerUrlOrigin : string) (d : Device) (h : list event) :
  let browse objectId requestedCount :=
    sendToPlayerV1 playerUrlOrigin "/MediaServer/ContentDirectory/Control"
      (Some "ContentDirectory") "Browse" (browseArgs objectId requestedCount) in
  let queue := getQueueV2 playerUrlOrigin d h in
  let playlists := getSonosPlaylistsV2 playerUrlOrigin d h in
  let mySonos := getMySonosV3 playerUrlOrigin d h in
  (queue.1 = [] \/ exists o, queue.1 = [(browse "Q:0" 200, o)]) /\
  (playlists.1 = [] \/ exists o, playlists.1 = [(browse "SQ:" 999, o)]) /\
  (mySonos.1 = [] \/ (exists o, mySonos.1 = [(browse "FV:2" 200, o)])
   \/ exists o, mySonos.1 = [(browse "FV:2" 200, None); (browse "SQ:" 999, o)]) /\
  (forall c e, In (c, Some e) queue.1 -> queue.2 = inl e) /\
  (forall c e, In (c, Some e) playlists.1 -> playlists.2 = inl e) /\
  (forall c e, In (c, Some e) mySonos.1 -> mySonos.2 = inl e).
Proof.
  cbn zeta.
  assert (let run := getQueueV2 playerUrlOrigin d h in
          let c := sendToPlayerV1 playerUrlOrigin "/MediaServer/ContentDirectory/Control"
                     (Some "ContentDirectory") "Browse" (browseArgs "Q:0" 200) in
          (run.1 = [] /\ exists e, run.2 = inl e) \/
          (exists e, run.1 = [(c, Some e)] /\ run.2 = inl e) \/
          (run.1 = [(c, None)])) as Hqueue.
  { cbn zeta. unfold getQueueV2. rewrite bind_events, bind_result.
    destruct (executeActionV6_events d h playerUrlOrigin
                "/MediaServer/ContentDirectory/Control" "Browse" (browseArgs "Q:0" 200))
      as [(-> & e & ->) | [(e & -> & ->) | ->]].
    - left. split; [reflexivity | eauto].
    - right. left. exists e. split; reflexivity.
    - right. right. change (serviceNameOf "/MediaServer/ContentDirectory/Control")
        with (Some "ContentDirectory").
      destruct (executeActionV6 _ _ _ _ d h).2 as [e|answer]; [reflexivity|].
      cbn [app]. f_equal.
      repeat match goal with
             | |- context [if ?b then _ else _] => destruct b
             end; try reflexivity.
      rewrite bind_events. cbn [lift fst snd app].
      now destruct (didlXmlToArray _ _). }
  assert (let run := getMySonosV3 playerUrlOrigin d h in
          let first := sendToPlayerV1 playerUrlOrigin "/MediaServer/ContentDirectory/Control"
                         (Some "ContentDirectory") "Browse" (browseArgs "FV:2" 200) in
          let second := sendToPlayerV1 playerUrlOrigin "/MediaServer/ContentDirectory/Control"
                          (Some "ContentDirectory") "Browse" (browseArgs "SQ:" 999) in
          (run.1 = [] /\ exists e, run.2 = inl e) \/
          (exists e, run.1 = [(first, Some e)] /\ run.2 = inl e) \/
          (run.1 = [(first, None)]) \/
          (exists e, run.1 = [(first, None); (second, Some e)] /\ run.2 = inl e) \/
          (run.1 = [(first, None); (second, None)])) as HmySonos.
  { cbn zeta. unfold getMySonosV3. rewrite bind_events, bind_result.
    destruct (executeActionV6_events d h playerUrlOrigin
                "/MediaServer/ContentDirectory/Control" "Browse" (browseArgs "FV:2" 200))
      as [(-> & e & ->) | [(e & -> & ->) | ->]].
    - left. split; [reflexivity | eauto].
    - right. left. exists e. split; reflexivity.
    - right. right. change (serviceNameOf "/MediaServer/ContentDirectory/Control")
        with (Some "ContentDirectory").
      destruct (executeActionV6 _ _ _ _ d h).2 as [e|answer]; [now left|].
      cbn [app].
      destruct (negb (isValidPropertyNotEmptyString answer ["NumberReturned"]));
        [now left|].
      destruct (strict_eq_str (get answer "NumberReturned") "0"); [now left|].
      rewrite bind_events, bind_result. cbn [lift fst snd app].
      destruct (didlXmlToArray _ _) as [e|parsed]; [now left|].
      rewrite bind_events, bind_result. cbn [lift fst snd app].
      destruct (rmap _ _) as [e|mine]; [now left|].
      rewrite bind_events, bind_result.
      match goal with
      | |- context [getSonosPlaylistsV2 playerUrlOrigin d ?h'] =>
          destruct (getSonosPlaylistsV2_events playerUrlOrigin d h')
            as [(-> & e & ->) | [(e & -> & ->) | ->]]
      end.
      + now left.
      + right. left. exists e. split; reflexivity.
      + right. right.
        match goal with
        | |- context [(getSonosPlaylistsV2 playerUrlOrigin d ?h').2] =>
            destruct (getSonosPlaylistsV2 playerUrlOrigin d h').2
        end; reflexivity. }
  pose proof (getSonosPlaylistsV2_events playerUrlOrigin d h) as Hplaylists.
  cbn zeta in *.
  repeat match goal with |- _ /\ _ => split end.
  - destruct Hqueue as [(-> & _) | [(e & -> & _) | ->]]; eauto.
  - destruct Hplaylists as [(-> & _) | [(e & -> & _) | ->]]; eauto.
  - destruct HmySonos as [(-> & _) | [(e & -> & _) | [-> | [(e & -> & _) | ->]]]]; eauto.
  - intros c e Hin.
    destruct Hqueue as [(E & _) | [(e' & E & ->) | E]]; rewrite E in Hin; cbn in Hin;
      intuition congruence.
  - intros c e Hin.
    destruct Hplaylists as [(E & _) | [(e' & E & ->) | E]]; rewrite E in Hin; cbn in Hin;
      intuition congruence.
  - intros c e Hin.
    destruct HmySonos as [(E & _) | [(e' & E & ->) | [E | [(e' & E & ->) | E]]]];
      rewrite E in Hin; cbn in Hin; intuition congruence.
Qed.

End ListCommandCalls.

Lemma queue_and_playlists_items_witness :
  (Didl.processingType library_track = "queue"
   /\ isTruthy (Didl.artUri library_track) = true)
  /\ (@getQueueV2 sample_collaborators "http://192.168.178.35:1400"
        (sample_household None None) []).2 = inr [].
Proof.
  destruct (@queue_and_playlists_items library_collaborators "http://192.168.178.35:1400"
              sample_library []) as (Hqueue & _).
  destruct (@queue_and_playlists_items sample_collaborators "http://192.168.178.35:1400"
              (sample_household None None) []) as (_ & _ & Hempty & _).
  split.
  - apply (Hqueue [library_track] library_track);
      [vm_compute; reflexivity | left; reflexivity].
  - apply (Hempty sample_empty_browse); vm_compute; reflexivity.
Defined.

Lemma getMySonosV3_items_witness :
  ((Didl.processingType library_favourite = "stream"
    \/ Didl.processingType library_favourite = "queue"
    \/ Didl.processingType library_favourite = "unsupported")
   /\ isTruthy (Didl.artUri library_favourite) = true)
  /\ (@getMySonosV3 sample_collaborators "http://192.168.178.35:1400"
        (sample_household None None) []).2
     = inl (Error "nrcsp: Could not find any My Sonos item (please add at least one)").
Proof.
  destruct (@getMySonosV3_items library_collaborators "http://192.168.178.35:1400"
              sample_library []) as (Hitems & _).
  destruct (@getMySonosV3_items sample_collaborators "http://192.168.178.35:1400"
              (sample_household None None) []) as (_ & Hempty).
  split.
  - apply (Hitems [library_favourite; library_playlist] library_favourite);
      [vm_compute; reflexivity | left; reflexivity].
  - apply (Hempty sample_empty_browse); vm_compute; reflexivity.
Defined.

Lemma list_commands_calls_witness :
  (@getQueueV2 sample_collaborators "http://192.168.178.35:1400" sample_offline []).2
  = inl (Rejected "connect ECONNREFUSED").
Proof.
  apply (proj1 (proj2 (proj2 (proj2
           (@list_commands_calls sample_collaborators "http://192.168.178.35:1400"
              sample_offline []))))
           (sendToPlayerV1 "http://192.168.178.35:1400"
              "/MediaServer/ContentDirectory/Control" (Some "ContentDirectory") "Browse"
              (@browseArgs "Q:0" 200))
           (Rejected "connect ECONNREFUSED")).
  vm_compute. left. reflexivity.
Defined.

(** ** The topology commands *)


Section TopologyInvariants.
Context `{Collaborators}.

(** The flag [sortedGroupArray] stores for a zone member is true exactly
    when the member's Invisible attribute is '1'. *)
Lemma invisible_value (flag : option string) :
  (if truthy (optional_string flag) then strict_eq_str (optional_string flag) "1" else false)
  = match flag with Some s => String.eqb s "1" | None => false end.
Proof.
  destruct flag as [s|]; cbn; [|reflexivity].
  destruct (String.eqb_spec s "1") as [->|Hne]; [reflexivity|].
  now destruct (negb (String.eqb s "")).
Qed.

(** The loop of [sortedGroupArray], entry by entry: the members located
    elsewhere are appended in order, the last member located at the
    coordinator's hostname overwrites name, uuid and flag of the first
    entry. *)
Lemma sortedGroupLoop_exact (coordinatorUrlHostname : string)
    (zoneMembers : list ZoneGroupMember) (first : Member.t) (others l : list Member.t) :
  sortedGroupLoop coordinatorUrlHostname zoneMembers first others = inr l ->
  exists urls,
    Forall2 (fun m url => new_URL (Location m) = inr url) zoneMembers urls /\
    let located := combine zoneMembers urls in
    let atHost := fun p : ZoneGroupMember * URL.t =>
                    String.eqb (URL.hostname p.2) coordinatorUrlHostname in
    let flag := fun m => match Invisible m with Some s => String.eqb s "1" | None => false end in
    l = match last (List.filter atHost located) with
        | Some p => {| Member.urlHostname := Member.urlHostname first;
                       Member.urlPort := Member.urlPort first;
                       Member.baseUrl := Member.baseUrl first;
                       Member.sonosName := Some (ZoneName p.1);
                       Member.uuid := Some (UUID p.1);
                       Member.invisible := Some (flag p.1) |}
        | None => first
        end
        :: (others
            ++ map (fun p => {| Member.urlHostname := URL.hostname p.2;
                                Member.urlPort := URL.port p.2;
                                Member.baseUrl := "http://" +:+ URL.hostname p.2
                                                  +:+ ":" +:+ URL.port p.2;
                                Member.sonosName := Some (ZoneName p.1);
                                Member.uuid := Some (UUID p.1);
                                Member.invisible := Some (flag p.1) |})
                   (List.filter (fun p => negb (atHost p)) located))%list.
Proof.
  revert first others l.
  induction zoneMembers as [|m zm IH]; intros first others l E.
  - cbn in E. injection E as <-. exists []. split; [constructor|].
    cbn. now rewrite app_nil_r.
  - cbn [sortedGroupLoop] in E.
    destruct (new_URL (Location m)) as [e|url] eqn:Eurl; cbn [rbind] in E; [discriminate|].
    rewrite invisible_value in E.
    destruct (String.eqb (URL.hostname url) coordinatorUrlHostname) eqn:Ehost;
      cbn [negb] in E.
    + destruct (IH _ _ _ E) as (urls & Hurls & ->). clear IH E.
      exists (url :: urls). split; [now constructor|].
      cbn zeta. cbn [combine List.filter fst snd]. rewrite Ehost. cbn [negb].
      rewrite last_cons. cbn [Member.urlHostname Member.urlPort Member.baseUrl].
      now destruct (last _).
    + destruct (IH _ _ _ E) as (urls & Hurls & ->). clear IH E.
      exists (url :: urls). split; [now constructor|].
      cbn zeta. cbn [combine List.filter fst snd]. rewrite Ehost. cbn [negb map fst snd].
      now rewrite <- app_assoc.
Qed.


(** X14: [sortedGroupArray] refuses an index outside the array.  Otherwise
    every zone member of the group has a readable Location, and the array
    is exactly this: first one entry with the group's host and port, which
    carries name, uuid and flag of the last member located at the group's
    host, or none of the three when no member is located there; behind it
    one entry for each member located at another host, in the order of the
    topology, with the address read from the member's Location, its name,
    its uuid and the flag invisible, which is true exactly when the
    member's Invisible attribute is '1'. *)
Theorem sortedGroupArray_entries (allGroupsData : list ZoneGroup) (groupIndex : Z) :
  ((groupIndex < 0 \/ Z.of_nat (length allGroupsData) <= groupIndex) ->
   sortedGroupArray allGroupsData groupIndex
   = inl (Error (NRCSP_ERRORPREFIX +:+ " index is out of range"))) /\
  (forall sorted,
     sortedGroupArray allGroupsData groupIndex = inr sorted ->
     exists group urls,
       0 <= groupIndex < Z.of_nat (length allGroupsData) /\
       allGroupsData !! Z.to_nat groupIndex = Some group /\
       Forall2 (fun m url => new_URL (Location m) = inr url) (ZoneGroupMember_ group) urls /\
       let located := combine (ZoneGroupMember_ group) urls in
       let atHost := fun p : ZoneGroupMember * URL.t =>
                       String.eqb (URL.hostname p.2) (host group) in
       let flag := fun m => match Invisible m with Some s => String.eqb s "1" | None => false end in
       let lastAtHost := last (List.filter atHost located) in
       sorted
       = {| Member.urlHostname := host group;
            Member.urlPort := port group;
            Member.baseUrl := "http://" +:+ host group +:+ ":" +:+ port group;
            Member.sonosName := option_map (fun p => ZoneName p.1) lastAtHost;
            Member.uuid := option_map (fun p => UUID p.1) lastAtHost;
            Member.invisible := option_map (fun p => flag p.1) lastAtHost |}
         :: map (fun p => {| Member.urlHostname := URL.hostname p.2;
                             Member.urlPort := URL.port p.2;
                             Member.baseUrl := "http://" +:+ URL.hostname p.2
                                               +:+ ":" +:+ URL.port p.2;
                             Member.sonosName := Some (ZoneName p.1);
                             Member.uuid := Some (UUID p.1);
                             Member.invisible := Some (flag p.1) |})
                (List.filter (fun p => negb (atHost p)) located)).
Proof.
  unfold sortedGroupArray. split.
  - intros Hrange.
    destruct (Z.ltb_spec groupIndex 0) as [_|Hlow]; [reflexivity|].
    destruct (Z.leb_spec (Z.of_nat (length allGroupsData)) groupIndex) as [_|Hhigh];
      [reflexivity | lia].
  - intros sorted E.
    destruct (Z.ltb_spec groupIndex 0) as [|Hlow]; [discriminate|].
    destruct (Z.leb_spec (Z.of_nat (length allGroupsData)) groupIndex) as [|Hhigh];
      [discriminate|].
    cbn [orb] in E.
    destruct (allGroupsData !! Z.to_nat groupIndex) as [group|] eqn:Egroup; [|discriminate].
    apply sortedGroupLoop_exact in E as (urls & Hurls & ->).
    exists group, urls. split; [lia|]. split; [reflexivity|]. split; [exact Hurls|].
    cbn zeta. cbn [app Member.urlHostname Member.urlPort Member.baseUrl].
    now destruct (last _).
Qed.






End TopologyInvariants.

Section PlayerList.
Context `{Collaborators}.

Lemma listGroupMembers_entries (group : ZoneGroup) (groupIndex : nat)
    (zoneMembers : list ZoneGroupMember) (players : list ListedPlayer.t) :
  listGroupMembers group groupIndex zoneMembers = inr players ->
  (forall player, In player players ->
     exists m url,
       In m zoneMembers /\ new_URL (Location m) = inr url /\
       ListedPlayer.sonosName player = ZoneName m /\
       ListedPlayer.uuid player = UUID m /\
       ListedPlayer.urlHostname player = URL.hostname url /\
       ListedPlayer.urlPort player = URL.port url /\
       ListedPlayer.baseUrl player
       = "http://" +:+ URL.hostname url +:+ ":" +:+ URL.port url /\
       ListedPlayer.isCoordinator player = String.eqb (Coordinator group) (UUID m) /\
       ListedPlayer.groupIndex player = groupIndex) /\
  (forall m, In m zoneMembers -> Invisible m = None ->
     exists player, In player players /\ ListedPlayer.uuid player = UUID m
                    /\ ListedPlayer.sonosName player = ZoneName m) /\
  (length players <= length zoneMembers)%nat.
Proof.
  revert players. induction zoneMembers as [|m zm IH]; intros players; cbn [listGroupMembers].
  - intros E. injection E as <-. repeat split; [intros player [] | intros m [] | cbn; lia].
  - destruct (match Invisible m with Some flag => truthy (Str flag) | None => true end)
      eqn:Evisible.
    + destruct (new_URL (Location m)) as [e|url] eqn:Eurl; cbn [rbind]; [discriminate|].
      destruct (listGroupMembers group groupIndex zm) as [e|tail]; cbn [rbind];
        [discriminate|].
      destruct (IH tail eq_refl) as (Hsound & Hcomplete & Hlength).
      intros E. injection E as <-. split; [|split].
      * intros player [<- | Hin].
        -- exists m, url. cbn. repeat split; auto.
        -- destruct (Hsound player Hin) as (m' & url' & Hin' & Hrest).
           exists m', url'. split; [now right | exact Hrest].
      * intros m' [<- | Hin] Hflag.
        -- eexists. split; [left; reflexivity|]. cbn. auto.
        -- destruct (Hcomplete m' Hin Hflag) as (player & Hplayer & Hrest).
           exists player. split; [now right | exact Hrest].
      * cbn [length]. lia.
    + intros E. destruct (IH players E) as (Hsound & Hcomplete & Hlength).
      split; [|split].
      * intros player Hin. destruct (Hsound player Hin) as (m' & url' & Hin' & Hrest).
        exists m', url'. split; [now right | exact Hrest].
      * intros m' [<- | Hin] Hflag.
        -- rewrite Hflag in Evisible. discriminate Evisible.
        -- apply Hcomplete; assumption.
      * cbn [length]. lia.
Qed.

Lemma listGroups_entries (groups : list ZoneGroup) (start : nat)
    (players : list ListedPlayer.t) :
  listGroups groups start = inr players ->
  (forall player, In player players ->
     exists offset group m url,
       ListedPlayer.groupIndex player = (start + offset)%nat /\
       groups !! offset = Some group /\
       In m (ZoneGroupMember_ group) /\ new_URL (Location m) = inr url /\
       ListedPlayer.sonosName player = ZoneName m /\
       ListedPlayer.uuid player = UUID m /\
       ListedPlayer.urlHostname player = URL.hostname url /\
       ListedPlayer.urlPort player = URL.port url /\
       ListedPlayer.baseUrl player
       = "http://" +:+ URL.hostname url +:+ ":" +:+ URL.port url /\
       ListedPlayer.isCoordinator player = String.eqb (Coordinator group) (UUID m)) /\
  (forall offset group m,
     groups !! offset = Some group -> In m (ZoneGroupMember_ group) -> Invisible m = None ->
     exists player, In player players /\ ListedPlayer.uuid player = UUID m
                    /\ ListedPlayer.sonosName player = ZoneName m
                    /\ ListedPlayer.groupIndex player = (start + offset)%nat).
Proof.
  revert start players. induction groups as [|g rest IH]; intros start players;
    cbn [listGroups].
  - intros E. injection E as <-. split; [intros player [] | intros offset group m Hg].
    discriminate Hg.
  - destruct (listGroupMembers g start (ZoneGroupMember_ g)) as [e|here] eqn:Ehere;
      cbn [rbind]; [discriminate|].
    destruct (listGroups rest (S start)) as [e|there] eqn:Ethere; cbn [rbind];
      [discriminate|].
    intros E. injection E as <-.
    apply listGroupMembers_entries in Ehere as (Hsound & Hcomplete & _).
    destruct (IH _ _ Ethere) as (Hsound' & Hcomplete').
    split.
    + intros player Hin. apply in_app_iff in Hin as [Hin | Hin].
      * destruct (Hsound player Hin)
          as (m & url & Hm & Hurl & Hn & Hu & Hh & Hp & Hb & Hc & Hg).
        exists 0%nat, g, m, url. rewrite Nat.add_0_r. repeat split; auto.
      * destruct (Hsound' player Hin) as (offset & group & m & url & Hg & Hgroup & Hrest).
        exists (S offset), group, m, url.
        split; [rewrite Hg; lia|]. split; [exact Hgroup | exact Hrest].
    + intros [|offset] group m Hgroup Hm Hflag; cbn in Hgroup.
      * injection Hgroup as <-.
        destruct (Hcomplete m Hm Hflag) as (player & Hin & Hu & Hn).
        destruct (Hsound player Hin) as (_ & _ & _ & _ & _ & _ & _ & _ & _ & _ & Hg).
        exists player. rewrite Nat.add_0_r. repeat split; auto.
        apply in_app_iff. now left.
      * destruct (Hcomplete' offset group m Hgroup Hm Hflag) as (player & Hin & Hu & Hn & Hg).
        exists player. repeat split; auto; [|rewrite Hg; lia].
        apply in_app_iff. now right.
Qed.

(** X16: the player list asks for the topology exactly once.  Every listed
    player stems from a zone member of the group its [groupIndex] names:
    name and uuid are the member's, the address is read from the member's
    Location, and [isCoordinator] tells whether the member's uuid is the
    coordinator the group declares.  Every member without an Invisible
    attribute is listed, under the index of its group. *)
Theorem getAllPlayerList_entries (d : Device) (h : list event) (sonosPlayer : Player.t) :
  let run := getAllPlayerList sonosPlayer d h in
  (exists o, run.1 = [(getAllGroups sonosPlayer, o)]) /\
  (forall players,
     run.2 = inr players ->
     exists groups,
       on_getAllGroups d h sonosPlayer = inr (GroupsArray groups) /\
       (forall player, In player players ->
          exists group m url,
            groups !! ListedPlayer.groupIndex player = Some group /\
            In m (ZoneGroupMember_ group) /\ new_URL (Location m) = inr url /\
            ListedPlayer.sonosName player = ZoneName m /\
            ListedPlayer.uuid player = UUID m /\
            ListedPlayer.urlHostname player = URL.hostname url /\
            ListedPlayer.urlPort player = URL.port url /\
            ListedPlayer.baseUrl player
            = "http://" +:+ URL.hostname url +:+ ":" +:+ URL.port url /\
            (ListedPlayer.isCoordinator player = true <-> Coordinator group = UUID m)) /\
       (forall groupIndex group m,
          groups !! groupIndex = Some group -> In m (ZoneGroupMember_ group) ->
          Invisible m = None ->
          exists player, In player players /\ ListedPlayer.uuid player = UUID m
                         /\ ListedPlayer.sonosName player = ZoneName m
                         /\ ListedPlayer.groupIndex player = groupIndex)).
Proof.
  cbn zeta. unfold getAllPlayerList.
  rewrite bind_events, bind_result. cbn [await fst snd].
  destruct (on_getAllGroups d h sonosPlayer) as [e|[| |groups]] eqn:Egroups;
    cbn [failure_of app throw lift fst snd];
    try (split; [eexists; reflexivity | discriminate]).
  split; [eexists; reflexivity|].
  intros players E. apply listGroups_entries in E as (Hsound & Hcomplete).
  exists groups. split; [reflexivity|]. split.
  - intros player Hin.
    destruct (Hsound player Hin)
      as (offset & group & m & url & Hg & Hgroup & Hm & Hurl & Hn & Hu & Hh & Hp & Hb & Hc).
    exists group, m, url. cbn [Nat.add] in Hg. rewrite Hg.
    repeat match goal with |- _ /\ _ => split end; auto.
    rewrite Hc. apply String.eqb_eq.
  - intros groupIndex group m Hgroup Hm Hflag.
    destruct (Hcomplete groupIndex group m Hgroup Hm Hflag) as (player & Hin & Hu & Hn & Hg).
    exists player. auto.
Qed.

End PlayerList.

Lemma sortedGroupArray_entries_witness :
  @sortedGroupArray sample_collaborators [sample_group None None] 1
  = inl (Error "nrcsp: index is out of range")
  /\ exists urls,
       Forall2 (fun m url => Sample.new_URL (Location m) = inr url)
               (ZoneGroupMember_ (sample_group None None)) urls
       /\ map URL.hostname urls = ["192.168.178.35"; "192.168.178.36"]
       /\ map Member.uuid sample_members = [Some "RINCON_A"; Some "RINCON_B"]
       /\ map Member.invisible sample_members = [Some false; Some false].
Proof.
  split.
  - apply (proj1 (@sortedGroupArray_entries sample_collaborators
                    [sample_group None None] 1)).
    right. cbn. lia.
  - destruct (proj2 (@sortedGroupArray_entries sample_collaborators
                       [sample_group None None] 0) sample_members)
      as (group & urls & _ & Hgroup & Hurls & Hsorted).
    + vm_compute. reflexivity.
    + injection Hgroup as <-. exists urls. split; [exact Hurls|].
      cbn zeta in Hsorted. cbn [sample_group ZoneGroupMember_] in Hurls, Hsorted.
      inversion Hurls as [|m1 url1 ms1 urls1 Hurl1 Hrest1]; subst.
      inversion Hrest1 as [|m2 url2 ms2 urls2 Hurl2 Hrest2]; subst.
      inversion Hrest2; subst.
      vm_compute in Hurl1, Hurl2. injection Hurl1 as <-. injection Hurl2 as <-.
      rewrite Hsorted. vm_compute. auto.
Defined.


Lemma getAllPlayerList_entries_witness :
  exists player,
    In player sample_players /\ ListedPlayer.uuid player = "RINCON_B"
    /\ ListedPlayer.sonosName player = "Bath" /\ ListedPlayer.groupIndex player = 0%nat.
Proof.
  destruct (proj2 (@getAllPlayerList_entries sample_collaborators
                     (sample_household None None) [] sample_kitchen) sample_players)
    as (groups & Hgroups & _ & Hlisted).
  - vm_compute. reflexivity.
  - injection Hgroups as <-.
    apply (Hlisted 0%nat (sample_group None None)
             {| UUID := "RINCON_B"; ZoneName := "Bath";
                Location := "http://192.168.178.36:1400/xml/device_description.xml";
                Invisible := None |});
      [reflexivity | right; left; reflexivity | reflexivity].
Defined.

(** ** Which calls a command makes *)

Lemma bind_all {A B} (P : event -> Prop) (m : M A) (f : A -> M B) (d : Device) :
  (forall h ev, In ev (m d h).1 -> P ev) ->
  (forall a h ev, In ev (f a d h).1 -> P ev) ->
  forall h ev, In ev (bind m f d h).1 -> P ev.
Proof.
  intros Hm Hf h ev. rewrite bind_events, in_app_iff. intros [Hin | Hin]; [eauto|].
  destruct (m d h).2; [contradiction | eauto].
Qed.


Lemma bind_returned {A B} (m : M A) (f : A -> M B) (d : Device) (h : list event) (b : B) :
  (bind m f d h).2 = inr b ->
  exists a, (m d h).2 = inr a /\ (f a d (h ++ (m d h).1)%list).2 = inr b /\
            (bind m f d h).1 = ((m d h).1 ++ (f a d (h ++ (m d h).1)%list).1)%list.
Proof.
  rewrite bind_events, bind_result.
  destruct (m d h).2 as [e|a]; [discriminate|]. intros E. exists a. auto.
Qed.

Lemma bind_returned_at {A B} (m : M A) (f : A -> M B) (d : Device) (h : list event) (b : B) :
  (bind m f d h).2 = inr b ->
  exists a h', (m d h).2 = inr a /\ (f a d h').2 = inr b /\
               (bind m f d h).1 = ((m d h).1 ++ (f a d h').1)%list.
Proof.
  intros E. apply bind_returned in E as (a & Ha & Hb & Hev). eauto.
Qed.

Lemma await_returned {A} (c : call) (answer : Device -> list event -> result A)
    (d : Device) (h : list event) (a : A) :
  (await c answer d h).2 = inr a ->
  answer d h = inr a /\ (await c answer d h).1 = [(c, None)].
Proof. cbn. intros ->. auto. Qed.

Lemma await_all {A} (c : call) (answer : Device -> list event -> result A)
    (d : Device) (h : list event) (ev : event) :
  In ev (await c answer d h).1 -> ev = (c, failure_of (answer d h)).
Proof. cbn. intros [<- | []]. reflexivity. Qed.

Lemma await_thrown {A} (c : call) (answer : Device -> list event -> result A)
    (d : Device) (h : list event) (c' : call) (e : error) :
  In (c', Some e) (await c answer d h).1 -> (await c answer d h).2 = inl e.
Proof.
  cbn. intros [E | []]. injection E as _ E.
  destruct (answer d h); [now injection E as -> | discriminate E].
Qed.

Lemma when_all (P : event -> Prop) (b : bool) (m : M unit) (d : Device) :
  (b = true -> forall h ev, In ev (m d h).1 -> P ev) ->
  forall h ev, In ev (when b m d h).1 -> P ev.
Proof.
  intros Hm. destruct b; cbn [when]; [now apply Hm | intros h ev []].
Qed.


Section NotificationCalls.
Context `{Collaborators}.

Lemma executeActionV6_all (d : Device) (h : list event)
    (playerUrlOrigin endpoint actionName : string) (actionInArgs : gmap string value)
    (ev : event) :
  In ev (executeActionV6 playerUrlOrigin endpoint actionName actionInArgs d h).1 ->
  exists o, ev = (sendToPlayerV1 playerUrlOrigin endpoint (serviceNameOf endpoint)
                                 actionName actionInArgs, o).
Proof.
  destruct (executeActionV6_events d h playerUrlOrigin endpoint actionName actionInArgs)
    as [(-> & _) | [(e & -> & _) | ->]]; cbn zeta; cbn [In].
  - intros [].
  - intros [<- | []]. eauto.
  - intros [<- | []]. eauto.
Qed.

Lemma executeActionV6_thrown (d : Device) (h : list event)
    (playerUrlOrigin endpoint actionName : string) (actionInArgs : gmap string value)
    (c : call) (e : error) :
  In (c, Some e) (executeActionV6 playerUrlOrigin endpoint actionName actionInArgs d h).1 ->
  (executeActionV6 playerUrlOrigin endpoint actionName actionInArgs d h).2 = inl e.
Proof.
  destruct (executeActionV6_events d h playerUrlOrigin endpoint actionName actionInArgs)
    as [(-> & _) | [(e' & -> & ->) | ->]]; cbn zeta; cbn [In].
  - intros [].
  - intros [E | []]. now injection E as _ ->.
  - intros [E | []]. discriminate E.
Qed.


End NotificationCalls.

Lemma bind_ret_all {A B} (P : event -> Prop) (a : A) (f : A -> M B) (d : Device) :
  (forall h ev, In ev (f a d h).1 -> P ev) ->
  forall h ev, In ev (bind (ret a) f d h).1 -> P ev.
Proof.
  intros Hf h ev. rewrite bind_events. cbn [ret fst snd app]. apply Hf.
Qed.

Lemma bind_thrown_unless {A B} (Q : call -> Prop) (m : M A) (f : A -> M B) (d : Device) :
  (forall h c e, In (c, Some e) (m d h).1 -> Q c -> (m d h).2 = inl e) ->
  (forall a h c e, In (c, Some e) (f a d h).1 -> Q c -> (f a d h).2 = inl e) ->
  forall h c e, In (c, Some e) (bind m f d h).1 -> Q c -> (bind m f d h).2 = inl e.
Proof.
  intros Hm Hf h c e. rewrite bind_events, bind_result, in_app_iff. intros [Hin | Hin] Hc.
  - now rewrite (Hm _ _ _ Hin Hc).
  - destruct (m d h).2; [contradiction | eauto].
Qed.

Lemma when_thrown_unless (Q : call -> Prop) (b : bool) (m : M unit) (d : Device) :
  (forall h c e, In (c, Some e) (m d h).1 -> Q c -> (m d h).2 = inl e) ->
  forall h c e, In (c, Some e) (when b m d h).1 -> Q c -> (when b m d h).2 = inl e.
Proof. destruct b; cbn [when]; [auto | intros _ h c e []]. Qed.

Lemma lookup_In {A} (l : list A) (index : nat) (x : A) : l !! index = Some x -> In x l.
Proof.
  revert index. induction l as [|y l IH]; intros [|index] E; cbn in E; try discriminate.
  - injection E as ->. now left.
  - right. eauto.
Qed.

Section GroupNotificationCalls.
Context `{Collaborators}.

Lemma captureVolumes_all (others : list Player.t) (index : nat)
    (memberVolumes : gmap nat value) (d : Device) (h : list event) (ev : event) :
  In ev (captureVolumes index others memberVolumes d h).1 ->
  exists member o, In member others /\ ev = (getVolume member, o).
Proof.
  revert index memberVolumes h. induction others as [|member rest IH];
    intros index memberVolumes h; cbn [captureVolumes]; [intros []|].
  rewrite bind_events, in_app_iff. intros [Hin | Hin].
  - apply await_all in Hin. exists member. eexists. split; [now left | exact Hin].
  - destruct (await _ _ d h).2; [contradiction|].
    apply IH in Hin as (member' & o & Hmember & ->).
    exists member', o. split; [now right | reflexivity].
Qed.

Lemma captureVolumes_thrown (others : list Player.t) (index : nat)
    (memberVolumes : gmap nat value) (d : Device) (h : list event) (c : call) (e : error) :
  In (c, Some e) (captureVolumes index others memberVolumes d h).1 ->
  (captureVolumes index others memberVolumes d h).2 = inl e.
Proof.
  revert index memberVolumes h. induction others as [|member rest IH];
    intros index memberVolumes h; cbn [captureVolumes]; [intros []|].
  rewrite bind_events, bind_result, in_app_iff. intros [Hin | Hin].
  - apply await_thrown in Hin. now rewrite Hin.
  - destruct (await _ _ d h).2; [contradiction|]. apply IH, Hin.
Qed.

Lemma setVolumes_all (others : list Player.t) (volumeAt : nat -> value)
    (d : Device) (h : list event) (ev : event) :
  In ev (setVolumes others volumeAt d h).1 ->
  exists member v o, In member others /\ ev = (setVolume member v, o).
Proof.
  unfold setVolumes. intros Hin.
  apply for_from_event in Hin as (j & member & h' & Hmember & Hin).
  apply await_all in Hin. exists member. do 2 eexists.
  split; [|exact Hin]. eapply lookup_In, Hmember.
Qed.

Lemma setVolumes_thrown (others : list Player.t) (volumeAt : nat -> value)
    (d : Device) (h : list event) (c : call) (e : error) :
  In (c, Some e) (setVolumes others volumeAt d h).1 ->
  (setVolumes others volumeAt d h).2 = inl e.
Proof.
  unfold setVolumes. apply for_from_failed. intros i member h'. apply await_thrown.
Qed.

(** X21: a notification on a group talks to the members behind the
    coordinator only about their volume, and only when the same volume is
    asked for all; the coordinator's volume is read and written only when a
    notification volume is given; nobody is ever muted and the topology is
    never asked for.  Apart from the track reselection and the seek, whose
    failures are swallowed, a call that fails is what the command throws.
    On an empty member list the command throws a TypeError before any
    call. *)
Theorem playGroupNotification_calls (d : Device) (h : list event)
    (coordinator : Player.t) (others : list Player.t) (options : Notification.options) :
  let run := playGroupNotification (coordinator :: others) options d h in
  (forall c o, In (c, o) run.1 ->
     match c with
     | getVolume p | setVolume p _ =>
         (p = coordinator /\ hasVolume options = true)
         \/ (In p others /\ Notification.sameVolume options = true)
     | getCurrentState p | GetMediaInfo p | GetPositionInfo p
     | selectTrack p _ | Seek p _ _ _ => p = coordinator
     | play p => p = coordinator /\ restorable options = true
     | setAVTransportURI p _ _ onlySetUri =>
         p = coordinator /\ onlySetUri = true /\ restorable options = true
     | sendToPlayerV1 playerUrlOrigin endpoint _ actionName _ =>
         playerUrlOrigin = Player.baseUrl coordinator
         /\ endpoint = "/MediaRenderer/AVTransport/Control"
         /\ (actionName = "SetAVTransportURI" \/ actionName = "Play")
     | setTimeout _ => True
     | _ => False
     end) /\
  (forall c e, In (c, Some e) run.1 -> best_effort c = false -> run.2 = inl e) /\
  playGroupNotification [] options d h
  = ([], inl (TypeError "Cannot read properties of undefined")).
Proof.
  cbn zeta. split; [|split].
  - intros c o. revert h.
    change (forall h, In (c, o) (playGroupNotification (coordinator :: others) options d h).1 ->
            (fun ev : event =>
               match ev.1 with
               | getVolume p | setVolume p _ =>
                   (p = coordinator /\ hasVolume options = true)
                   \/ (In p others /\ Notification.sameVolume options = true)
               | getCurrentState p | GetMediaInfo p | GetPositionInfo p
               | selectTrack p _ | Seek p _ _ _ => p = coordinator
               | play p => p = coordinator /\ restorable options = true
               | setAVTransportURI p _ _ onlySetUri =>
                   p = coordinator /\ onlySetUri = true /\ restorable options = true
               | sendToPlayerV1 playerUrlOrigin endpoint _ actionName _ =>
                   playerUrlOrigin = Player.baseUrl coordinator
                   /\ endpoint = "/MediaRenderer/AVTransport/Control"
                   /\ (actionName = "SetAVTransportURI" \/ actionName = "Play")
               | setTimeout _ => True
               | _ => False
               end) (c, o)).
    generalize (c, o). clear c o. intros ev h. revert h ev.
    unfold playGroupNotification, notificationSnapshot, notificationPlay,
      notificationRestore.
    cbn [at_index lookup list_lookup tail].
    repeat first
      [ apply bind_ret_all
      | apply bind_all; [|intros ?]
      | apply when_all; intros ?
      | match goal with
        | |- forall h ev, In ev ((if ?b then _ else _) d h).1 -> _ => destruct b eqn:?
        | |- forall h ev, In ev (match ?x with Some _ => _ | None => _ end d h).1 -> _ =>
            destruct x
        end ].
    all: intros h' ev Hin.
    all: try (apply await_all in Hin; subst ev; cbn; auto; fail).
    all: try (apply executeActionV6_all in Hin as [o ->]; cbn; auto; fail).
    all: try (apply captureVolumes_all in Hin as (member & o & Hmember & ->); cbn; auto; fail).
    all: try (apply setVolumes_all in Hin as (member & v & o & Hmember & ->); cbn; auto; fail).
    all: try (cbn in Hin; contradiction).
    all: rewrite catch_ignore_events in Hin; apply await_all in Hin; subst ev; reflexivity.
  - revert h.
    unfold playGroupNotification, notificationSnapshot, notificationPlay,
      notificationRestore.
    cbn [at_index lookup list_lookup tail].
    repeat first
      [ apply bind_thrown_unless; [|intros ?]
      | apply when_thrown_unless
      | match goal with
        | |- forall h c e, In _ ((if ?b then _ else _) d h).1 -> _ => destruct b eqn:?
        | |- forall h c e, In _ (match ?x with Some _ => _ | None => _ end d h).1 -> _ =>
            destruct x
        end ].
    all: intros h' c e Hin Hc.
    all: try (apply await_thrown in Hin; exact Hin).
    all: try (apply executeActionV6_thrown in Hin; exact Hin).
    all: try (apply captureVolumes_thrown in Hin; exact Hin).
    all: try (apply setVolumes_thrown in Hin; exact Hin).
    all: try (cbn in Hin; contradiction).
    all: rewrite catch_ignore_events in Hin; apply await_all in Hin;
      injection Hin as -> _; discriminate Hc.
  - reflexivity.
Qed.

End GroupNotificationCalls.

(** ** Snapshots: capture and restore *)

Section SnapshotCapture.
Variable getMuted : Player.t -> M value.

Lemma captureMembers_data (options : SnapshotOptions.t) (membersAsPlayersPlus : list Player.t)
    (d : Device) (h : list event) (captured : list MemberData) :
  (captureMembers getMuted options membersAsPlayersPlus d h).2 = inr captured ->
  Forall2 (fun member data =>
             (if SnapshotOptions.snapVolumes options
              then exists h', on_getVolume d h' member = inr (volume data)
              else volume data = Num (-1)) /\
             (if SnapshotOptions.snapMutestates options
              then exists h' muted,
                     (getMuted member d h').2 = inr muted /\
                     mutestate data = Str (if truthy muted then "on" else "off")
              else mutestate data = Null))
          membersAsPlayersPlus captured.
Proof.
  revert h captured. induction membersAsPlayersPlus as [|member rest IH];
    intros h captured; cbn [captureMembers].
  - cbn. intros E. injection E as <-. constructor.
  - intros E.
    apply bind_returned_at in E as (playersVolume & h1 & Hvolume & E & _).
    apply bind_returned_at in E as (playersMutestate & h2 & Hmute & E & _).
    apply bind_returned_at in E as (tail & h3 & Htail & E & _).
    cbn in E. injection E as <-. constructor; [|eapply IH, Htail].
    cbn [volume mutestate]. split.
    + destruct (SnapshotOptions.snapVolumes options).
      * apply await_returned in Hvolume as [Hvolume _]. eauto.
      * cbn in Hvolume. now injection Hvolume as <-.
    + destruct (SnapshotOptions.snapMutestates options).
      * apply bind_returned_at in Hmute as (muted & h4 & Hmuted & Hmute & _).
        cbn in Hmute. injection Hmute as <-. eauto.
      * cbn in Hmute. now injection Hmute as <-.
Qed.

Lemma captureMembers_all (options : SnapshotOptions.t) (membersAsPlayersPlus : list Player.t)
    (d : Device) (h : list event) (ev : event) :
  SnapshotOptions.snapMutestates options = false ->
  In ev (captureMembers getMuted options membersAsPlayersPlus d h).1 ->
  exists member o,
    ev = (getVolume member, o) /\ In member membersAsPlayersPlus
    /\ SnapshotOptions.snapVolumes options = true.
Proof.
  intros Hmute. revert h. induction membersAsPlayersPlus as [|member rest IH];
    intros h; cbn [captureMembers]; [intros []|].
  rewrite Hmute. rewrite bind_events, in_app_iff. intros [Hin | Hin].
  - destruct (SnapshotOptions.snapVolumes options); [|destruct Hin].
    apply await_all in Hin. exists member. eexists. split; [exact Hin|].
    split; [now left | reflexivity].
  - match type of Hin with
    | In _ (match ?r with inl _ => _ | inr _ => _ end) => destruct r; [contradiction|]
    end.
    rewrite bind_events in Hin. cbn [ret fst snd app] in Hin.
    rewrite bind_events, in_app_iff in Hin. destruct Hin as [Hin | Hin].
    + apply IH in Hin as (member' & o & -> & Hmember & Hvolumes).
      exists member', o. split; [reflexivity|]. split; [now right | exact Hvolumes].
    + destruct (captureMembers _ _ _ _ _).2; destruct Hin.
Qed.

(** What a returned snapshot holds. *)
Lemma createGroupSnapshot_data (d : Device) (h : list event)
    (membersAsPlayersPlus : list Player.t) (options : SnapshotOptions.t)
    (snapshot : CreatedSnapshot) :
  (createGroupSnapshot getMuted membersAsPlayersPlus options d h).2 = inr snapshot ->
  memberAddress snapshot = membersAsPlayersPlus /\
  Forall2 (fun member data =>
             (if SnapshotOptions.snapVolumes options
              then exists h', on_getVolume d h' member = inr (volume data)
              else volume data = Num (-1)) /\
             (if SnapshotOptions.snapMutestates options
              then exists h' muted,
                     (getMuted member d h').2 = inr muted /\
                     mutestate data = Str (if truthy muted then "on" else "off")
              else mutestate data = Null))
          membersAsPlayersPlus (memberData (restorableData snapshot)) /\
  exists coordinator others hs hm hp mediaData positionData,
    membersAsPlayersPlus = coordinator :: others /\
    on_getCurrentState d hs coordinator = inr (playbackstate snapshot) /\
    on_GetMediaInfo d hm coordinator = inr mediaData /\
    on_GetPositionInfo d hp coordinator = inr positionData /\
    wasPlaying (restorableData snapshot)
    = (strict_eq_str (playbackstate snapshot) "playing"
       || strict_eq_str (playbackstate snapshot) "transitioning") /\
    CurrentURI (restorableData snapshot) = mi_CurrentURI mediaData /\
    CurrentURIMetadata (restorableData snapshot) = mi_CurrentURIMetaData mediaData /\
    NrTracks (restorableData snapshot) = mi_NrTracks mediaData /\
    Track (restorableData snapshot) = pi_Track positionData /\
    RelTime (restorableData snapshot) = pi_RelTime positionData /\
    TrackDuration (restorableData snapshot) = pi_TrackDuration positionData.
Proof.
  intros E. unfold createGroupSnapshot in E.
  apply bind_returned_at in E as (captured & h1 & Hcaptured & E & _).
  apply captureMembers_data in Hcaptured.
  unfold at_index in E.
  destruct membersAsPlayersPlus as [|coordinator others]; [discriminate E|].
  cbn [lookup list_lookup] in E.
  apply bind_returned_at in E as (coordinator' & h2 & Hcoordinator & E & _).
  cbn in Hcoordinator. injection Hcoordinator as <-.
  apply bind_returned_at in E as (state & h3 & Hstate & E & _).
  apply await_returned in Hstate as [Hstate _].
  apply bind_returned_at in E as (mediaData & h4 & Hmedia & E & _).
  apply await_returned in Hmedia as [Hmedia _].
  apply bind_returned_at in E as (positionData & h5 & Hposition & E & _).
  apply await_returned in Hposition as [Hposition _].
  cbn in E. injection E as <-. cbn.
  split; [reflexivity|]. split; [exact Hcaptured|].
  exists coordinator, others, h2, h3, h4, mediaData, positionData.
  repeat split; assumption.
Qed.

(** X17: a group snapshot that returns holds one entry of member data per
    member, in member order: the volume the member reported, or -1 when
    volumes are not captured; the mute state, 'on' when what the member's
    getMuted answered is truthy and 'off' otherwise, or null when mute
    states are not captured.  Playback state, media and position are
    those the member at index 0 reported, and wasPlaying tells whether that
    state is 'playing' or 'transitioning'.  Capturing changes nothing: with
    mute states off the calls are volume reads, and only when volumes are
    captured, followed by the three reads on the member at index 0. *)
Theorem createGroupSnapshot_capture (d : Device) (h : list event)
    (membersAsPlayersPlus : list Player.t) (options : SnapshotOptions.t) :
  let run := createGroupSnapshot getMuted membersAsPlayersPlus options d h in
  (forall snapshot,
     run.2 = inr snapshot ->
     memberAddress snapshot = membersAsPlayersPlus /\
     Forall2 (fun member data =>
                (if SnapshotOptions.snapVolumes options
                 then exists h', on_getVolume d h' member = inr (volume data)
                 else volume data = Num (-1)) /\
                (if SnapshotOptions.snapMutestates options
                 then exists h' muted,
                        (getMuted member d h').2 = inr muted /\
                        mutestate data = Str (if truthy muted then "on" else "off")
                 else mutestate data = Null))
             membersAsPlayersPlus (memberData (restorableData snapshot)) /\
     exists coordinator others hs hm hp mediaData positionData,
       membersAsPlayersPlus = coordinator :: others /\
       on_getCurrentState d hs coordinator = inr (playbackstate snapshot) /\
       on_GetMediaInfo d hm coordinator = inr mediaData /\
       on_GetPositionInfo d hp coordinator = inr positionData /\
       wasPlaying (restorableData snapshot)
       = (strict_eq_str (playbackstate snapshot) "playing"
          || strict_eq_str (playbackstate snapshot) "transitioning") /\
       CurrentURI (restorableData snapshot) = mi_CurrentURI mediaData /\
       CurrentURIMetadata (restorableData snapshot) = mi_CurrentURIMetaData mediaData /\
       NrTracks (restorableData snapshot) = mi_NrTracks mediaData /\
       Track (restorableData snapshot) = pi_Track positionData /\
       RelTime (restorableData snapshot) = pi_RelTime positionData /\
       TrackDuration (restorableData snapshot) = pi_TrackDuration positionData) /\
  (SnapshotOptions.snapMutestates options = false ->
   forall c o, In (c, o) run.1 ->
     match c with
     | getVolume p => In p membersAsPlayersPlus /\ SnapshotOptions.snapVolumes options = true
     | getCurrentState p | GetMediaInfo p | GetPositionInfo p =>
         head membersAsPlayersPlus = Some p
     | _ => False
     end).
Proof.
  cbn zeta. split.
  - intros snapshot. apply createGroupSnapshot_data.
  - intros Hmute c o. revert h.
    change (forall h,
              In (c, o) (createGroupSnapshot getMuted membersAsPlayersPlus options d h).1 ->
              (fun ev : event =>
                 match ev.1 with
                 | getVolume p =>
                     In p membersAsPlayersPlus /\ SnapshotOptions.snapVolumes options = true
                 | getCurrentState p | GetMediaInfo p | GetPositionInfo p =>
                     head membersAsPlayersPlus = Some p
                 | _ => False
                 end) (c, o)).
    generalize (c, o). clear c o. intros ev h. revert h ev.
    unfold createGroupSnapshot. apply bind_all.
    + intros h ev Hin. apply captureMembers_all in Hin as (member & o & -> & Hin); auto.
    + intros captured. unfold at_index.
      destruct membersAsPlayersPlus as [|coordinator others]; cbn [lookup list_lookup].
      * intros h ev Hin. rewrite bind_events in Hin. destruct Hin.
      * apply bind_ret_all.
        repeat (apply bind_all; [|intros ?]).
        all: intros h' ev Hin.
        all: try (apply await_all in Hin; subst ev; reflexivity).
        destruct Hin.
Qed.

End SnapshotCapture.

Section SnapshotRestore.
Context `{Collaborators}.

Lemma revertTrackAndTime_events (coordinator : Player.t) (track nrTracks : Z)
    (relTime trackDuration : option string) (d : Device) (h : list event) :
  let run := revertTrackAndTime coordinator track nrTracks relTime trackDuration d h in
  Forall (fun ev => best_effort ev.1 = true) run.1 /\ (length run.1 <= 2)%nat.
Proof.
  cbn zeta. unfold revertTrackAndTime. rewrite bind_events.
  destruct (above_one track && (1 <? nrTracks)); destruct (seekable relTime trackDuration);
    cbn [when]; rewrite ?catch_ignore_result, ?catch_ignore_events;
    cbn [ret await fst snd app length];
    rewrite ?catch_ignore_result, ?catch_ignore_events;
    cbn [ret await fst snd app length].
  all: split; [repeat constructor | lia].
Qed.

Lemma restore_loop_calls (snapshot : GroupSnapshot) (l : list Player.t)
    (d : Device) (h : list event) :
  Forall (fun ev => exists member,
            In member l /\
            ((exists v, ev.1 = setVolume member v) \/ (exists b, ev.1 = setMuted member b)))
         (for_from 0 l (restoreMember snapshot) d h).1.
Proof.
  apply List.Forall_forall. intros ev Hin.
  apply restore_loop_event in Hin
    as (index & member & data & Hmember & _ & [(o & -> & _) | (o & -> & _)]);
    exists member; (split; [eapply lookup_In, Hmember|]); cbn; eauto.
Qed.

Lemma restoreGroupSnapshot_returns (d : Device) (h : list event)
    (membersAsPlayersPlus : list Player.t) (snapshot : GroupSnapshot) :
  membersAsPlayersPlus <> [] ->
  (length membersAsPlayersPlus <= length (memberData snapshot))%nat ->
  (forall c e, In (c, Some e) (restoreGroupSnapshot membersAsPlayersPlus snapshot d h).1 ->
               best_effort c = true) ->
  (restoreGroupSnapshot membersAsPlayersPlus snapshot d h).2 = inr true.
Proof.
  destruct membersAsPlayersPlus as [|coordinator others]; [congruence|]. intros _ Hlen.
  destruct (restoreGroupSnapshot_run coordinator others snapshot d h)
    as (hU & hR & hL & Hrun).
  cbn zeta in Hrun. rewrite Hrun. clear Hrun.
  destruct (on_setAVTransportURI d hU coordinator _ _ true) as [e|[]]; cbn [fst snd].
  { intros Hbest. specialize (Hbest _ e (or_introl eq_refl)). discriminate. }
  intros Hbest.
  match goal with
  | |- match ?loop with inl _ => _ | inr _ => _ end = _ =>
      assert (loop = inr tt) as ->; [|reflexivity]
  end.
  apply (for_from_succeeds (fun _ => False)).
  - intros j x h' Hj Hclean. cbn [Nat.add].
    destruct (restoreMember_run snapshot j x d h') as (_ & _ & Hok & _).
    apply Hok; [exact Hclean|].
    apply lookup_lt_is_Some. apply lookup_lt_Some in Hj. lia.
  - intros c e Hin.
    pose proof (restore_loop_calls snapshot (coordinator :: others) d hL) as Hcalls.
    rewrite List.Forall_forall in Hcalls.
    destruct (Hcalls _ Hin) as (member & _ & [[v Hc] | [b Hc]]); cbn in Hc; subst c.
    + assert (best_effort (setVolume member v) = true) as Habs; [|discriminate Habs].
      apply (Hbest _ e). right. apply in_app_iff. now right.
    + assert (best_effort (setMuted member b) = true) as Habs; [|discriminate Habs].
      apply (Hbest _ e). right. apply in_app_iff. now right.
Qed.

(** X18: a snapshot that [createGroupSnapshot] returned can be restored on
    the same members: the restore finds captured data for every member, so
    it returns true unless a call other than the track reselection or the
    seek fails.  It sets the content back on the member at index 0, with the
    URI and metadata captured from it and without starting playback.  It
    sets no volume when volumes were not captured and mutes or unmutes
    nobody when mute states were not captured. *)
Theorem snapshot_round_trip (getMuted : Player.t -> M value)
    (membersAsPlayersPlus : list Player.t) (options : SnapshotOptions.t)
    (d : Device) (h : list event) (snapshot : CreatedSnapshot)
    (d' : Device) (h' : list event) :
  (createGroupSnapshot getMuted membersAsPlayersPlus options d h).2 = inr snapshot ->
  let run := restoreGroupSnapshot membersAsPlayersPlus (restorableData snapshot) d' h' in
  ((forall c e, In (c, Some e) run.1 -> best_effort c = true) -> run.2 = inr true) /\
  (exists coordinator o rest,
     head membersAsPlayersPlus = Some coordinator /\
     run.1 = (setAVTransportURI coordinator (CurrentURI (restorableData snapshot))
                (CurrentURIMetadata (restorableData snapshot)) true, o) :: rest /\
     forall p uri metadata onlySetUri o', ~ In (setAVTransportURI p uri metadata onlySetUri, o') rest) /\
  (SnapshotOptions.snapVolumes options = false ->
   forall p v o, ~ In (setVolume p v, o) run.1) /\
  (SnapshotOptions.snapMutestates options = false ->
   forall p b o, ~ In (setMuted p b, o) run.1).
Proof.
  intros Hcreated.
  destruct (createGroupSnapshot_data getMuted d h membersAsPlayersPlus options snapshot
              Hcreated)
    as (_ & Hdata & coordinator & others & _ & _ & _ & _ & _ & -> & _).
  cbn zeta.
  set (restorable := restorableData snapshot) in *.
  pose proof (restoreGroupSnapshot_returns d' h' (coordinator :: others) restorable
                ltac:(discriminate)) as Hreturns.
  destruct (restoreGroupSnapshot_run coordinator others restorable d' h')
    as (hU & hR & hL & Hrun).
  cbn zeta in Hrun.
  pose proof (revertTrackAndTime_events coordinator (Track restorable) (NrTracks restorable)
                (RelTime restorable) (TrackDuration restorable) d' hR) as [Hrevert _].
  pose proof (restore_loop_calls restorable (coordinator :: others) d' hL) as Hloop.
  cbn zeta in Hrevert. rewrite List.Forall_forall in Hrevert, Hloop.
  assert (forall ev, In ev (for_from 0 (coordinator :: others) (restoreMember restorable) d' hL).1 ->
            exists index member data,
              (coordinator :: others) !! index = Some member /\
              memberData restorable !! index = Some data /\
              ((exists o, ev = (setVolume member (volume data), o)
                          /\ strict_eq_num (volume data) (-1) = false) \/
               (exists o, ev = (setMuted member (strict_eq_str (mutestate data) "on"), o)
                          /\ loose_null (mutestate data) = false))) as Hloop_data.
  { intros ev. apply restore_loop_event. }
  assert (forall index member data,
            (coordinator :: others) !! index = Some member ->
            memberData restorable !! index = Some data ->
            (SnapshotOptions.snapVolumes options = false -> volume data = Num (-1)) /\
            (SnapshotOptions.snapMutestates options = false -> mutestate data = Null))
    as Hcaptured.
  { intros index member data Hmember Hindex.
    destruct (Forall2_lookup_lr _ _ _ _ _ _ Hdata Hmember Hindex) as [Hvolume Hmute].
    split; intros Hoff; rewrite Hoff in *; assumption. }
  split; [|split; [|split]].
  - apply Hreturns. apply Forall2_length in Hdata. rewrite Hdata. lia.
  - rewrite Hrun. exists coordinator.
    destruct (on_setAVTransportURI d' hU coordinator _ _ true) as [e|[]]; cbn [fst snd].
    + eexists _, []. split; [reflexivity|]. split; [reflexivity|]. intros p u m b o' [].
    + eexists _, _. split; [reflexivity|]. split; [reflexivity|].
      intros p u m b o' Hin. apply in_app_iff in Hin as [Hin | Hin].
      * apply Hrevert in Hin. discriminate Hin.
      * apply Hloop in Hin as (member & _ & [[v Hc] | [b' Hc]]); discriminate Hc.
  - intros Hoff p v o. rewrite Hrun.
    destruct (on_setAVTransportURI d' hU coordinator _ _ true) as [e|[]]; cbn [fst snd].
    + intros [E | []]. discriminate E.
    + intros [E | Hin]; [discriminate E|].
      apply in_app_iff in Hin as [Hin | Hin].
      * apply Hrevert in Hin. discriminate Hin.
      * apply Hloop_data in Hin
          as (index & member & data & Hmember & Hindex & [(o' & E & Hv) | (o' & E & _)]);
          [|discriminate E].
        destruct (Hcaptured _ _ _ Hmember Hindex) as [Hvolume _].
        rewrite (Hvolume Hoff) in Hv. discriminate Hv.
  - intros Hoff p b o. rewrite Hrun.
    destruct (on_setAVTransportURI d' hU coordinator _ _ true) as [e|[]]; cbn [fst snd].
    + intros [E | []]. discriminate E.
    + intros [E | Hin]; [discriminate E|].
      apply in_app_iff in Hin as [Hin | Hin].
      * apply Hrevert in Hin. discriminate Hin.
      * apply Hloop_data in Hin
          as (index & member & data & Hmember & Hindex & [(o' & E & _) | (o' & E & Hm)]);
          [discriminate E|].
        destruct (Hcaptured _ _ _ Hmember Hindex) as [_ Hmute].
        rewrite (Hmute Hoff) in Hm. discriminate Hm.
Qed.

(** X19: [restoreGroupSnapshot] restores the content first and the volumes
    last.  Its first call sets the captured URI on the member at index 0;
    when that call fails nothing else is called and its error is thrown.
    Then come at most two best-effort calls, the track reselection and the
    seek, and only volume and mute calls on members of the list follow.  A
    restore that returns has found captured data for every member; on an
    empty member list it throws a TypeError before any call. *)
Theorem restoreGroupSnapshot_order (d : Device) (h : list event)
    (coordinator : Player.t) (others : list Player.t) (snapshot : GroupSnapshot) :
  let run := restoreGroupSnapshot (coordinator :: others) snapshot d h in
  (exists o content volumes,
     run.1 = (setAVTransportURI coordinator (CurrentURI snapshot)
                (CurrentURIMetadata snapshot) true, o) :: (content ++ volumes)%list /\
     (forall e, o = Some e -> content = [] /\ volumes = [] /\ run.2 = inl e) /\
     Forall (fun ev => best_effort ev.1 = true) content /\ (length content <= 2)%nat /\
     Forall (fun ev => exists member,
               In member (coordinator :: others) /\
               ((exists v, ev.1 = setVolume member v) \/ (exists b, ev.1 = setMuted member b)))
            volumes) /\
  (run.2 = inr true ->
   (length (coordinator :: others) <= length (memberData snapshot))%nat) /\
  restoreGroupSnapshot [] snapshot d h
  = ([], inl (TypeError "Cannot read properties of undefined")).
Proof.
  cbn zeta.
  destruct (restoreGroupSnapshot_run coordinator others snapshot d h)
    as (hU & hR & hL & Hrun).
  cbn zeta in Hrun. rewrite Hrun. clear Hrun.
  pose proof (revertTrackAndTime_events coordinator (Track snapshot) (NrTracks snapshot)
                (RelTime snapshot) (TrackDuration snapshot) d hR) as [Hrevert Hlength].
  pose proof (restore_loop_calls snapshot (coordinator :: others) d hL) as Hloop.
  cbn zeta in Hrevert, Hlength.
  split; [|split; [|reflexivity]].
  - destruct (on_setAVTransportURI d hU coordinator _ _ true) as [e|[]]; cbn [fst snd].
    + exists (Some e), [], []. split; [reflexivity|].
      split; [intros e' E; now injection E as <-|].
      split; [constructor|]. split; [cbn; lia | constructor].
    + eexists None, _, _. split; [reflexivity|].
      split; [discriminate|]. auto.
  - destruct (on_setAVTransportURI d hU coordinator _ _ true) as [e|[]]; cbn [fst snd];
      [discriminate|].
    intros Hok.
    assert ((for_from 0 (coordinator :: others) (restoreMember snapshot) d hL).2 = inr tt)
      as Hdone.
    { destruct (for_from 0 (coordinator :: others) (restoreMember snapshot) d hL).2
        as [e|[]]; [discriminate Hok | reflexivity]. }
    destruct (Nat.le_gt_cases (length (coordinator :: others)) (length (memberData snapshot)))
      as [Hle | Hgt]; [exact Hle|].
    exfalso.
    destruct (lookup_lt_is_Some_2 (coordinator :: others) (length (memberData snapshot)) Hgt)
      as [member Hmember].
    destruct (for_from_completed _ _ _ _ _ Hdone _ _ Hmember) as (h' & Hbody & _).
    cbn [Nat.add] in Hbody.
    destruct (restoreMember_run snapshot (length (memberData snapshot)) member d h')
      as (_ & _ & _ & Hfound).
    destruct (Hfound Hbody) as (data & Hdata & _).
    apply lookup_lt_Some in Hdata. lia.
Qed.

End SnapshotRestore.


Lemma playGroupNotification_calls_witness :
  (@playGroupNotification sample_collaborators [sample_kitchen; sample_bath]
     sample_notification sample_locked_household []).2
  = inl (Rejected "upnpErrorCode 402").
Proof.
  apply (proj1 (proj2 (@playGroupNotification_calls sample_collaborators
                         sample_locked_household [] sample_kitchen [sample_bath]
                         sample_notification))
           (setVolume sample_kitchen (Num 30)) (Rejected "upnpErrorCode 402")).
  - vm_compute. auto 10.
  - reflexivity.
Defined.

Lemma createGroupSnapshot_capture_witness :
  Forall2 (fun member data =>
             (exists h', on_getVolume sample_radio_household h' member = inr (volume data))
             /\ (exists h' muted,
                   (sample_getMuted member sample_radio_household h').2 = inr muted /\
                   mutestate data = Str (if truthy muted then "on" else "off")))
          [sample_kitchen; sample_bath]
          (memberData (restorableData (sample_created sample_snap_all))).
Proof.
  destruct (proj1 (createGroupSnapshot_capture sample_getMuted sample_radio_household []
                     [sample_kitchen; sample_bath] sample_snap_all)
                  (sample_created sample_snap_all))
    as (_ & Hdata & _).
  - vm_compute. reflexivity.
  - exact Hdata.
Defined.

Lemma snapshot_round_trip_witness :
  (restoreGroupSnapshot [sample_kitchen; sample_bath]
     (restorableData (sample_created sample_snap_content)) sample_radio_household []).2
  = inr true
  /\ forall p v o,
       ~ In (setVolume p v, o)
            (restoreGroupSnapshot [sample_kitchen; sample_bath]
               (restorableData (sample_created sample_snap_content))
               sample_radio_household []).1.
Proof.
  destruct (snapshot_round_trip sample_getMuted [sample_kitchen; sample_bath]
              sample_snap_content sample_radio_household []
              (sample_created sample_snap_content) sample_radio_household [])
    as (Hreturns & _ & Hvolumes & _).
  - vm_compute. reflexivity.
  - split.
    + apply Hreturns. intros c e Hin. vm_compute in Hin.
      repeat (destruct Hin as [E | Hin];
              [first [discriminate E | injection E as <- _; reflexivity]|]).
      contradiction.
    + apply Hvolumes. reflexivity.
Defined.

Lemma restoreGroupSnapshot_order_witness :
  (length [sample_kitchen; sample_bath] <= length (memberData sample_snapshot))%nat.
Proof.
  apply (proj1 (proj2 (restoreGroupSnapshot_order sample_radio_household []
                         sample_kitchen [sample_bath] sample_snapshot))).
  vm_compute. reflexivity.
Defined.

(** ** Missing markers and the service table *)

Lemma indexOf_lower (s pat : string) : -1 <= indexOf s pat.
Proof. unfold indexOf. destruct (String.index 0 pat s); lia. Qed.

(** X22: a transport URI without the marker '&flags=' has the empty
    service id, whatever else it holds, and metadata without the closing
    tag of the upnp class has the empty class. *)
Theorem extract_without_end_marker (text : string) :
  (indexOf text "&flags=" = -1 -> getMusicServiceId text = "") /\
  (indexOf text "</upnp:class>" = -1 -> getUpnpClass text = "").
Proof.
  split; intros Hend.
  - unfold getMusicServiceId. destruct (isTruthyAndNotEmptyString (Str text)); [|reflexivity].
    cbn zeta. rewrite Hend.
    pose proof (indexOf_lower text "?sid=") as Hstart.
    destruct (Z.ltb_spec (indexOf text "?sid=" + Z.of_nat (String.length "$sid=")) (-1))
      as [Hlt | _]; [cbn in Hlt; lia|].
    now rewrite andb_false_r.
  - unfold getUpnpClass. destruct (isTruthyAndNotEmptyString (Str text)); [|reflexivity].
    cbn zeta. rewrite Hend.
    pose proof (indexOf_lower text "<upnp:class>") as Hstart.
    destruct (Z.ltb_spec (indexOf text "<upnp:class>"
                          + Z.of_nat (String.length "<upnp:class>")) (-1))
      as [Hlt | _]; [cbn in Hlt; lia|].
    now rewrite andb_false_r.
Qed.

Lemma extract_without_end_marker_witness :
  getMusicServiceId "x-rincon-cpcontainer:100abc?sid=201&sn=14" = ""
  /\ getUpnpClass "<DIDL-Lite><upnp:class>object.container" = "".
Proof.
  split.
  - apply (proj1 (extract_without_end_marker "x-rincon-cpcontainer:100abc?sid=201&sn=14")).
    vm_compute. reflexivity.
  - apply (proj2 (extract_without_end_marker "<DIDL-Lite><upnp:class>object.container")).
    vm_compute. reflexivity.
Defined.

Section ServiceTable.
Context `{Collaborators}.

(** X23: the service name of the empty id, and of an id that no entry of
    the service table carries, is the empty string; otherwise it is the
    name of the first entry of the table with that id. *)
Theorem getMusicServiceName_lookup (sid : string) :
  (sid = "" -> getMusicServiceName sid = "") /\
  ((forall service, In service MUSIC_SERVICES -> MusicService.sid service <> sid) ->
   getMusicServiceName sid = "") /\
  (forall before service after,
     sid <> "" ->
     MUSIC_SERVICES = (before ++ service :: after)%list ->
     MusicService.sid service = sid ->
     (forall other, In other before -> MusicService.sid other <> sid) ->
     getMusicServiceName sid = MusicService.name service).
Proof.
  unfold getMusicServiceName. split; [|split].
  - intros ->. reflexivity.
  - intros Hnone. destruct (negb (String.eqb sid "")); [|reflexivity].
    destruct (List.find _ MUSIC_SERVICES) as [service|] eqn:Efind; [|reflexivity].
    apply find_some in Efind as [Hin Heq]. apply String.eqb_eq in Heq.
    now destruct (Hnone service Hin).
  - intros before service after Hsid -> Hservice Hbefore.
    apply String.eqb_neq in Hsid. rewrite Hsid. cbn [negb].
    induction before as [|other before IH]; cbn [app List.find].
    + apply String.eqb_eq in Hservice. now rewrite Hservice.
    + destruct (String.eqb_spec (MusicService.sid other) sid) as [Heq | _].
      * destruct (Hbefore other (or_introl eq_refl) Heq).
      * apply IH. intros other' Hin. apply Hbefore. now right.
Qed.

End ServiceTable.

Lemma getMusicServiceName_lookup_witness :
  @getMusicServiceName sample_collaborators "254" = "TuneIn".
Proof.
  apply (proj2 (proj2 (@getMusicServiceName_lookup sample_collaborators "254"))
           [ {| MusicService.sid := "201"; MusicService.name := "Amazon Music" |} ]
           {| MusicService.sid := "254"; MusicService.name := "TuneIn" |} []).
  - discriminate.
  - reflexivity.
  - reflexivity.
  - intros other [<- | []]. discriminate.
Defined.

(** ** A group notification restores what it captured *)

Section GroupNotificationRestore.
Context `{Collaborators}.

(** What the snapshot of a group notification holds. *)
Lemma notificationSnapshot_returned (coordinator : Player.t) (others : list Player.t)
    (options : Notification.options) (d : Device) (h : list event)
    (snapshot : Notification.snapshot) :
  (notificationSnapshot (coordinator :: others) options d h).2 = inr snapshot ->
  exists state,
    on_getCurrentState d h coordinator = inr state /\
    on_GetMediaInfo d (h ++ [(getCurrentState coordinator, None)])%list coordinator
    = inr (Notification.mediaInfo snapshot) /\
    on_GetPositionInfo d (h ++ [(getCurrentState coordinator, None);
                                (GetMediaInfo coordinator, None)])%list coordinator
    = inr (Notification.positionInfo snapshot) /\
    Notification.wasPlaying snapshot
    = (strict_eq_str state "playing" || strict_eq_str state "transitioning").
Proof.
  unfold notificationSnapshot. cbn zeta. cbn [at_index lookup list_lookup]. intros E.
  apply bind_returned in E as (coordinator' & Hc & E & _).
  cbn [ret fst snd] in Hc, E. injection Hc as <-. rewrite app_nil_r in E.
  apply bind_returned in E as (state & Hstate & E & _).
  apply await_returned in Hstate as [Hstate Hev]. rewrite Hev in E. clear Hev.
  apply bind_returned in E as (mediaInfo & Hmedia & E & _).
  apply await_returned in Hmedia as [Hmedia Hev]. rewrite Hev in E. clear Hev.
  rewrite <- app_assoc in E. cbn [app] in E.
  apply bind_returned_at in E as (positionInfo & h3 & Hposition & E & _).
  apply await_returned in Hposition as [Hposition _].
  apply bind_returned_at in E as (volumes0 & h4 & _ & E & _).
  apply bind_returned_at in E as (volumes & h5 & _ & E & _).
  cbn [ret snd] in E. injection E as <-. cbn.
  exists state. auto.
Qed.

(** Before the restore phase nothing is restored: the calls of the snapshot
    and of the notification itself are reads, volume calls, the two
    transport actions and the wait. *)
Lemma notification_before_restore (coordinator : Player.t) (others : list Player.t)
    (options : Notification.options) (metadata : string) (d : Device) :
  let quiet := fun ev : event =>
                 match ev.1 with
                 | setAVTransportURI _ _ _ _ | selectTrack _ _ | Seek _ _ _ _ | play _ => False
                 | _ => True
                 end in
  (forall h ev, In ev (notificationSnapshot (coordinator :: others) options d h).1 -> quiet ev)
  /\ (forall h ev, In ev (notificationPlay (coordinator :: others) options metadata d h).1 ->
                   quiet ev).
Proof.
  cbn zeta. split.
  - unfold notificationSnapshot. cbn [at_index lookup list_lookup tail].
    repeat first
      [ apply bind_ret_all
      | apply bind_all; [|intros ?]
      | match goal with
        | |- forall h ev, In ev ((if ?b then _ else _) d h).1 -> _ => destruct b eqn:?
        end ].
    all: intros h' ev Hin.
    all: try (apply await_all in Hin; subst ev; exact I).
    all: try (apply captureVolumes_all in Hin as (member & o & Hmember & ->); exact I).
    all: try (cbn in Hin; contradiction).
  - unfold notificationPlay. cbn [at_index lookup list_lookup tail].
    repeat first
      [ apply bind_ret_all
      | apply bind_all; [|intros ?]
      | apply when_all; intros ?
      | match goal with
        | |- forall h ev, In ev ((if ?b then _ else _) d h).1 -> _ => destruct b eqn:?
        | |- forall h ev, In ev (match ?x with Some _ => _ | None => _ end d h).1 -> _ =>
            destruct x
        end ].
    all: intros h' ev Hin.
    all: try (apply await_all in Hin; subst ev; exact I).
    all: try (apply executeActionV6_all in Hin as [o ->]; exact I).
    all: try (apply setVolumes_all in Hin as (member & v & o & Hmember & ->); exact I).
    all: try (cbn in Hin; contradiction).
Qed.

(** The restore phase on a given snapshot, when it returns. *)
Lemma notificationRestore_returned (coordinator : Player.t) (others : list Player.t)
    (options : Notification.options) (snapshot : Notification.snapshot)
    (d : Device) (h : list event) :
  let run := notificationRestore (coordinator :: others) options snapshot d h in
  run.2 = inr tt ->
  (forall p uri metadata onlySetUri o,
      In (setAVTransportURI p uri metadata onlySetUri, o) run.1 ->
      setAVTransportURI p uri metadata onlySetUri = restoreUriCall coordinator snapshot
      /\ restorable options = true) /\
  (restorable options = true -> In (restoreUriCall coordinator snapshot, None) run.1) /\
  (forall p o, In (play p, o) run.1 ->
               p = coordinator /\ Notification.wasPlaying snapshot = true
               /\ restorable options = true) /\
  (Notification.wasPlaying snapshot = true -> restorable options = true ->
   In (play coordinator, None) run.1).
Proof.
  cbn zeta. rewrite notificationRestore_steps. intros Hok.
  pose proof (restoreSteps_step coordinator others options snapshot) as Hstep.
  split; [|split; [|split]].
  - intros p uri metadata onlySetUri o Hin.
    apply for_from_event in Hin as (j & step & h' & Hj & Hin). cbn [Nat.add] in Hin.
    destruct (Hstep j step d h' Hj) as (Hcalls & _). specialize (Hcalls _ _ Hin).
    destruct j as [|[|[|[|j]]]].
    + destruct Hcalls as (m & v & E). discriminate.
    + destruct Hcalls as (m & v & E). discriminate.
    + exact Hcalls.
    + destruct Hcalls as [(E & _) | (E & _)]; discriminate.
    + destruct Hcalls as (E & _). discriminate.
  - intros Hgate.
    destruct (for_from_completed _ _ _ _ _ Hok 2%nat _ eq_refl) as (h' & Hdone & Hincl).
    cbn [Nat.add] in Hdone, Hincl. apply Hincl.
    rewrite Hgate in Hdone |- *. cbn [when] in Hdone |- *.
    apply await_returned in Hdone as [_ ->]. now left.
  - intros p o Hin.
    apply for_from_event in Hin as (j & step & h' & Hj & Hin). cbn [Nat.add] in Hin.
    destruct (Hstep j step d h' Hj) as (Hcalls & _). specialize (Hcalls _ _ Hin).
    destruct j as [|[|[|[|j]]]].
    + destruct Hcalls as (m & v & E). discriminate.
    + destruct Hcalls as (m & v & E). discriminate.
    + destruct Hcalls as (E & _). discriminate.
    + destruct Hcalls as [(E & _) | (E & _)]; discriminate.
    + destruct Hcalls as (E & Hplaying & Hgate). injection E as ->. auto.
  - intros Hplaying Hgate.
    destruct (for_from_completed _ _ _ _ _ Hok 4%nat _ eq_refl) as (h' & Hdone & Hincl).
    cbn [Nat.add] in Hdone, Hincl. apply Hincl.
    rewrite Hplaying, Hgate in Hdone |- *. cbn [when] in Hdone |- *.
    apply await_returned in Hdone as [_ ->]. now left.
Qed.

(** X24: a group notification that returns restores what it captured at
    its start from the member at index 0.  The content URI and metadata
    that member reported are set back, without playing, exactly when the
    URI of the notification does not hold 'x-sonos-vli'; the captured
    content URI itself is not consulted.  The track is selected again
    exactly when the reported track number is above 1 with more than one
    track, and the reported relative time is sought exactly when there is
    one and the track duration is not '0:00:00'.  Play is called exactly
    when the reported state was 'playing' or 'transitioning' and the
    content URI was set back. *)
Theorem playGroupNotification_restore (d : Device) (h : list event)
    (coordinator : Player.t) (others : list Player.t) (options : Notification.options) :
  let run := playGroupNotification (coordinator :: others) options d h in
  run.2 = inr tt ->
  exists state mediaInfo positionInfo,
    on_getCurrentState d h coordinator = inr state /\
    on_GetMediaInfo d (h ++ [(getCurrentState coordinator, None)])%list coordinator
    = inr mediaInfo /\
    on_GetPositionInfo d (h ++ [(getCurrentState coordinator, None);
                                (GetMediaInfo coordinator, None)])%list coordinator
    = inr positionInfo /\
    let wasPlaying := strict_eq_str state "playing" || strict_eq_str state "transitioning" in
    let uriCall := setAVTransportURI coordinator (mi_CurrentURI mediaInfo)
                                     (mi_CurrentURIMetaData mediaInfo) true in
    let trackCall := selectTrack coordinator (pi_Track positionInfo) in
    let seekCall := Seek coordinator 0 "REL_TIME" (default "" (pi_RelTime positionInfo)) in
    let trackAsked := above_one (pi_Track positionInfo) && (1 <? mi_NrTracks mediaInfo) in
    let seekAsked := seekable (pi_RelTime positionInfo) (pi_TrackDuration positionInfo) in
    (forall p uri metadata onlySetUri o,
        In (setAVTransportURI p uri metadata onlySetUri, o) run.1 ->
        setAVTransportURI p uri metadata onlySetUri = uriCall /\ restorable options = true) /\
    (restorable options = true -> In (uriCall, None) run.1) /\
    (forall p trackNr o,
        In (selectTrack p trackNr, o) run.1 ->
        selectTrack p trackNr = trackCall /\ trackAsked = true) /\
    (trackAsked = true -> exists o, In (trackCall, o) run.1) /\
    (forall p instanceId unitName target o,
        In (Seek p instanceId unitName target, o) run.1 ->
        Seek p instanceId unitName target = seekCall /\ seekAsked = true) /\
    (seekAsked = true -> exists o, In (seekCall, o) run.1) /\
    (forall p o, In (play p, o) run.1 ->
                 p = coordinator /\ wasPlaying = true /\ restorable options = true) /\
    (wasPlaying = true -> restorable options = true -> In (play coordinator, None) run.1).
Proof.
  cbn zeta. unfold playGroupNotification. intros Hret.
  apply bind_returned in Hret as (snapshot & Hsnapshot & Hret & Hev). rewrite Hev. clear Hev.
  apply bind_returned_at in Hret as ([] & h2 & Hplayed & Hrestore & Hev).
  rewrite Hev. clear Hev.
  destruct (notificationSnapshot_returned _ _ _ _ _ _ Hsnapshot)
    as (state & Hstate & Hmedia & Hposition & Hwas).
  match type of Hplayed with
  | (notificationPlay _ _ ?metadata _ _).2 = _ =>
      destruct (notification_before_restore coordinator others options metadata d)
        as [Hquiet1 Hquiet2]
  end.
  cbn zeta in Hquiet1, Hquiet2.
  destruct (notificationRestore_returned coordinator others options snapshot d h2 Hrestore)
    as (Huri & Huri_done & Hplay & Hplay_done).
  destruct (notificationRestore_best_effort coordinator others options snapshot d h2)
    as (Htrack & Hseek & Htrack_done & Hseek_done & _).
  unfold restoreUriCall, restoreTrackCall, restoreSeekCall, trackWanted, seekWanted in *.
  rewrite Hwas in *.
  exists state, (Notification.mediaInfo snapshot), (Notification.positionInfo snapshot).
  split; [exact Hstate|]. split; [exact Hmedia|]. split; [exact Hposition|].
  assert (forall ev,
            In ev ((notificationSnapshot (coordinator :: others) options d h).1
                   ++ (notificationPlay (coordinator :: others) options
                         match Notification.metadata options with
                         | Some given => given
                         | None => GenerateMetadata (Notification.uri options)
                         end d
                         (h ++ (notificationSnapshot (coordinator :: others) options d h).1)).1
                   ++ (notificationRestore (coordinator :: others) options snapshot d h2).1)%list ->
            match ev.1 with
            | setAVTransportURI _ _ _ _ | selectTrack _ _ | Seek _ _ _ _ | play _ =>
                In ev (notificationRestore (coordinator :: others) options snapshot d h2).1
            | _ => True
            end) as Hlate.
  { intros ev Hin. apply in_app_iff in Hin as [Hin | Hin];
      [apply Hquiet1 in Hin; destruct ev as [[] o]; cbn in *; tauto|].
    apply in_app_iff in Hin as [Hin | Hin];
      [apply Hquiet2 in Hin; destruct ev as [[] o]; cbn in *; tauto|].
    destruct ev as [[] o]; cbn; auto. }
  repeat match goal with |- _ /\ _ => split end.
  - intros p uri metadata onlySetUri o Hin. apply Hlate in Hin. cbn in Hin. eauto.
  - intros Hgate. apply in_or_app. right. apply in_or_app. right. auto.
  - intros p trackNr o Hin. apply Hlate in Hin. cbn in Hin. eauto.
  - intros Hasked. destruct (Htrack_done Hrestore Hasked) as (o & Ho).
    exists o. apply in_or_app. right. apply in_or_app. now right.
  - intros p instanceId unitName target o Hin. apply Hlate in Hin. cbn in Hin. eauto.
  - intros Hasked. destruct (Hseek_done Hrestore Hasked) as (o & Ho).
    exists o. apply in_or_app. right. apply in_or_app. now right.
  - intros p o Hin. apply Hlate in Hin. cbn in Hin. exact (Hplay p o Hin).
  - intros Hplaying Hgate. apply in_or_app. right. apply in_or_app. right. auto.
Qed.

End GroupNotificationRestore.

Lemma playGroupNotification_restore_witness :
  In (play sample_kitchen, None)
     (@playGroupNotification sample_collaborators [sample_kitchen; sample_bath]
        sample_notification sample_session_household []).1
  /\ forall o,
       ~ In (play sample_kitchen, o)
            (@playGroupNotification sample_collaborators [sample_kitchen; sample_bath]
               sample_notification sample_session_stopped []).1.
Proof.
  split.
  - destruct (@playGroupNotification_restore sample_collaborators sample_session_household []
                sample_kitchen [sample_bath] sample_notification)
      as (state & mediaInfo & positionInfo & Hstate & _ & _ & _ & _ & _ & _ & _ & _ & _ & Hplay).
    + vm_compute. reflexivity.
    + injection Hstate as <-. apply Hplay; reflexivity.
  - intros o Hin.
    destruct (@playGroupNotification_restore sample_collaborators sample_session_stopped []
                sample_kitchen [sample_bath] sample_notification)
      as (state & mediaInfo & positionInfo & Hstate & _ & _ & _ & _ & _ & _ & _ & _ & Hplayed & _).
    + vm_compute. reflexivity.
    + injection Hstate as <-.
      destruct (Hplayed _ _ Hin) as (_ & Hplaying & _). discriminate Hplaying.
Defined.
